(** * scopedalloc.h: bump-pointer arenas, their allocator handle and svobuf

    A shallow embedding of [src/scopedalloc.h].

    - [size_t] values are integers in [0, 2^size_bits) and every
      arithmetic operation on them is written with its wrap-around.
    - [char *] values are addresses in a flat address space of the same
      width; [nullptr] is address 0.
    - a C++ exception is an [outcome] other than [Ok]; an exception that
      reaches the boundary of a [noexcept] function calls
      [std::terminate], which is the outcome [Terminated].
    - the calls [posix_memalign] and [free] of the C library are recorded
      in a log; what [posix_memalign] answers is an input of the model. *)

From Stdlib Require Import ZArith Lia List Bool.
From stdpp Require Import base option gmap.
Import ListNotations.

Local Open Scope Z_scope.

(** ** The platform *)

(** The three constants of the platform the header depends on: the width
    of [size_t] (and of addresses), [alignof(std::max_align_t)] and
    [sizeof(void * )]. *)
Class Platform := {
  size_bits : Z;
  alignof_max_align_t : Z;
  sizeof_void_p : Z;
  size_bits_pos : 0 < size_bits;
}.

(** The usual 64-bit platform (x86-64 and AArch64 with the LP64 ABI). *)
#[local] Instance LP64 : Platform := {|
  size_bits := 64;
  alignof_max_align_t := 16;
  sizeof_void_p := 8;
  size_bits_pos := eq_refl;
|}.

Section SizeT.
Context `{Platform}.

Definition size_modulus : Z := 2 ^ size_bits.
Definition SIZE_MAX : Z := size_modulus - 1.

(** Reduction of a mathematical integer to a [size_t]. *)
Definition to_size_t (z : Z) : Z := z mod size_modulus.

Definition size_add (a b : Z) : Z := to_size_t (a + b).
Definition size_sub (a b : Z) : Z := to_size_t (a - b).
Definition size_mul (a b : Z) : Z := to_size_t (a * b).
Definition size_and (a b : Z) : Z := Z.land a b.
Definition size_not (a : Z) : Z := to_size_t (Z.lnot a).

(** A value that fits [size_t]. *)
Definition is_size_t (z : Z) : Prop := 0 <= z < size_modulus.

(** Pointer arithmetic on [char *]: addresses wrap like [size_t]. *)
Definition nullptr : Z := 0.
Definition ptr_add (p n : Z) : Z := to_size_t (p + n).
(** [static_cast<size_t>(p - q)]. *)
Definition ptr_diff (p q : Z) : Z := to_size_t (p - q).

(** [is_power2], line 37. *)
Definition is_power2 (n : Z) : bool :=
  (0 <? n) && (size_and n (size_sub n 1) =? 0).

(** [check_alignment], line 42, with [SCOPED_ALLOC_SUPPORT_OVERALIGN]
    defined as the header does. *)
Definition check_alignment (alignment : Z) : bool :=
  if negb (is_power2 alignment) then false
  else if alignment <=? alignof_max_align_t then true
  else alignment mod sizeof_void_p =? 0.

(** [arena_interf<Alignment>::aligned_size], line 155. *)
Definition aligned_size (Alignment byte_count : Z) : Z :=
  size_and (size_add byte_count (size_sub Alignment 1))
           (size_not (size_sub Alignment 1)).

(** The mathematical rounding the comments and the specification speak
    of: the least multiple of [a] that is at least [n]. *)
Definition round_up (a n : Z) : Z := (n + a - 1) / a * a.

Definition least_multiple_ge (a n r : Z) : Prop :=
  (a | r) /\ n <= r /\ forall m, (a | m) -> n <= m -> r <= m.

(** A template argument [size_t Alignment] that passes the
    [static_assert(check_alignment(Alignment))] of lines 62 and 71. *)
Definition valid_alignment (Alignment : Z) : Prop :=
  is_size_t Alignment /\ check_alignment Alignment = true.
End SizeT.



(** ** Exceptions, outcomes and the calls into the C library *)

(** The exceptions the header throws, one constructor per [throw], and
    the [std::length_error] of [std::vector]. *)
Inductive exn : Type :=
  | empty_aligned_buf                                  (* line 85 *)
  | no_valid_buffer                                    (* line 109 *)
  | posix_memalign_failed (alignment byte_count : Z)   (* line 228 *)
  | allocator_outlived                                 (* line 274 *)
  | invalid_allocation                                 (* line 323 *)
  | allocate_initial_buffer_dynamically                (* line 429 *)
  | length_error.

(** How a call ends: it returns, an exception leaves it, an exception
    reached a [noexcept] boundary and [std::terminate] was called, or the
    call used a reference to an object that does not exist. *)
Inductive outcome (A : Type) : Type :=
  | Ok (a : A)
  | Throw (e : exn)
  | Terminated (e : exn)
  | Undefined.
Arguments Ok {A} a.
Arguments Throw {A} e.
Arguments Terminated {A} e.
Arguments Undefined {A}.

(** The calls into the C library.  [posix_memalign alignment size answer]
    records the arguments and what the library answered: [Some p] when it
    returned 0 and stored [p], [None] when it returned an error code. *)
Inductive event : Type :=
  | posix_memalign (alignment size : Z) (answer : option Z)
  | free (p : Z).

(** A computation on a state [S] that may end in any [outcome] and
    appends to the log of library calls.  State and log survive an
    exception, as the fields of a C++ object do. *)
Record run (S A : Type) : Type := Run {
  result : outcome A;
  state : S;
  log : list event;
}.
Arguments Run {S A} result state log.
Arguments result {S A} r.
Arguments state {S A} r.
Arguments log {S A} r.

Definition M (S A : Type) : Type := S -> list event -> run S A.

Definition ret {S A} (a : A) : M S A := fun s l => Run (Ok a) s l.

Definition bind {S A B} (m : M S A) (k : A -> M S B) : M S B := fun s l =>
  let r := m s l in
  match result r with
  | Ok a => k a (state r) (log r)
  | Throw e => Run (Throw e) (state r) (log r)
  | Terminated e => Run (Terminated e) (state r) (log r)
  | Undefined => Run Undefined (state r) (log r)
  end.

Definition throw {S A} (e : exn) : M S A := fun s l => Run (Throw e) s l.
Definition get {S} : M S S := fun s l => Run (Ok s) s l.
Definition put {S} (s : S) : M S unit := fun _ l => Run (Ok tt) s l.
Definition emit {S} (ev : event) : M S unit := fun s l => Run (Ok tt) s (l ++ [ev]).

(** A [noexcept] function: an exception that would leave it terminates
    the program. *)
Definition noexcept {S A} (m : M S A) : M S A := fun s l =>
  let r := m s l in
  match result r with
  | Throw e => Run (Terminated e) (state r) (log r)
  | _ => r
  end.

#[global] Instance M_ret {S} : MRet (M S) := fun A a => ret a.
#[global] Instance M_bind {S} : MBind (M S) := fun A B k m => bind m k.

(** ** [aligned_buf] and [arena_interf] *)

(** [aligned_buf<Alignment>], line 59; the alignment is a tag of the type
    and not a field. *)
Module aligned_buf.
Record t : Type := mk { buf : Z; size : Z }.
End aligned_buf.

(** The fields of [arena_interf<Alignment>], lines 74-78. *)
Record arena_interf : Type := {
  m_buf : Z;
  m_size : Z;
  m_cursor : Z;
}.

(** The default member initialisers of lines 74-78. *)
Definition arena_default : arena_interf :=
  {| m_buf := 0; m_size := 0; m_cursor := 0 |}.

Section arena_interf.
Context `{Platform}.
(** The template parameter of the class. *)
Variable Alignment : Z.

(** [set_buf], line 81. *)
Definition set_buf (b : aligned_buf.t) : M arena_interf unit :=
  if negb ((negb (aligned_buf.buf b =? nullptr)) && negb (aligned_buf.size b =? 0))
  then throw empty_aligned_buf
  else
    put {| m_buf := aligned_buf.buf b;
           m_size := aligned_buf.size b;
           m_cursor := aligned_buf.buf b |}.

(** [has_buf], line 94. *)
Definition has_buf : M arena_interf bool :=
  a ← get; ret (negb (m_buf a =? nullptr) && negb (m_size a =? 0)).

(** [get_buf], line 100. *)
Definition get_buf : M arena_interf aligned_buf.t :=
  a ← get; ret (aligned_buf.mk (m_buf a) (m_size a)).

(** [get_buf_ex], line 106. *)
Definition get_buf_ex : M arena_interf aligned_buf.t :=
  hb ← has_buf;
  if negb hb then throw no_valid_buffer else get_buf.

(** [used], line 131. *)
Definition used : M arena_interf Z :=
  b ← get_buf_ex;
  a ← get;
  ret (ptr_diff (m_cursor a) (aligned_buf.buf b)).

(** [usage], line 136, divides [used()] by the size in [float]; it is
    not part of this model. *)

(** [reset], line 142. *)
Definition reset : M arena_interf unit :=
  b ← get_buf_ex;
  a ← get;
  put {| m_buf := m_buf a; m_size := m_size a; m_cursor := aligned_buf.buf b |}.

(** [in_buf], line 148. *)
Definition in_buf (p : Z) : M arena_interf bool :=
  b ← get_buf_ex;
  ret ((aligned_buf.buf b <=? p)
       && (p <=? ptr_add (aligned_buf.buf b) (aligned_buf.size b))).

(** [detect_outlive], line 268, with [SCOPED_ALLOC_THROW_OVERLIVE]
    defined as the header does. *)
Definition detect_outlive : M arena_interf unit :=
  a ← get;
  ib ← in_buf (m_cursor a);
  if negb ib then throw allocator_outlived else ret tt.

(** [overalign_alloc], line 221, with [SCOPED_ALLOC_USE_POSIX_MEMALIGN]
    defined as the header does.  [answer] is what [posix_memalign]
    answers to this call. *)
Definition overalign_alloc (byte_count : Z) (answer : option Z) : M arena_interf Z :=
  emit (posix_memalign Alignment byte_count answer) ;;
  match answer with
  | Some aligned_ptr => ret aligned_ptr
  | None => throw (posix_memalign_failed Alignment byte_count)
  end.

(** [overalign_free], line 238. *)
Definition overalign_free (p : Z) : M arena_interf unit := emit (free p).

(** [alloc_aligned], line 244. *)
Definition alloc_aligned (byte_count : Z) (answer : option Z) : M arena_interf Z :=
  overalign_alloc byte_count answer.

(** [free_aligned], line 256. *)
Definition free_aligned (p : Z) : M arena_interf unit :=
  if negb (p =? nullptr) then overalign_free p else ret tt.

(** [dynamic_alloc], line 214: the virtual function as [arena_interf]
    defines it; neither [fixed_arena] nor [dynamic_arena] overrides it. *)
Definition dynamic_alloc (byte_count : Z) (answer : option Z) : M arena_interf Z :=
  alloc_aligned byte_count answer.

(** [allocate], line 161.  [RequestAlignment] is only used by the
    [static_assert] of line 163. *)
Definition allocate (byte_count : Z) (answer : option Z) : M arena_interf Z :=
  detect_outlive ;;
  if byte_count =? 0 then ret nullptr
  else
    b ← get_buf_ex;
    let byte_count_aligned := aligned_size Alignment byte_count in
    a ← get;
    if ptr_diff (ptr_add (aligned_buf.buf b) (aligned_buf.size b)) (m_cursor a)
         >=? byte_count_aligned
    then
      let r := m_cursor a in
      put {| m_buf := m_buf a; m_size := m_size a;
             m_cursor := ptr_add (m_cursor a) byte_count_aligned |} ;;
      ret r
    else dynamic_alloc byte_count answer.

(** [deallocate], line 193. *)
Definition deallocate (p byte_count : Z) : M arena_interf unit :=
  noexcept (
    detect_outlive ;;
    ib ← in_buf p;
    if ib : bool then
      a ← get;
      if ptr_add p (aligned_size Alignment byte_count) =? m_cursor a
      then put {| m_buf := m_buf a; m_size := m_size a; m_cursor := p |}
      else ret tt
    else free_aligned p : M arena_interf unit).

(** [~arena_interf], line 123. *)
Definition arena_interf_dtor : M arena_interf unit :=
  put {| m_buf := nullptr; m_size := 0; m_cursor := nullptr |}.

(** The [static_assert] of line 163. *)
Definition allocate_instantiates (RequestAlignment : Z) : bool :=
  RequestAlignment <=? Alignment.

(** The [static_assert] of line 83. *)
Definition set_buf_instantiates (BufAlignment : Z) : bool :=
  check_alignment BufAlignment && (BufAlignment >=? Alignment).
End arena_interf.

(** ** The state of an arena between two calls *)

Section arena_state.
Context `{Platform}.
Variable Alignment : Z.

(** The arena [a] with its cursor at [c]. *)
Definition with_cursor (a : arena_interf) (c : Z) : arena_interf :=
  {| m_buf := m_buf a; m_size := m_size a; m_cursor := c |}.

(** A buffer is attached, it is an object of the address space (it
    neither starts at the null address nor reaches the end of the
    address space) and the cursor is within it. *)
Definition arena_ok (a : arena_interf) : Prop :=
  0 < m_buf a /\ 0 < m_size a /\ m_buf a + m_size a < size_modulus /\
  m_buf a <= m_cursor a <= m_buf a + m_size a.

(** The bytes between the cursor and the end of the buffer. *)
Definition remaining (a : arena_interf) : Z := m_buf a + m_size a - m_cursor a.

(** The cursor is a multiple of the alignment away from the start. *)
Definition cursor_aligned (a : arena_interf) : Prop :=
  (m_cursor a - m_buf a) mod Alignment = 0.
End arena_state.

(** ** [fixed_arena] and [dynamic_arena] *)

Section arenas.
Context `{Platform}.
Variable Alignment : Z.

(** [fixed_arena<ByteCount, Alignment>::fixed_arena], line 288.
    [m_storage] is the address of the array member of line 285. *)
Definition fixed_arena (ByteCount m_storage : Z) : M arena_interf unit :=
  put arena_default ;;
  set_buf (aligned_buf.mk m_storage ByteCount).

(** [dynamic_arena::alloc], line 320.  The argument of [set_buf] is
    evaluated, and [posix_memalign] called, before [set_buf] runs. *)
Definition alloc (byte_count : Z) (answer : option Z) : M arena_interf unit :=
  if byte_count =? 0 then throw invalid_allocation
  else
    hb ← has_buf;
    (if hb : bool then b ← get_buf; free_aligned (aligned_buf.buf b) else ret tt) ;;
    p ← alloc_aligned Alignment byte_count answer;
    set_buf (aligned_buf.mk p byte_count).

(** [dynamic_arena::dynamic_arena(size_t)], line 297. *)
Definition dynamic_arena (byte_count : Z) (answer : option Z) : M arena_interf unit :=
  put arena_default ;;
  if byte_count =? 0 then ret tt
  else alloc byte_count answer.

(** [dynamic_arena::dynamic_arena(const aligned_buf &)], line 305, calls
    [set_buf] unqualified from a class template with a dependent base;
    a conforming compiler rejects it where it is instantiated, and it is
    not part of this model. *)

(** [dynamic_arena::~dynamic_arena], line 312, followed by the
    destructor of the base class. *)
Definition dynamic_arena_dtor : M arena_interf unit :=
  hb ← has_buf;
  (if hb : bool then b ← get_buf; free_aligned (aligned_buf.buf b) else ret tt) ;;
  arena_interf_dtor.
End arenas.

(** ** What [posix_memalign] may answer *)

Section posix.
Context `{Platform}.

(** The contract of [posix_memalign(&p, alignment, size)] in POSIX: it
    fails when [alignment] is not a power of two that is a multiple of
    [sizeof(void * )], and it may fail for lack of memory; when it
    succeeds on a non-zero [size], the block [p, p + size) starts at a
    multiple of [alignment], is an object of the address space and
    overlaps none of the [live] objects, given as (address, size). *)
Definition posix_memalign_conforms
    (live : list (Z * Z)) (alignment size : Z) (answer : option Z) : bool :=
  match answer with
  | None => true
  | Some p =>
      is_power2 alignment && (alignment mod sizeof_void_p =? 0)
      && (p mod alignment =? 0)
      && ((size =? 0)
          || ((0 <? p) && (p + size <? size_modulus)
              && forallb (fun o => (p + size <=? fst o) || (fst o + snd o <=? p)) live))
  end.
End posix.

(** ** Sequences of calls on one arena *)

(** A call of a client of the arena; an allocation carries the answer
    [posix_memalign] gives if the call reaches it. *)
Inductive op : Type :=
  | op_allocate (byte_count : Z) (answer : option Z)
  | op_deallocate (p byte_count : Z)
  | op_reset.

Section calls.
Context `{Platform}.
Variable Alignment : Z.

(** One call; an allocation returns its pointer. *)
Definition run_op (o : op) : M arena_interf (option Z) :=
  match o with
  | op_allocate byte_count answer =>
      p ← allocate Alignment byte_count answer; ret (Some p)
  | op_deallocate p byte_count =>
      deallocate Alignment p byte_count ;; ret None
  | op_reset => reset ;; ret None
  end.

(** The calls one after the other, up to the first that does not
    return. *)
Fixpoint run_ops (ops : list op) : M arena_interf (list (option Z)) :=
  match ops with
  | [] => ret []
  | o :: rest => r ← run_op o; rs ← run_ops rest; ret (r :: rs)
  end.

(** A run of allocations only: byte counts with the answers of
    [posix_memalign]. *)
Fixpoint allocate_all (calls : list (Z * option Z)) : M arena_interf (list Z) :=
  match calls with
  | [] => ret []
  | c :: rest =>
      p ← allocate Alignment (fst c) (snd c);
      ps ← allocate_all rest;
      ret (p :: ps)
  end.

(** The sum of the byte counts as [aligned_size] rounds them. *)
Definition sum_aligned (calls : list (Z * option Z)) : Z :=
  fold_right (fun c acc => aligned_size Alignment (fst c) + acc) 0 calls.

(** The sum of the byte counts rounded up to the alignment. *)
Definition sum_rounded (calls : list (Z * option Z)) : Z :=
  fold_right (fun c acc => round_up Alignment (fst c) + acc) 0 calls.
End calls.

(** The pointers passed to [free], in the order of the calls. *)
Definition freed (l : list event) : list Z :=
  flat_map (fun ev => match ev with free p => [p] | _ => [] end) l.

(** ** The arena objects and the references to them *)

(** The arena objects that exist, by address.  An allocator holds the
    address of an arena ([arena_interf &m_arena], line 346), never a copy
    of it. *)
Abbreviation arenas := (gmap Z arena_interf).

(** A member function called through a reference to the arena at
    address [ref]; a reference to an object that does not exist has
    undefined behaviour. *)
Definition at_arena {A} (ref : Z) (m : M arena_interf A) : M arenas A :=
  fun (σ : arenas) l =>
    match σ !! ref with
    | Some a => let r := m a l in Run (result r) (<[ref := state r]> σ) (log r)
    | None => Run Undefined σ l
    end.

(** The construction of an arena object at address [ref]: the object
    exists once its constructor has returned. *)
Definition construct_at (ref : Z) (ctor : M arena_interf unit) : M arenas unit :=
  fun (σ : arenas) l =>
    let r := ctor arena_default l in
    match result r with
    | Ok _ => Run (Ok tt) (<[ref := state r]> σ) (log r)
    | Throw e => Run (Throw e) σ (log r)
    | Terminated e => Run (Terminated e) σ (log r)
    | Undefined => Run Undefined σ (log r)
    end.

(** The end of the storage of the object at address [ref]. *)
Definition vanish (ref : Z) : M arenas unit :=
  fun (σ : arenas) l => Run (Ok tt) (delete ref σ) l.

(** The destruction of the arena object at address [ref]. *)
Definition destroy_at (ref : Z) (dtor : M arena_interf unit) : M arenas unit :=
  noexcept (at_arena ref dtor ;; vanish ref).

(** Runs [cleanup] when an exception leaves [m], then lets the exception
    go on: the destruction of the members already constructed. *)
Definition unwind {S A} (m : M S A) (cleanup : M S unit) : M S A := fun s l =>
  let r := m s l in
  match result r with
  | Throw e =>
      let r' := noexcept cleanup (state r) (log r) in
      match result r' with
      | Ok _ => Run (Throw e) (state r') (log r')
      | Throw e' | Terminated e' => Run (Terminated e') (state r') (log r')
      | Undefined => Run Undefined (state r') (log r')
      end
  | _ => r
  end.

(** A value type, as far as an allocator looks at it. *)
Record ctype : Type := { sizeof : Z; alignof : Z }.

(** [scoped_alloc::allocator<T, Alignment>], line 333. *)
Module allocator.
Record t : Type := mk {
  value_type : ctype;
  Alignment : Z;
  m_arena : Z;
}.

Section methods.
Context `{Platform}.

(** [allocator(arena_interf<Alignment> &)], line 353. *)
Definition of_arena (T : ctype) (A : Z) (arena_ref : Z) : t := mk T A arena_ref.

(** [allocator(const allocator<U, Alignment> &)], line 358, which is
    also what [rebind] leads to: the element type changes, the arena
    referred to does not. *)
Definition of_allocator (T : ctype) (alloc_ref : t) : t :=
  mk T (Alignment alloc_ref) (m_arena alloc_ref).

(** [allocate], line 363. *)
Definition allocate (h : t) (n : Z) (answer : option Z) : M arenas Z :=
  at_arena (m_arena h)
    (allocate (Alignment h) (size_mul n (sizeof (value_type h))) answer).

(** [deallocate], line 368. *)
Definition deallocate (h : t) (p n : Z) : M arenas unit :=
  noexcept (at_arena (m_arena h)
    (deallocate (Alignment h) p (size_mul n (sizeof (value_type h))))).

(** [operator ==], line 374.  [&m_arena] is the address of the arena
    referred to.  (When the two alignments differ the two arena types
    differ, and C++ rejects the comparison of their addresses.) *)
Definition eqb (h parm : t) : bool :=
  (Alignment h =? Alignment parm) && (m_arena h =? m_arena parm).

(** [operator !=], line 379. *)
Definition neqb (h parm : t) : bool := negb (eqb h parm).

(** The [static_assert] of line 163 at the call of line 365. *)
Definition instantiates (h : t) : bool :=
  allocate_instantiates (Alignment h) (alignof (value_type h)).
End methods.
End allocator.

(** ** [std::vector] *)

(** Modelled from the spec: [std::vector], the generic dynamic sequence
    that section 1 of the specification leaves out of the repository and
    that [svobuf] instantiates with the allocator above.  Only what
    [svobuf] relies on is kept, as the C++ standard words it: [reserve(n)]
    throws [std::length_error] above [max_size()], obtains storage for [n]
    elements from the allocator when the capacity is less than [n] and
    gives the old storage back; [push_back] does not touch the allocator
    while the size is less than the capacity, and otherwise moves to a
    larger storage (doubling, as libstdc++ does).  The elements themselves
    are not represented. *)
Module std_vector.
Record t : Type := mk {
  get_allocator : allocator.t;
  data : Z;
  size : Z;
  capacity : Z;
}.

Section methods.
Context `{Platform}.

Definition PTRDIFF_MAX : Z := 2 ^ (size_bits - 1) - 1.

(** [vector(const allocator_type &)]: empty, no storage. *)
Definition empty (al : allocator.t) : t := mk al nullptr 0 0.

Definition max_size (v : t) : Z :=
  Z.min (PTRDIFF_MAX / sizeof (allocator.value_type (get_allocator v)))
        (SIZE_MAX / sizeof (allocator.value_type (get_allocator v))).

(** Gives the storage back to the allocator, if there is one. *)
Definition release (v : t) : M arenas unit :=
  if negb (data v =? nullptr)
  then allocator.deallocate (get_allocator v) (data v) (capacity v)
  else ret tt.

Definition reserve (n : Z) (answer : option Z) (v : t) : M arenas t :=
  if n >? max_size v then throw length_error
  else if capacity v <? n then
    p ← allocator.allocate (get_allocator v) n answer;
    release v ;;
    ret (mk (get_allocator v) p (size v) n)
  else ret v.

Definition push_back (answer : option Z) (v : t) : M arenas t :=
  if size v <? capacity v
  then ret (mk (get_allocator v) (data v) (size v + 1) (capacity v))
  else if size v =? max_size v then throw length_error
  else
    let len := Z.min (size v + Z.max (size v) 1) (max_size v) in
    p ← allocator.allocate (get_allocator v) len answer;
    release v ;;
    ret (mk (get_allocator v) p (size v + 1) len).

(** [~vector]. *)
Definition dtor (v : t) : M arenas unit := release v.

(** Insertions one after the other, each with the answer
    [posix_memalign] gives if the insertion reaches it. *)
Fixpoint push_back_all (answers : list (option Z)) (v : t) : M arenas t :=
  match answers with
  | [] => ret v
  | answer :: rest => v' ← push_back answer v; push_back_all rest v'
  end.
End methods.
End std_vector.

(** ** [svobuf] *)

(** [svobuf<T, N>], line 386. *)
Module svobuf.
Record t : Type := mk {
  m_arena : Z;
  c : std_vector.t;
}.

Section methods.
Context `{Platform}.

(** [svobuf::svobuf], line 395.  [this_arena] is the address of the
    member [m_arena], a [fixed_arena<N * sizeof(T), alignof(T)>], and
    [m_storage] the address of its array.  The members are constructed
    in the order of their declaration, and destroyed in the reverse
    order when the body throws. *)
Definition ctor (T : ctype) (N : Z) (this_arena m_storage : Z)
    (answer : option Z) : M arenas t :=
  construct_at this_arena (fixed_arena (size_mul N (sizeof T)) m_storage) ;;
  let c0 := std_vector.empty (allocator.of_arena T (alignof T) this_arena) in
  c1 ← unwind (std_vector.reserve N answer c0)
               (destroy_at this_arena arena_interf_dtor);
  if std_vector.capacity c1 >? N
  then
    unwind (throw allocate_initial_buffer_dynamically)
           (std_vector.dtor c1 ;; destroy_at this_arena arena_interf_dtor)
  else ret (mk this_arena c1).

(** [svocap], line 434. *)
Definition svocap (N : Z) : Z := N.
End methods.
End svobuf.

(** The arena of an [svobuf<T, N>] all of whose storage is handed out. *)
Definition svobuf_arena (T : ctype) (N m_storage : Z) : arena_interf :=
  {| m_buf := m_storage; m_size := N * sizeof T; m_cursor := m_storage + N * sizeof T |}.

(** The empty vector of capacity [N] on the storage of the [svobuf]. *)
Definition svobuf_vector (T : ctype) (N this_arena m_storage : Z) : std_vector.t :=
  std_vector.mk (allocator.of_arena T (alignof T) this_arena) m_storage 0 N.

(** ** Runs used to state properties of whole lifetimes *)

(** The pointers [posix_memalign] handed out, in the order of the calls. *)
Definition allocated (l : list event) : list Z :=
  flat_map (fun ev => match ev with
                      | posix_memalign _ _ (Some p) => [p]
                      | _ => []
                      end) l.

(** The blocks [p, p + byte_count) of a run of allocations lie one after
    the other between [lo] and [hi]. *)
Fixpoint consecutive_blocks (lo : Z) (calls : list (Z * option Z)) (ps : list Z)
    (hi : Z) : Prop :=
  match calls, ps with
  | [], [] => lo <= hi
  | c :: calls', p :: ps' => lo <= p /\ consecutive_blocks (p + fst c) calls' ps' hi
  | _, _ => False
  end.

Section lifetimes.
Context `{Platform}.
Variable Alignment : Z.

(** Calls of [dynamic_arena::alloc] one after the other, each with its
    byte count and the answer of [posix_memalign]. *)
Fixpoint alloc_all (calls : list (Z * option Z)) : M arena_interf unit :=
  match calls with
  | [] => ret tt
  | c :: rest => alloc Alignment (fst c) (snd c) ;; alloc_all rest
  end.

(** The life of a [dynamic_arena]: constructed with [byte_count],
    reallocated by [calls], destroyed. *)
Definition dynamic_arena_life (byte_count : Z) (answer : option Z)
    (calls : list (Z * option Z)) : M arena_interf unit :=
  dynamic_arena Alignment byte_count answer ;;
  alloc_all calls ;;
  dynamic_arena_dtor.

(** Each non-zero request is answered with a block that is not null. *)
Definition answered (calls : list (Z * option Z)) : Prop :=
  Forall (fun c => fst c <> 0 /\ exists p, snd c = Some p /\ p <> nullptr) calls.
End lifetimes.

(** The blocks that the answers of a run of requests hand out. *)
Definition blocks_of (calls : list (Z * option Z)) : list Z :=
  flat_map (fun c => match snd c with Some p => [p] | None => [] end) calls.

(** The buffer an arena holds, if it holds one ([has_buf], line 94). *)
Definition held (a : arena_interf) : list Z :=
  if negb (m_buf a =? nullptr) && negb (m_size a =? 0) then [m_buf a] else [].

(** A call that returns or ends in the exception of line 228. *)
Definition returns_or_lacks_memory {A} (Alignment : Z) (o : outcome A) : Prop :=
  (exists x, o = Ok x) \/ (exists n, o = Throw (posix_memalign_failed Alignment n)).

(** ** The specification of a run of allocations *)

(** The bytes of the buffer that a run of requests takes when [free]
    bytes of it remain, as the specification words it: a request takes
    its byte count rounded up to the alignment when that fits what
    remains of the buffer, and nothing otherwise. *)
Fixpoint bytes_from_buffer (Alignment free : Z) (calls : list (Z * option Z)) : Z :=
  match calls with
  | [] => 0
  | c :: rest =>
      let need := round_up Alignment (fst c) in
      if need <=? free
      then need + bytes_from_buffer Alignment (free - need) rest
      else bytes_from_buffer Alignment free rest
  end.

(** The calls of [posix_memalign] that the same run makes: one for each
    request that does not fit, with the byte count as asked and the
    alignment of the arena. *)
Fixpoint fallback_calls (Alignment free : Z) (calls : list (Z * option Z)) : list event :=
  match calls with
  | [] => []
  | c :: rest =>
      let need := round_up Alignment (fst c) in
      if need <=? free
      then fallback_calls Alignment (free - need) rest
      else posix_memalign Alignment (fst c) (snd c)
             :: fallback_calls Alignment free rest
  end.

(** ** Calls into the C library that are defined *)

Fixpoint remove_first (p : Z) (ps : list Z) : list Z :=
  match ps with
  | [] => []
  | q :: rest => if q =? p then rest else q :: remove_first p rest
  end.

(** The blocks of [posix_memalign] not yet given to [free]. *)
Definition after_event (live : list Z) (ev : event) : list Z :=
  match ev with
  | posix_memalign _ _ (Some p) => p :: live
  | posix_memalign _ _ None => live
  | free p => remove_first p live
  end.

Definition outstanding (l : list event) : list Z := fold_left after_event l [].

(** Every call of [free] in the log is given a block of [posix_memalign]
    that has not been freed since: only then is the call defined. *)
Fixpoint frees_defined_from (live : list Z) (l : list event) : Prop :=
  match l with
  | [] => True
  | ev :: rest =>
      match ev with free p => In p live | _ => True end
      /\ frees_defined_from (after_event live ev) rest
  end.

Definition frees_defined (l : list event) : Prop := frees_defined_from [] l.

(** Every call of [posix_memalign] in the log was answered as POSIX
    requires for the arguments of that very call. *)
Definition answers_conform `{Platform} (live : list (Z * Z)) (l : list event) : Prop :=
  Forall (fun ev => match ev with
                    | posix_memalign alignment size answer =>
                        posix_memalign_conforms live alignment size answer = true
                    | free _ => True
                    end) l.

(** Every call of [posix_memalign] in the log asks for this alignment. *)
Definition asks_alignment (Alignment : Z) (l : list event) : Prop :=
  Forall (fun ev => match ev with
                    | posix_memalign alignment _ _ => alignment = Alignment
                    | free _ => True
                    end) l.

(* ================================================================= *)
(** * Properties *)

(** ** Facts on [size_t] arithmetic *)

Section SizeTFacts.
Context `{Platform}.

Lemma size_modulus_pos : 0 < size_modulus.
Proof. unfold size_modulus. pose proof size_bits_pos. apply Z.pow_pos_nonneg; lia. Qed.

Lemma size_modulus_ge_2 : 2 <= size_modulus.
Proof.
  unfold size_modulus. pose proof size_bits_pos as Hw.
  replace size_bits with (Z.succ (size_bits - 1)) by lia.
  rewrite Z.pow_succ_r by lia.
  assert (0 < 2 ^ (size_bits - 1)) by (apply Z.pow_pos_nonneg; lia). lia.
Qed.

(** The modulus is a power of two: above [2^k] it is at least [2^(k+1)]. *)
Lemma size_modulus_next_pow2 k :
  0 <= k -> 2 ^ k < size_modulus -> 2 ^ (k + 1) <= size_modulus.
Proof.
  intros Hk Hlt. unfold size_modulus in *. pose proof size_bits_pos.
  apply Z.pow_lt_mono_r_iff in Hlt; [| lia | lia].
  apply Z.pow_le_mono_r; lia.
Qed.

Lemma to_size_t_range z : is_size_t (to_size_t z).
Proof. unfold is_size_t, to_size_t. apply Z.mod_pos_bound, size_modulus_pos. Qed.

Lemma to_size_t_small z : is_size_t z -> to_size_t z = z.
Proof. unfold is_size_t, to_size_t. intros. apply Z.mod_small; lia. Qed.

Lemma to_size_t_ones z : to_size_t z = Z.land z (Z.ones size_bits).
Proof.
  unfold to_size_t, size_modulus. pose proof size_bits_pos.
  rewrite Z.land_ones by lia. reflexivity.
Qed.

(** The test [n & (n - 1) == 0] singles out the powers of two. *)
Lemma is_power2_pow2 n :
  is_size_t n -> is_power2 n = true ->
  exists k, 0 <= k < size_bits /\ n = 2 ^ k.
Proof.
  unfold is_power2, size_and, size_sub, is_size_t. intros Hn Hp.
  apply andb_true_iff in Hp as [Hpos Hland].
  apply Z.ltb_lt in Hpos. apply Z.eqb_eq in Hland.
  rewrite to_size_t_small in Hland by (unfold is_size_t; lia).
  set (k := Z.log2 n).
  assert (Hk : 0 <= k) by apply Z.log2_nonneg.
  destruct (Z.log2_spec n Hpos) as [Hlo Hhi]. fold k in Hlo, Hhi.
  assert (Hkw : k < size_bits).
  { apply (Z.pow_lt_mono_r_iff 2); [lia | pose proof size_bits_pos; lia |].
    fold size_modulus. lia. }
  exists k. split; [lia |].
  destruct (Z.eq_dec n (2 ^ k)) as [|Hne]; [assumption | exfalso].
  assert (Hlog : Z.log2 (n - 1) = k).
  { apply Z.log2_unique; [lia |]. rewrite Z.pow_succ_r in * by lia. lia. }
  assert (Hb1 : Z.testbit n k = true) by (apply Z.bit_log2; lia).
  assert (Hb2 : Z.testbit (n - 1) k = true).
  { rewrite <- Hlog. apply Z.bit_log2.
    assert (0 < 2 ^ k) by (apply Z.pow_pos_nonneg; lia). lia. }
  assert (Hb : Z.testbit (Z.land n (n - 1)) k = true).
  { rewrite Z.land_spec, Hb1, Hb2. reflexivity. }
  rewrite Hland, Z.bits_0 in Hb. discriminate.
Qed.

Lemma pow2_is_power2 k : 0 <= k < size_bits -> is_power2 (2 ^ k) = true.
Proof.
  intros Hk. unfold is_power2, size_and, size_sub.
  assert (Hpos : 0 < 2 ^ k) by (apply Z.pow_pos_nonneg; lia).
  assert (Hlt : 2 ^ k < size_modulus).
  { unfold size_modulus. apply Z.pow_lt_mono_r; lia. }
  apply andb_true_iff. split; [apply Z.ltb_lt; lia |].
  apply Z.eqb_eq. rewrite to_size_t_small by (unfold is_size_t; lia).
  replace (2 ^ k - 1) with (Z.ones k) by (rewrite Z.ones_equiv; lia).
  rewrite Z.land_ones by lia. apply Z.mod_same. lia.
Qed.
End SizeTFacts.

(** ** Facts on alignments and on [aligned_size] *)

Section AlignmentFacts.
Context `{Platform}.

Lemma valid_alignment_pow2 A :
  valid_alignment A -> exists k, 0 <= k < size_bits /\ A = 2 ^ k.
Proof.
  intros [HA Hc]. unfold check_alignment in Hc.
  destruct (is_power2 A) eqn:Hp; [| discriminate].
  apply is_power2_pow2; assumption.
Qed.

Lemma valid_alignment_pos A : valid_alignment A -> 0 < A.
Proof.
  intros (k & Hk & ->)%valid_alignment_pow2. apply Z.pow_pos_nonneg; lia.
Qed.

Lemma alignment_divides_modulus A : valid_alignment A -> (A | size_modulus).
Proof.
  intros (k & Hk & ->)%valid_alignment_pow2. unfold size_modulus.
  exists (2 ^ (size_bits - k)). rewrite <- Z.pow_add_r by lia.
  f_equal. lia.
Qed.

(** Reducing modulo [2^size_bits] keeps the residue modulo the alignment. *)
Lemma to_size_t_mod_alignment A z :
  valid_alignment A -> to_size_t z mod A = z mod A.
Proof.
  intros HA. unfold to_size_t.
  apply Z.mod_mod_divide, alignment_divides_modulus, HA.
Qed.

(** The mask [~(Alignment - 1)] clears the low [log2 Alignment] bits. *)
Lemma aligned_size_floor A byte_count :
  valid_alignment A ->
  aligned_size A byte_count = to_size_t (byte_count + (A - 1)) / A * A.
Proof.
  intros HA. pose proof (valid_alignment_pos _ HA) as Hpos.
  destruct HA as [HsA Hc].
  destruct (valid_alignment_pow2 A (conj HsA Hc)) as (k & Hk & HAk).
  unfold aligned_size, size_and, size_add, size_not, size_sub.
  rewrite (to_size_t_small (A - 1)) by (unfold is_size_t in *; lia).
  set (x := to_size_t (byte_count + (A - 1))).
  assert (Hx : is_size_t x) by apply to_size_t_range.
  rewrite (to_size_t_ones (Z.lnot _)).
  rewrite (Z.land_comm (Z.lnot _)), Z.land_assoc.
  rewrite <- to_size_t_ones, (to_size_t_small x Hx).
  rewrite <- Z.ldiff_land.
  replace (A - 1) with (Z.ones k) by (rewrite Z.ones_equiv; lia).
  rewrite Z.ldiff_ones_r, Z.shiftr_div_pow2, Z.shiftl_mul_pow2 by lia.
  rewrite <- HAk. reflexivity.
Qed.

Lemma aligned_size_divide A byte_count :
  valid_alignment A -> (A | aligned_size A byte_count).
Proof. intros HA. rewrite aligned_size_floor by assumption. apply Z.divide_factor_r. Qed.

Lemma aligned_size_range A byte_count :
  valid_alignment A -> is_size_t (aligned_size A byte_count).
Proof.
  intros HA. rewrite aligned_size_floor by assumption.
  pose proof (valid_alignment_pos _ HA) as Hpos.
  pose proof (to_size_t_range (byte_count + (A - 1))) as Hx.
  set (x := to_size_t _) in *. unfold is_size_t in *.
  pose proof (Z.div_mod x A ltac:(lia)). pose proof (Z.mod_pos_bound x A Hpos).
  assert (0 <= x / A) by (apply Z.div_pos; lia). nia.
Qed.

Lemma round_up_least a n : 0 < a -> least_multiple_ge a n (round_up a n).
Proof.
  intros Ha. unfold least_multiple_ge, round_up.
  pose proof (Z.div_mod (n + a - 1) a ltac:(lia)) as Hdm.
  pose proof (Z.mod_pos_bound (n + a - 1) a Ha) as Hb.
  set (d := (n + a - 1) / a) in *. rewrite (Z.mul_comm a d) in Hdm.
  split; [apply Z.divide_factor_r |]. split; [lia |].
  intros m [q ->] Hm.
  assert (d <= q); [| nia].
  destruct (Z_le_gt_dec d q) as [|Hgt]; [assumption | exfalso].
  assert (q * a + a <= d * a) by nia. lia.
Qed.

Lemma least_multiple_ge_unique a n r r' :
  least_multiple_ge a n r -> least_multiple_ge a n r' -> r = r'.
Proof.
  intros (Hd & Hge & Hl) (Hd' & Hge' & Hl').
  specialize (Hl r' Hd' Hge'). specialize (Hl' r Hd Hge). lia.
Qed.

(** Below the wrap-around threshold [aligned_size] is the rounding. *)
Lemma aligned_size_no_wrap A byte_count :
  valid_alignment A -> 0 <= byte_count <= SIZE_MAX - (A - 1) ->
  aligned_size A byte_count = round_up A byte_count.
Proof.
  intros HA Hb. rewrite aligned_size_floor by assumption.
  pose proof (valid_alignment_pos _ HA). unfold round_up, SIZE_MAX in *.
  rewrite to_size_t_small by (unfold is_size_t; lia).
  f_equal. f_equal. lia.
Qed.

(** Above it the sum wraps to less than [Alignment - 1] and the mask
    leaves nothing. *)
Lemma aligned_size_wrap A byte_count :
  valid_alignment A -> is_size_t byte_count ->
  SIZE_MAX - (A - 1) < byte_count ->
  aligned_size A byte_count = 0.
Proof.
  intros HA Hb Hgt. rewrite aligned_size_floor by assumption.
  pose proof (valid_alignment_pos _ HA). destruct HA as [HsA _].
  unfold SIZE_MAX, is_size_t, to_size_t in *.
  replace (byte_count + (A - 1))
    with (byte_count + (A - 1) - size_modulus + 1 * size_modulus) by lia.
  rewrite Z.mod_add by lia. rewrite Z.mod_small by lia.
  rewrite Z.div_small by lia. reflexivity.
Qed.

Lemma aligned_size_0 A : valid_alignment A -> aligned_size A 0 = 0.
Proof.
  intros HA. pose proof (valid_alignment_pos _ HA). destruct HA as [HsA Hc].
  destruct (Z.eq_dec A size_modulus); [unfold is_size_t in *; lia |].
  rewrite aligned_size_no_wrap; [| split; assumption | unfold SIZE_MAX, is_size_t in *; lia].
  unfold round_up. rewrite Z.div_small by lia. reflexivity.
Qed.
End AlignmentFacts.

(** ** Running the monad *)

Lemma bind_Ok {S A B} (m : M S A) (k : A -> M S B) s l a s' l' :
  m s l = Run (Ok a) s' l' -> (m ≫= k) s l = k a s' l'.
Proof. intros Hm. unfold mbind, M_bind, bind. rewrite Hm. reflexivity. Qed.

Lemma bind_Throw {S A B} (m : M S A) (k : A -> M S B) s l e s' l' :
  m s l = Run (Throw e) s' l' -> (m ≫= k) s l = Run (Throw e) s' l'.
Proof. intros Hm. unfold mbind, M_bind, bind. rewrite Hm. reflexivity. Qed.

Lemma noexcept_never_throws {S A} (m : M S A) s l e :
  result (noexcept m s l) <> Throw e.
Proof. unfold noexcept. destruct (result (m s l)) eqn:Hr; simpl; congruence. Qed.

(** ** One call on an arena in a good state *)

Section arena_facts.
Context `{Platform}.
Variable Alignment : Z.
Hypothesis Alignment_ok : valid_alignment Alignment.

(** [get_buf_ex] and [detect_outlive] on any arena. *)
Lemma get_buf_ex_run a l :
  get_buf_ex a l =
    if negb (m_buf a =? nullptr) && negb (m_size a =? 0)
    then Run (Ok (aligned_buf.mk (m_buf a) (m_size a))) a l
    else Run (Throw no_valid_buffer) a l.
Proof.
  unfold get_buf_ex, has_buf, get_buf, mbind, M_bind, bind, get, ret, throw.
  cbn [result state log].
  destruct (negb (m_buf a =? nullptr) && negb (m_size a =? 0)); reflexivity.
Qed.

Lemma detect_outlive_run a l :
  detect_outlive a l =
    if negb (m_buf a =? nullptr) && negb (m_size a =? 0)
    then
      if (m_buf a <=? m_cursor a) && (m_cursor a <=? ptr_add (m_buf a) (m_size a))
      then Run (Ok tt) a l
      else Run (Throw allocator_outlived) a l
    else Run (Throw no_valid_buffer) a l.
Proof.
  unfold detect_outlive, in_buf.
  rewrite (bind_Ok _ _ a l a a l) by reflexivity.
  pose proof (get_buf_ex_run a l) as Hg.
  destruct (negb (m_buf a =? nullptr) && negb (m_size a =? 0)).
  - rewrite (bind_Ok _ _ _ _ _ _ _ (bind_Ok _ _ _ _ _ _ _ Hg)).
    cbn [aligned_buf.buf aligned_buf.size].
    destruct ((m_buf a <=? m_cursor a)
              && (m_cursor a <=? ptr_add (m_buf a) (m_size a))); reflexivity.
  - rewrite (bind_Throw _ _ _ _ _ _ _ (bind_Throw _ _ _ _ _ _ _ Hg)). reflexivity.
Qed.

Lemma has_buf_ok a l : arena_ok a -> has_buf a l = Run (Ok true) a l.
Proof.
  intros (Hb & Hs & _). unfold has_buf, nullptr, mbind, M_bind, bind, get, ret. cbn.
  destruct (Z.eqb_spec (m_buf a) 0); [lia |].
  destruct (Z.eqb_spec (m_size a) 0); [lia |]. reflexivity.
Qed.

Lemma get_buf_ex_ok a l :
  arena_ok a -> get_buf_ex a l = Run (Ok (aligned_buf.mk (m_buf a) (m_size a))) a l.
Proof.
  intros Ha. unfold get_buf_ex. rewrite (bind_Ok _ _ _ _ _ _ _ (has_buf_ok a l Ha)).
  reflexivity.
Qed.

Lemma buf_end_ok a : arena_ok a -> ptr_add (m_buf a) (m_size a) = m_buf a + m_size a.
Proof.
  intros (Hb & Hs & He & _). apply to_size_t_small. unfold is_size_t. lia.
Qed.

Lemma in_buf_ok a l p :
  arena_ok a ->
  in_buf p a l = Run (Ok ((m_buf a <=? p) && (p <=? m_buf a + m_size a))) a l.
Proof.
  intros Ha. unfold in_buf. rewrite (bind_Ok _ _ _ _ _ _ _ (get_buf_ex_ok a l Ha)).
  cbn. rewrite buf_end_ok by assumption. reflexivity.
Qed.

Lemma detect_outlive_ok a l : arena_ok a -> detect_outlive a l = Run (Ok tt) a l.
Proof.
  intros Ha. unfold detect_outlive.
  rewrite (bind_Ok _ _ a l a a l) by reflexivity.
  rewrite (bind_Ok _ _ _ _ _ _ _ (in_buf_ok a l _ Ha)).
  destruct Ha as (_ & _ & _ & Hc).
  destruct (Z.leb_spec (m_buf a) (m_cursor a)); [| lia].
  destruct (Z.leb_spec (m_cursor a) (m_buf a + m_size a)); [| lia].
  reflexivity.
Qed.

Lemma used_ok a l :
  arena_ok a -> used a l = Run (Ok (m_cursor a - m_buf a)) a l.
Proof.
  intros Ha. unfold used. rewrite (bind_Ok _ _ _ _ _ _ _ (get_buf_ex_ok a l Ha)).
  rewrite (bind_Ok _ _ a l a a l) by reflexivity.
  cbn [aligned_buf.buf]. unfold ptr_diff. rewrite to_size_t_small; [reflexivity |].
  destruct Ha as (? & ? & ? & ?). unfold is_size_t. lia.
Qed.

(** What [allocate] does on an arena in a good state. *)
Lemma allocate_ok a l byte_count answer :
  arena_ok a ->
  allocate Alignment byte_count answer a l =
    if byte_count =? 0 then Run (Ok nullptr) a l
    else if aligned_size Alignment byte_count <=? remaining a
    then Run (Ok (m_cursor a))
             (with_cursor a (m_cursor a + aligned_size Alignment byte_count)) l
    else
      let l' := l ++ [posix_memalign Alignment byte_count answer] in
      match answer with
      | Some p => Run (Ok p) a l'
      | None => Run (Throw (posix_memalign_failed Alignment byte_count)) a l'
      end.
Proof.
  intros Ha. unfold allocate.
  rewrite (bind_Ok _ _ _ _ _ _ _ (detect_outlive_ok a l Ha)).
  destruct (byte_count =? 0); [reflexivity |].
  rewrite (bind_Ok _ _ _ _ _ _ _ (get_buf_ex_ok a l Ha)).
  rewrite (bind_Ok _ _ a l a a l) by reflexivity.
  cbn [aligned_buf.buf aligned_buf.size].
  rewrite buf_end_ok by assumption.
  pose proof (aligned_size_range Alignment byte_count Alignment_ok) as Hal.
  assert (Hrem : ptr_diff (m_buf a + m_size a) (m_cursor a) = remaining a).
  { unfold ptr_diff, remaining. apply to_size_t_small.
    destruct Ha as (? & ? & ? & ?). unfold is_size_t. lia. }
  rewrite Hrem, Z.geb_leb.
  destruct (Z.leb_spec (aligned_size Alignment byte_count) (remaining a)) as [Hfit|Hno].
  - unfold with_cursor, ptr_add. rewrite to_size_t_small; [reflexivity |].
    destruct Ha as (? & ? & ? & ?). unfold is_size_t, remaining in *. lia.
  - unfold dynamic_alloc, alloc_aligned, overalign_alloc.
    destruct answer; reflexivity.
Qed.

(** What [deallocate] does on an arena in a good state. *)
Lemma deallocate_ok a l p byte_count :
  arena_ok a ->
  deallocate Alignment p byte_count a l =
    if (m_buf a <=? p) && (p <=? m_buf a + m_size a)
    then
      if ptr_add p (aligned_size Alignment byte_count) =? m_cursor a
      then Run (Ok tt) (with_cursor a p) l
      else Run (Ok tt) a l
    else if p =? nullptr then Run (Ok tt) a l
    else Run (Ok tt) a (l ++ [free p]).
Proof.
  intros Ha. unfold deallocate, noexcept.
  rewrite (bind_Ok _ _ _ _ _ _ _ (detect_outlive_ok a l Ha)).
  rewrite (bind_Ok _ _ _ _ _ _ _ (in_buf_ok a l p Ha)).
  destruct ((m_buf a <=? p) && (p <=? m_buf a + m_size a)).
  - rewrite (bind_Ok _ _ a l a a l) by reflexivity.
    destruct (ptr_add p (aligned_size Alignment byte_count) =? m_cursor a);
      reflexivity.
  - unfold free_aligned, overalign_free.
    destruct (p =? nullptr); reflexivity.
Qed.

Lemma reset_ok a l :
  arena_ok a -> reset a l = Run (Ok tt) (with_cursor a (m_buf a)) l.
Proof.
  intros Ha. unfold reset. rewrite (bind_Ok _ _ _ _ _ _ _ (get_buf_ex_ok a l Ha)).
  reflexivity.
Qed.

(** [set_buf] on a buffer that is an object puts the arena in a good
    state, whatever it was before. *)
Lemma set_buf_ok a l b :
  0 < aligned_buf.buf b -> 0 < aligned_buf.size b ->
  aligned_buf.buf b + aligned_buf.size b < size_modulus ->
  set_buf b a l =
    Run (Ok tt) {| m_buf := aligned_buf.buf b; m_size := aligned_buf.size b;
                   m_cursor := aligned_buf.buf b |} l
  /\ arena_ok (state (set_buf b a l)).
Proof.
  intros Hb Hs He. unfold set_buf, nullptr.
  destruct (Z.eqb_spec (aligned_buf.buf b) 0); [lia |].
  destruct (Z.eqb_spec (aligned_buf.size b) 0); [lia |].
  split; [reflexivity |]. unfold arena_ok. cbn. lia.
Qed.
End arena_facts.

(** ** The invariants of an arena *)

(** Turns the boolean tests of the model into facts on integers. *)
Ltac bool_facts :=
  repeat match goal with
  | H : (_ && _) = true |- _ => apply andb_true_iff in H; destruct H
  | H : (_ || _) = false |- _ => apply orb_false_iff in H; destruct H
  | H : negb _ = true |- _ => apply negb_true_iff in H
  | H : negb _ = false |- _ => apply negb_false_iff in H
  | H : (_ <=? _) = true |- _ => apply Z.leb_le in H
  | H : (_ <=? _) = false |- _ => apply Z.leb_gt in H
  | H : (_ <? _) = true |- _ => apply Z.ltb_lt in H
  | H : (_ <? _) = false |- _ => apply Z.ltb_ge in H
  | H : (_ =? _) = true |- _ => apply Z.eqb_eq in H
  | H : (_ =? _) = false |- _ => apply Z.eqb_neq in H
  end.

Ltac case_if :=
  match goal with
  | |- context [if ?b then _ else _] => destruct b eqn:?
  end.

Section arena_invariants.
Context `{Platform}.
Variable Alignment : Z.
Hypothesis Alignment_ok : valid_alignment Alignment.

Lemma aligned_size_nonneg byte_count : 0 <= aligned_size Alignment byte_count.
Proof. apply (aligned_size_range Alignment byte_count Alignment_ok). Qed.

Lemma allocate_preserves a l byte_count answer :
  arena_ok a ->
  let r := allocate Alignment byte_count answer a l in
  arena_ok (state r) /\ m_buf (state r) = m_buf a /\ m_size (state r) = m_size a /\
  m_cursor a <= m_cursor (state r).
Proof.
  intros Ha r. subst r. rewrite (allocate_ok Alignment Alignment_ok) by assumption.
  pose proof (aligned_size_nonneg byte_count).
  unfold arena_ok, remaining in *.
  repeat case_if; bool_facts; cbn; try lia; destruct answer; cbn; lia.
Qed.

Lemma deallocate_preserves a l p byte_count :
  arena_ok a ->
  let r := deallocate Alignment p byte_count a l in
  arena_ok (state r) /\ m_buf (state r) = m_buf a /\ m_size (state r) = m_size a /\
  result r = Ok tt.
Proof.
  intros Ha r. subst r. rewrite deallocate_ok by assumption.
  unfold arena_ok in *. repeat case_if; bool_facts; cbn; repeat split; lia.
Qed.

Lemma reset_preserves a l :
  arena_ok a ->
  let r := reset a l in
  arena_ok (state r) /\ m_buf (state r) = m_buf a /\ m_size (state r) = m_size a.
Proof.
  intros Ha r. subst r. rewrite reset_ok by assumption.
  unfold arena_ok in *. cbn. lia.
Qed.

(** A pointer that [deallocate] accepts as the top of the stack is as
    aligned as the cursor is: the sum [p + aligned_size] may wrap, but
    only by a multiple of the alignment. *)
Lemma top_of_stack_aligned b c p byte_count :
  (c - b) mod Alignment = 0 ->
  ptr_add p (aligned_size Alignment byte_count) = c ->
  (p - b) mod Alignment = 0.
Proof.
  intros Hc Hp. pose proof (valid_alignment_pos _ Alignment_ok) as Hpos.
  apply Z.mod_divide in Hc; [| lia]. apply Z.mod_divide; [lia |].
  pose proof (aligned_size_divide Alignment byte_count Alignment_ok) as Hal.
  pose proof (alignment_divides_modulus _ Alignment_ok) as Hm.
  unfold ptr_add, to_size_t in Hp.
  pose proof size_modulus_pos as Hmod.
  assert (Hdm := Z.div_mod (p + aligned_size Alignment byte_count) size_modulus).
  specialize (Hdm ltac:(lia)).
  rewrite Hp in Hdm.
  replace (p - b) with
    ((c - b) - aligned_size Alignment byte_count
     + size_modulus * ((p + aligned_size Alignment byte_count) / size_modulus))
    by lia.
  apply Z.divide_add_r; [apply Z.divide_sub_r; assumption |].
  apply Z.divide_mul_l; assumption.
Qed.

Lemma allocate_keeps_aligned a l byte_count answer :
  arena_ok a -> cursor_aligned Alignment a ->
  cursor_aligned Alignment (state (allocate Alignment byte_count answer a l)).
Proof.
  intros Ha Hc. rewrite (allocate_ok Alignment Alignment_ok) by assumption.
  pose proof (valid_alignment_pos _ Alignment_ok) as Hpos.
  unfold cursor_aligned in *.
  repeat case_if; cbn; try assumption; try (destruct answer; cbn; assumption).
  apply Z.mod_divide in Hc; [| lia]. apply Z.mod_divide; [lia |].
  replace (m_cursor a + aligned_size Alignment byte_count - m_buf a)
    with ((m_cursor a - m_buf a) + aligned_size Alignment byte_count) by lia.
  apply Z.divide_add_r; [assumption |].
  apply aligned_size_divide; assumption.
Qed.

Lemma deallocate_keeps_aligned a l p byte_count :
  arena_ok a -> cursor_aligned Alignment a ->
  cursor_aligned Alignment (state (deallocate Alignment p byte_count a l)).
Proof.
  intros Ha Hc. rewrite deallocate_ok by assumption.
  unfold cursor_aligned in *.
  repeat case_if; cbn; try assumption.
  bool_facts. eapply top_of_stack_aligned; eassumption.
Qed.

Lemma reset_keeps_aligned a l :
  arena_ok a -> cursor_aligned Alignment (state (reset a l)).
Proof.
  intros Ha. rewrite reset_ok by assumption. unfold cursor_aligned. cbn.
  rewrite Z.sub_diag. apply Z.mod_0_l.
  pose proof (valid_alignment_pos _ Alignment_ok). lia.
Qed.
End arena_invariants.

(** ** Sequences of calls *)

Section call_sequences.
Context `{Platform}.
Variable Alignment : Z.
Hypothesis Alignment_ok : valid_alignment Alignment.

(** One allocation either is served from the buffer (or is of zero
    bytes) and moves the cursor by [aligned_size], or calls
    [posix_memalign] and leaves the arena as it was. *)
Lemma allocate_cases a l byte_count answer :
  arena_ok a ->
  let r := allocate Alignment byte_count answer a l in
  (log r = l /\ m_cursor (state r) = m_cursor a + aligned_size Alignment byte_count)
  \/ (log r = l ++ [posix_memalign Alignment byte_count answer] /\ state r = a).
Proof.
  intros Ha r. subst r. rewrite (allocate_ok Alignment Alignment_ok) by assumption.
  destruct (Z.eqb_spec byte_count 0) as [-> |].
  - left. cbn. rewrite aligned_size_0 by assumption. split; [reflexivity | lia].
  - case_if; [left; cbn; auto |]. right. destruct answer; cbn; auto.
Qed.

Lemma allocate_all_run calls : forall a l ps a' l',
  arena_ok a ->
  allocate_all Alignment calls a l = Run (Ok ps) a' l' ->
  arena_ok a' /\ m_buf a' = m_buf a /\ m_size a' = m_size a /\
  (exists evs, l' = l ++ evs) /\
  (l' = l -> m_cursor a' = m_cursor a + sum_aligned Alignment calls).
Proof.
  induction calls as [| [byte_count answer] rest IH]; intros a l ps a' l' Ha Hrun.
  - cbn in Hrun. injection Hrun as <- <- <-.
    split; [assumption |]. split; [reflexivity |]. split; [reflexivity |].
    split; [exists []; symmetry; apply app_nil_r | intros _; cbn; lia].
  - cbn [allocate_all fst snd] in Hrun. unfold mbind, M_bind, bind in Hrun.
    pose proof (allocate_preserves Alignment Alignment_ok a l byte_count answer Ha)
      as (Hok & Hbuf & Hsize & _).
    pose proof (allocate_cases a l byte_count answer Ha) as Hcases.
    cbn zeta in *.
    destruct (result (allocate Alignment byte_count answer a l)) as [p | e | e |];
      try discriminate.
    destruct (allocate_all Alignment rest _ _) as [res2 a2 l2] eqn:Hrest.
    cbn in Hrun. destruct res2 as [ps2 | e | e |]; try discriminate.
    cbn in Hrun. injection Hrun as <- <- <-.
    destruct (IH _ _ _ _ _ Hok Hrest) as (Hok2 & Hbuf2 & Hsize2 & [evs2 Hl2] & Hcur2).
    split; [assumption |]. split; [congruence |]. split; [congruence |].
    destruct Hcases as [[Hl1 Hc1] | [Hl1 Hs1]].
    + rewrite Hl1 in *. split; [exists evs2; assumption |].
      intros Heq. rewrite (Hcur2 Heq), Hc1.
      change (sum_aligned Alignment ((byte_count, answer) :: rest))
        with (aligned_size Alignment byte_count + sum_aligned Alignment rest).
      lia.
    + rewrite Hl1 in Hl2. split.
      * eexists. rewrite Hl2, <- app_assoc. reflexivity.
      * intros Heq. exfalso. rewrite Heq in Hl2.
        apply (f_equal (@length event)) in Hl2.
        rewrite !length_app in Hl2. cbn in Hl2. lia.
Qed.

Lemma sum_aligned_rounded calls :
  Forall (fun c => 0 <= fst c <= SIZE_MAX - (Alignment - 1)) calls ->
  sum_aligned Alignment calls = sum_rounded Alignment calls.
Proof.
  induction 1 as [| c rest Hc _ IH]; [reflexivity |].
  change (sum_aligned Alignment (c :: rest))
    with (aligned_size Alignment (fst c) + sum_aligned Alignment rest).
  change (sum_rounded Alignment (c :: rest))
    with (round_up Alignment (fst c) + sum_rounded Alignment rest).
  rewrite IH, aligned_size_no_wrap by assumption. reflexivity.
Qed.
End call_sequences.

(** ** Exact accounts of runs *)

Section exact_runs.
Context `{Platform}.
Variable Alignment : Z.
Hypothesis Alignment_ok : valid_alignment Alignment.

Lemma round_up_0 : round_up Alignment 0 = 0.
Proof.
  pose proof (valid_alignment_pos _ Alignment_ok). unfold round_up.
  rewrite Z.div_small by lia. reflexivity.
Qed.

(** A run of allocations against its specification: the cursor moves by
    the bytes the specification takes from the buffer, and the library
    is called for the requests the specification sends to the fallback. *)
Lemma allocate_all_exact calls : forall a l ps a' l',
  arena_ok a ->
  Forall (fun c => 0 <= fst c <= SIZE_MAX - (Alignment - 1)) calls ->
  allocate_all Alignment calls a l = Run (Ok ps) a' l' ->
  m_cursor a' = m_cursor a + bytes_from_buffer Alignment (remaining a) calls /\
  l' = l ++ fallback_calls Alignment (remaining a) calls.
Proof.
  induction calls as [| [byte_count answer] rest IH]; intros a l ps a' l' Ha Hcalls Hrun.
  - cbn in Hrun. injection Hrun as <- <- <-. cbn. rewrite app_nil_r. split; [lia | reflexivity].
  - inversion Hcalls as [| ? ? Hc Hrest]; subst. cbn [fst] in Hc.
    cbn [allocate_all fst snd] in Hrun. unfold mbind, M_bind, bind in Hrun.
    pose proof (allocate_preserves Alignment Alignment_ok a l byte_count answer Ha)
      as (Hok & _).
    revert Hrun Hok. rewrite (allocate_ok Alignment Alignment_ok) by assumption.
    cbn [bytes_from_buffer fallback_calls fst snd]. cbv zeta.
    assert (Hrem : 0 <= remaining a) by (unfold arena_ok, remaining in *; lia).
    destruct (Z.eqb_spec byte_count 0) as [-> | Hnz].
    + rewrite round_up_0. destruct (Z.leb_spec 0 (remaining a)); [| lia].
      cbn [result state log]. intros Hrun Hok.
      destruct (allocate_all Alignment rest a l) as [res2 a2 l2] eqn:Hrest2.
      cbn [result state log] in Hrun. destruct res2 as [ps2 | | |]; try discriminate.
      cbn in Hrun. injection Hrun as <- <- <-.
      rewrite Z.sub_0_r, Z.add_0_l. eapply IH; eassumption.
    + rewrite aligned_size_no_wrap by assumption.
      destruct (Z.leb_spec (round_up Alignment byte_count) (remaining a)) as [Hfit | Hno].
      * cbn [result state log]. intros Hrun Hok.
        destruct (allocate_all Alignment rest _ l) as [res2 a2 l2] eqn:Hrest2.
        cbn [result state log] in Hrun. destruct res2 as [ps2 | | |]; try discriminate.
        cbn in Hrun. injection Hrun as <- <- <-.
        destruct (IH _ _ _ _ _ Hok Hrest Hrest2) as [Hcur Hlog].
        replace (remaining (with_cursor a (m_cursor a + round_up Alignment byte_count)))
          with (remaining a - round_up Alignment byte_count) in Hcur, Hlog
          by (unfold remaining; cbn; lia).
        cbn [with_cursor m_cursor] in Hcur. split; [lia | assumption].
      * destruct answer as [p |]; cbn [result state log]; intros Hrun Hok;
          [| discriminate].
        destruct (allocate_all Alignment rest a _) as [res2 a2 l2] eqn:Hrest2.
        cbn [result state log] in Hrun. destruct res2 as [ps2 | | |]; try discriminate.
        cbn in Hrun. injection Hrun as <- <- <-.
        destruct (IH _ _ _ _ _ Hok Hrest Hrest2) as [Hcur Hlog].
        split; [assumption |]. rewrite Hlog, <- app_assoc. reflexivity.
Qed.

(** Without wrap-around the test of line 198 is the test on integers. *)
Lemma top_of_stack_no_wrap a p n :
  arena_ok a -> m_buf a <= p <= m_buf a + m_size a ->
  aligned_size Alignment n + m_size a < size_modulus ->
  (ptr_add p (aligned_size Alignment n) =? m_cursor a)
  = (p + aligned_size Alignment n =? m_cursor a).
Proof.
  intros Ha Hp Hsmall.
  pose proof (aligned_size_nonneg Alignment Alignment_ok n) as Hal.
  pose proof size_modulus_pos as Hmod. unfold arena_ok in Ha.
  unfold ptr_add, to_size_t.
  destruct (Z_lt_le_dec (p + aligned_size Alignment n) size_modulus).
  - rewrite Z.mod_small by lia. reflexivity.
  - replace (p + aligned_size Alignment n)
      with (p + aligned_size Alignment n - size_modulus + 1 * size_modulus) at 1 by lia.
    rewrite Z.mod_add, Z.mod_small by lia.
    destruct (Z.eqb_spec (p + aligned_size Alignment n - size_modulus) (m_cursor a));
      destruct (Z.eqb_spec (p + aligned_size Alignment n) (m_cursor a)); try reflexivity; lia.
Qed.

(** [deallocate] of a pointer of the buffer when the sum cannot wrap. *)
Lemma deallocate_in_buffer_no_wrap a l p n :
  arena_ok a -> m_buf a <= p <= m_buf a + m_size a ->
  aligned_size Alignment n + m_size a < size_modulus ->
  deallocate Alignment p n a l =
    if p + aligned_size Alignment n =? m_cursor a
    then Run (Ok tt) (with_cursor a p) l
    else Run (Ok tt) a l.
Proof.
  intros Ha Hp Hsmall. rewrite deallocate_ok by assumption.
  rewrite top_of_stack_no_wrap by assumption.
  destruct (Z.leb_spec (m_buf a) p); [| lia].
  destruct (Z.leb_spec p (m_buf a + m_size a)); [| lia]. reflexivity.
Qed.

Lemma run_op_keeps_ok a l o :
  arena_ok a ->
  let r := run_op Alignment o a l in
  arena_ok (state r) /\ m_buf (state r) = m_buf a /\ m_size (state r) = m_size a.
Proof.
  intros Ha r. subst r.
  destruct o as [byte_count answer | p byte_count |]; unfold run_op, mbind, M_bind, bind.
  - pose proof (allocate_preserves Alignment Alignment_ok a l byte_count answer Ha)
      as (Hok & Hbuf & Hsize & _).
    cbv zeta in *.
    destruct (result (allocate Alignment byte_count answer a l)); cbn [state];
      (split; [| split]); assumption.
  - pose proof (deallocate_preserves Alignment a l p byte_count Ha)
      as (Hok & Hbuf & Hsize & Hres).
    cbv zeta in *. rewrite Hres. cbn [state]. (split; [| split]); assumption.
  - pose proof (reset_preserves a l Ha) as (Hok & Hbuf & Hsize).
    cbv zeta in *. rewrite reset_ok in * by assumption. cbn [state result] in *.
    (split; [| split]); assumption.
Qed.

(** What one call of a client adds to the log, and what the answers in
    it give. *)
Lemma run_op_logged live a l o :
  arena_ok a -> m_buf a mod Alignment = 0 -> cursor_aligned Alignment a ->
  exists evs,
    log (run_op Alignment o a l) = l ++ evs /\
    asks_alignment Alignment evs /\
    (answers_conform live evs ->
     forall p, result (run_op Alignment o a l) = Ok (Some p) -> p mod Alignment = 0).
Proof.
  intros Ha Hb Hc. pose proof (valid_alignment_pos _ Alignment_ok) as Hpos.
  destruct o as [byte_count answer | p byte_count |]; unfold run_op, mbind, M_bind, bind.
  - rewrite (allocate_ok Alignment Alignment_ok) by assumption.
    destruct (byte_count =? 0).
    { exists []. cbn [result state log]. unfold mret, M_ret, ret. cbn [result log].
      rewrite app_nil_r. split; [reflexivity |]. split; [constructor |].
      intros _ q [= <-]. apply Z.mod_0_l. lia. }
    destruct (aligned_size Alignment byte_count <=? remaining a).
    { exists []. cbn [result state log]. unfold mret, M_ret, ret. cbn [result log].
      rewrite app_nil_r. split; [reflexivity |]. split; [constructor |].
      intros _ q [= <-]. unfold cursor_aligned in Hc.
      apply Z.mod_divide in Hb; [| lia]. apply Z.mod_divide in Hc; [| lia].
      apply Z.mod_divide; [lia |].
      replace (m_cursor a) with ((m_cursor a - m_buf a) + m_buf a) by lia.
      apply Z.divide_add_r; assumption. }
    exists [posix_memalign Alignment byte_count answer]. cbv zeta.
    destruct answer as [q |]; cbn [result state log]; unfold mret, M_ret, ret;
      cbn [result log].
    + split; [reflexivity |]. split; [repeat constructor |].
      intros Hconf p [= <-]. inversion Hconf as [| ? ? Hev _]; subst.
      unfold posix_memalign_conforms in Hev. bool_facts. assumption.
    + split; [reflexivity |]. split; [repeat constructor |]. intros _ p [=].
  - rewrite deallocate_ok by assumption.
    destruct ((m_buf a <=? p) && (p <=? m_buf a + m_size a)).
    + exists []. rewrite app_nil_r.
      destruct (ptr_add p (aligned_size Alignment byte_count) =? m_cursor a);
        cbn [result state log]; unfold mret, M_ret, ret; cbn [result log];
        (split; [reflexivity |]); (split; [constructor |]); intros _ q [=].
    + destruct (p =? nullptr); [exists []; rewrite app_nil_r | exists [free p]];
        cbn [result state log]; unfold mret, M_ret, ret; cbn [result log];
        (split; [reflexivity |]); (split; [repeat constructor |]); intros _ q [=].
  - rewrite reset_ok by assumption. exists []. rewrite app_nil_r.
    cbn [result state log]. unfold mret, M_ret, ret. cbn [result log].
    split; [reflexivity |]. split; [constructor |]. intros _ q [=].
Qed.

Lemma run_ops_logged live ops : forall a l,
  arena_ok a -> m_buf a mod Alignment = 0 -> cursor_aligned Alignment a ->
  exists evs,
    log (run_ops Alignment ops a l) = l ++ evs /\
    asks_alignment Alignment evs /\
    cursor_aligned Alignment (state (run_ops Alignment ops a l)) /\
    (answers_conform live evs ->
     forall rs, result (run_ops Alignment ops a l) = Ok rs ->
       Forall (fun x => forall p, x = Some p -> p mod Alignment = 0) rs).
Proof.
  induction ops as [| o rest IH]; intros a l Ha Hb Hc.
  - exists []. cbn. rewrite app_nil_r. split; [reflexivity |]. split; [constructor |].
    split; [assumption |]. intros _ rs [= <-]. constructor.
  - destruct (run_op_logged live a l o Ha Hb Hc) as (evs1 & Hlog1 & Hask1 & Hp1).
    pose proof (run_op_keeps_ok a l o Ha) as (Hok & Hbuf & _).
    cbv zeta in Hok, Hbuf.
    assert (Hal : cursor_aligned Alignment (state (run_op Alignment o a l))).
    { destruct o as [byte_count answer | p byte_count |]; unfold run_op, mbind, M_bind, bind.
      - pose proof (allocate_keeps_aligned Alignment Alignment_ok a l byte_count answer Ha Hc).
        destruct (result (allocate Alignment byte_count answer a l)); assumption.
      - pose proof (deallocate_keeps_aligned Alignment Alignment_ok a l p byte_count Ha Hc).
        destruct (result (deallocate Alignment p byte_count a l)); assumption.
      - pose proof (reset_keeps_aligned Alignment Alignment_ok a l Ha).
        destruct (result (reset a l)); assumption. }
    cbn [run_ops]. unfold mbind, M_bind, bind.
    destruct (result (run_op Alignment o a l)) as [x | e | e |] eqn:Hr;
      cbn [result state log];
      try (exists evs1; split; [assumption |]; split; [assumption |];
           split; [assumption |]; intros _ rs; discriminate).
    destruct (IH (state (run_op Alignment o a l)) (log (run_op Alignment o a l))
                Hok ltac:(rewrite Hbuf; assumption) Hal)
      as (evs2 & Hlog2 & Hask2 & Hal2 & Hp2).
    exists (evs1 ++ evs2).
    assert (Hlog : log (run_ops Alignment rest (state (run_op Alignment o a l))
                          (log (run_op Alignment o a l))) = l ++ evs1 ++ evs2)
      by (rewrite Hlog2, Hlog1, <- app_assoc; reflexivity).
    destruct (result (run_ops Alignment rest _ _)) as [xs | e | e |] eqn:Hrs;
      unfold mret, M_ret, ret; cbn [result state log];
      (split; [assumption |]); (split; [apply Forall_app; split; assumption |]);
      (split; [assumption |]); intros Hconf rs; try discriminate.
    intros [= <-]. apply Forall_app in Hconf as [Hconf1 Hconf2]. constructor.
    + intros p ->. apply (Hp1 Hconf1). reflexivity.
    + apply (Hp2 Hconf2). reflexivity.
Qed.
End exact_runs.

(* ================================================================= *)
(** * The claims on [arena_interf] *)

(** Arithmetic side conditions of an instance on [LP64]. *)
Ltac lp64_lia :=
  unfold is_size_t, arena_ok, cursor_aligned, SIZE_MAX, size_modulus;
  change (@size_bits LP64) with 64;
  change (2 ^ 64) with 18446744073709551616;
  cbn [m_buf m_size m_cursor aligned_buf.buf aligned_buf.size fst snd sizeof alignof];
  lia.

(** C1 (as stated, refuted): on a [fixed_arena<64, 8>] the calls
    [allocate(10)] and [allocate(60)] both succeed, the second through
    [posix_memalign]; [used()] is then 16 while the rounded sizes sum to
    80, which is more than the buffer holds.  And [allocate(SIZE_MAX)]
    succeeds from the buffer with [used()] still 0, while [SIZE_MAX]
    rounded up to a multiple of 8 is [2^64]. *)
Lemma used_is_not_the_sum_of_all_calls :
  let calls := [(10, None); (60, Some 8192)] in
  let r0 := fixed_arena 64 4096 arena_default [] in
  let r := allocate_all 8 calls (state r0) (log r0) in
  let r' := allocate_all 8 [(SIZE_MAX, None)] (state r0) (log r0) in
  posix_memalign_conforms [(4096, 64)] 8 60 (Some 8192) = true /\
  result r = Ok [4096; 8192] /\
  result (used (state r) (log r)) = Ok 16 /\
  sum_rounded 8 calls = 80 /\
  result (used (state r) (log r)) <> Ok (sum_rounded 8 calls) /\
  result r' = Ok [4096] /\ log r' = [] /\
  result (used (state r') (log r')) = Ok 0 /\
  sum_rounded 8 [(SIZE_MAX, None)] = 2 ^ 64.
Proof.
  cbv zeta.
  repeat match goal with |- _ /\ _ => split end; try reflexivity.
  vm_compute. discriminate.
Qed.

(** C1 (amended): for every arena with an attached buffer and every
    sequence of [allocate] calls, with byte counts of at most
    [SIZE_MAX - (Alignment - 1)] and no [deallocate] in between, that all
    return: a call whose byte count rounded up to the alignment fits what
    remains of the buffer is served from the buffer and adds that rounded
    size to [used()]; every other call is served by the fallback, with one
    call of [posix_memalign], and leaves [used()] as it is.  So [used()]
    grows by the sum of the rounded sizes of the calls served from the
    buffer, which is the sum over all the calls when none took the
    fallback, and it never exceeds the size of the buffer. *)
Theorem used_is_sum_of_rounded_sizes_from_buffer `{Platform}
    (Alignment : Z) (a : arena_interf) (l : list event)
    (calls : list (Z * option Z)) (ps : list Z) (a' : arena_interf) (l' : list event) :
  valid_alignment Alignment ->
  arena_ok a ->
  Forall (fun c => 0 <= fst c <= SIZE_MAX - (Alignment - 1)) calls ->
  allocate_all Alignment calls a l = Run (Ok ps) a' l' ->
  exists u u',
    result (used a l) = Ok u /\ result (used a' l') = Ok u' /\
    u' = u + bytes_from_buffer Alignment (m_size a - u) calls /\
    l' = l ++ fallback_calls Alignment (m_size a - u) calls /\
    u' <= m_size a' /\ m_size a' = m_size a /\
    (l' = l -> u' = u + sum_rounded Alignment calls) /\
    Forall (fun c => least_multiple_ge Alignment (fst c) (round_up Alignment (fst c))) calls.
Proof.
  intros HA Ha Hcalls Hrun.
  destruct (allocate_all_run Alignment HA calls a l ps a' l' Ha Hrun)
    as (Ha' & Hbuf & Hsize & _ & Hcur).
  destruct (allocate_all_exact Alignment HA calls a l ps a' l' Ha Hcalls Hrun)
    as (Hexact & Hlog).
  exists (m_cursor a - m_buf a), (m_cursor a' - m_buf a').
  rewrite !used_ok by assumption. cbn [result].
  replace (m_size a - (m_cursor a - m_buf a)) with (remaining a)
    by (unfold remaining; lia).
  split; [reflexivity |]. split; [reflexivity |].
  split; [lia |]. split; [assumption |].
  split; [unfold arena_ok in Ha'; lia |]. split; [assumption |].
  split.
  - intros Hl. rewrite <- (sum_aligned_rounded Alignment HA calls Hcalls), (Hcur Hl), Hbuf.
    lia.
  - eapply Forall_impl; [exact Hcalls |]. intros c _. cbn.
    apply round_up_least, valid_alignment_pos, HA.
Qed.

Lemma used_is_sum_of_rounded_sizes_from_buffer_witness :
  let a := {| m_buf := 4096; m_size := 64; m_cursor := 4096 |} in
  let a' := {| m_buf := 4096; m_size := 64; m_cursor := 4136 |} in
  let calls := [(10, @None Z); (60, Some 8192); (24, @None Z)] in
  let l' := @nil event ++ [posix_memalign 8 60 (Some 8192)] in
  exists u u',
    result (used a []) = Ok u /\ result (used a' l') = Ok u' /\
    u' = u + bytes_from_buffer 8 (m_size a - u) calls /\
    l' = [] ++ fallback_calls 8 (m_size a - u) calls /\
    u' <= m_size a' /\ m_size a' = m_size a /\
    (l' = [] -> u' = u + sum_rounded 8 calls) /\
    Forall (fun c => least_multiple_ge 8 (fst c) (round_up 8 (fst c))) calls.
Proof.
  apply (used_is_sum_of_rounded_sizes_from_buffer 8
           {| m_buf := 4096; m_size := 64; m_cursor := 4096 |} []
           [(10, @None Z); (60, Some 8192); (24, @None Z)] [4096; 8192; 4112]
           {| m_buf := 4096; m_size := 64; m_cursor := 4136 |}
           ([] ++ [posix_memalign 8 60 (Some 8192)])).
  - split; [lp64_lia | reflexivity].
  - lp64_lia.
  - repeat constructor; lp64_lia.
  - reflexivity.
Defined.

(** C2: on a [fixed_arena<64, 8>], [allocate(10)] returns the start of
    the buffer and brings [used()] to 16; [allocate(60)] then needs 64
    bytes where 48 remain, calls [posix_memalign(8, 60)], and whatever
    block that call returns, [allocate] returns it and it is outside the
    buffer. *)
Theorem fixed_arena_64_8_scenario `{Platform}
    (m_storage q : Z) (l : list event) (answer : option Z) :
  valid_alignment 8 ->
  0 < m_storage -> m_storage + 64 < size_modulus ->
  posix_memalign_conforms [(m_storage, 64)] 8 60 (Some q) = true ->
  let r0 := fixed_arena 64 m_storage arena_default l in
  let r1 := allocate 8 10 answer (state r0) (log r0) in
  let r2 := allocate 8 60 (Some q) (state r1) (log r1) in
  result r0 = Ok tt /\
  result r1 = Ok m_storage /\ log r1 = l /\
  result (used (state r1) (log r1)) = Ok 16 /\
  aligned_size 8 60 = 64 /\ remaining (state r1) = 48 /\
  result r2 = Ok q /\ log r2 = l ++ [posix_memalign 8 60 (Some q)] /\
  ~ (m_storage <= q < m_storage + 64) /\
  result (used (state r2) (log r2)) = Ok 16.
Proof.
  intros HA Hs He Hq. cbv zeta.
  assert (Hmod : 128 <= size_modulus).
  { apply (size_modulus_next_pow2 6); [lia |]. change (2 ^ 6) with 64. lia. }
  assert (H10 : aligned_size 8 10 = 16).
  { rewrite aligned_size_no_wrap; [reflexivity | assumption |].
    unfold SIZE_MAX. lia. }
  assert (H60 : aligned_size 8 60 = 64).
  { rewrite aligned_size_no_wrap; [reflexivity | assumption |].
    unfold SIZE_MAX. lia. }
  set (a0 := {| m_buf := m_storage; m_size := 64; m_cursor := m_storage |}).
  assert (Ha0 : arena_ok a0) by (unfold arena_ok; cbn; lia).
  assert (Hr0 : fixed_arena 64 m_storage arena_default l = Run (Ok tt) a0 l).
  { unfold fixed_arena. rewrite (bind_Ok _ _ _ _ tt arena_default l) by reflexivity.
    apply set_buf_ok; cbn; lia. }
  rewrite Hr0. cbn [state log result].
  set (a1 := with_cursor a0 (m_storage + 16)).
  assert (Ha1 : arena_ok a1) by (unfold arena_ok; cbn; lia).
  assert (Hr1 : allocate 8 10 answer a0 l = Run (Ok m_storage) a1 l).
  { rewrite (allocate_ok 8 HA) by assumption. rewrite H10. cbn.
    unfold remaining. cbn.
    destruct (Z.leb_spec 16 (m_storage + 64 - m_storage)); [reflexivity | lia]. }
  rewrite Hr1. cbn [state log result].
  assert (Hr2 : allocate 8 60 (Some q) a1 l
                = Run (Ok q) a1 (l ++ [posix_memalign 8 60 (Some q)])).
  { rewrite (allocate_ok 8 HA) by assumption. rewrite H60. cbn.
    unfold remaining. cbn.
    destruct (Z.leb_spec 64 (m_storage + 64 - (m_storage + 16))); [lia | reflexivity]. }
  rewrite Hr2. cbn [state log result].
  rewrite !used_ok by assumption. cbn.
  repeat match goal with |- _ /\ _ => split end;
    try reflexivity; try (f_equal; lia); try (unfold remaining; cbn; lia).
  unfold posix_memalign_conforms in Hq. cbn in Hq. bool_facts.
  match goal with Hd : (_ || _) = true |- _ => apply orb_true_iff in Hd; destruct Hd end;
    bool_facts; lia.
Qed.

Lemma fixed_arena_64_8_scenario_witness :
  let r0 := fixed_arena 64 4096 arena_default [] in
  let r1 := allocate 8 10 None (state r0) (log r0) in
  let r2 := allocate 8 60 (Some 8192) (state r1) (log r1) in
  result r0 = Ok tt /\
  result r1 = Ok 4096 /\ log r1 = [] /\
  result (used (state r1) (log r1)) = Ok 16 /\
  aligned_size 8 60 = 64 /\ remaining (state r1) = 48 /\
  result r2 = Ok 8192 /\ log r2 = [] ++ [posix_memalign 8 60 (Some 8192)] /\
  ~ (4096 <= 8192 < 4096 + 64) /\
  result (used (state r2) (log r2)) = Ok 16.
Proof.
  apply (fixed_arena_64_8_scenario 4096 8192 [] None).
  - split; [lp64_lia | reflexivity].
  - lia.
  - lp64_lia.
  - reflexivity.
Defined.

(** C3 (as stated, refuted): the sum [p + aligned_size(byte_count)] of
    line 198 is an address sum and wraps.  On a [fixed_arena<64, 8>] on
    which nothing has been allocated, the pointer 48 bytes into the buffer
    is not the block allocated last, and with the byte count [2^64 - 48],
    a multiple of 8, the pointer plus the rounded size is not the cursor;
    yet [deallocate] is no no-op: it moves the cursor forward to the
    pointer and [used()] goes from 0 to 48. *)
Lemma deallocate_of_other_pointer_moves_cursor :
  let a := {| m_buf := 4096; m_size := 64; m_cursor := 4096 |} in
  let p := 4144 in
  let byte_count := 2 ^ 64 - 48 in
  arena_ok a /\ is_size_t byte_count /\
  m_buf a <= p <= m_buf a + m_size a /\
  round_up 8 byte_count = byte_count /\
  aligned_size 8 byte_count = byte_count /\
  p + round_up 8 byte_count <> m_cursor a /\
  result (used a []) = Ok 0 /\
  deallocate 8 p byte_count a [] = Run (Ok tt) (with_cursor a p) [] /\
  result (used (with_cursor a p) []) = Ok 48 /\
  deallocate 8 p byte_count a [] <> Run (Ok tt) a [].
Proof.
  cbv zeta.
  repeat match goal with |- _ /\ _ => split end;
    try reflexivity; try lp64_lia; vm_compute; discriminate.
Qed.

(** C3 (amended): on an arena with an attached buffer, for byte counts
    whose rounded size and the size of the buffer together stay below
    [2^size_bits], so that the sum of line 198 cannot wrap: [deallocate]
    of a pointer [p] of the buffer with [p + aligned_size(byte_count)]
    equal to the cursor moves the cursor back to [p] and takes the rounded
    size off [used()]; [deallocate] of any other pointer of the buffer
    changes nothing.  And, for every byte count, [deallocate] of the block
    that the last [allocate] served from the buffer is such a call: it
    puts the arena, hence [used()], back to what it was before that
    allocation. *)
Theorem deallocate_is_lifo_without_wrap `{Platform}
    (Alignment : Z) (a : arena_interf) (l : list event)
    (byte_count : Z) (answer : option Z) (p q byte_count' : Z) :
  valid_alignment Alignment ->
  arena_ok a ->
  let r := allocate Alignment byte_count answer a l in
  byte_count <> 0 -> result r = Ok p -> log r = l ->
  m_buf a <= q <= m_buf a + m_size a ->
  aligned_size Alignment byte_count' + m_size a < size_modulus ->
  q + aligned_size Alignment byte_count' <> m_cursor (state r) ->
  (p = m_cursor a /\ m_buf a <= p <= m_buf a + m_size a /\
   p + aligned_size Alignment byte_count = m_cursor (state r) /\
   deallocate Alignment p byte_count (state r) (log r) = Run (Ok tt) a l /\
   exists u, result (used a l) = Ok u /\
             result (used (state r) (log r)) = Ok (u + aligned_size Alignment byte_count))
  /\
  deallocate Alignment q byte_count' (state r) (log r) = Run (Ok tt) (state r) (log r)
  /\
  (forall s p' n,
     arena_ok s -> m_buf s <= p' <= m_buf s + m_size s ->
     aligned_size Alignment n + m_size s < size_modulus ->
     (p' + aligned_size Alignment n = m_cursor s ->
        deallocate Alignment p' n s l = Run (Ok tt) (with_cursor s p') l /\
        p' <= m_cursor s /\
        result (used (with_cursor s p') l)
          = Ok (m_cursor s - m_buf s - aligned_size Alignment n)) /\
     (p' + aligned_size Alignment n <> m_cursor s ->
        deallocate Alignment p' n s l = Run (Ok tt) s l)).
Proof.
  intros HA Ha r Hbc Hres Hlog Hq Hsmall Hother. subst r.
  pose proof (allocate_preserves Alignment HA a l byte_count answer Ha)
    as (Ha' & Hbuf & Hsize & _).
  cbv zeta in Ha', Hbuf, Hsize.
  pose proof (aligned_size_nonneg Alignment HA byte_count) as Hal.
  split; [| split].
  - revert Ha' Hres Hlog. rewrite (allocate_ok Alignment HA) by assumption.
    destruct (Z.eqb_spec byte_count 0); [contradiction |].
    destruct (Z.leb_spec (aligned_size Alignment byte_count) (remaining a)) as [Hfit | Hno].
    + cbn [result state log]. intros Ha' [= <-] _. unfold remaining in Hfit.
      unfold arena_ok in Ha.
      split; [reflexivity |]. split; [lia |]. split; [reflexivity |].
      split.
      * rewrite deallocate_ok by assumption. cbn [with_cursor m_buf m_size m_cursor].
        assert (Htop : ptr_add (m_cursor a) (aligned_size Alignment byte_count)
                       = m_cursor a + aligned_size Alignment byte_count)
          by (apply to_size_t_small; unfold is_size_t; lia).
        rewrite Htop, Z.eqb_refl.
        destruct (Z.leb_spec (m_buf a) (m_cursor a)); [| lia].
        destruct (Z.leb_spec (m_cursor a) (m_buf a + m_size a)); [| lia].
        cbn [andb]. destruct a; reflexivity.
      * exists (m_cursor a - m_buf a).
        rewrite !used_ok; [| assumption | unfold arena_ok; lia].
        cbn [with_cursor m_buf m_cursor result]. split; [reflexivity | f_equal; lia].
    + destruct answer; cbn [result state log]; intros _ _ Hlog; exfalso;
        apply (f_equal (@length event)) in Hlog;
        rewrite length_app in Hlog; cbn in Hlog; lia.
  - rewrite Hlog.
    rewrite (deallocate_in_buffer_no_wrap Alignment HA) by (try assumption; lia).
    destruct (Z.eqb_spec (q + aligned_size Alignment byte_count')
                (m_cursor (state (allocate Alignment byte_count answer a l))));
      [contradiction | reflexivity].
  - intros s p' n Hs Hp' Hn.
    rewrite (deallocate_in_buffer_no_wrap Alignment HA) by assumption.
    pose proof (aligned_size_nonneg Alignment HA n) as Hn0.
    split.
    + intros Htop. rewrite <- Htop, Z.eqb_refl. split; [reflexivity |].
      split; [lia |].
      rewrite used_ok
        by (unfold arena_ok in *; cbn [with_cursor m_buf m_size m_cursor]; lia).
      cbn [with_cursor m_buf m_cursor result]. f_equal. lia.
    + intros Hne.
      destruct (Z.eqb_spec (p' + aligned_size Alignment n) (m_cursor s));
        [contradiction | reflexivity].
Qed.

Lemma deallocate_is_lifo_without_wrap_witness :
  let a := {| m_buf := 4096; m_size := 64; m_cursor := 4112 |} in
  let r := allocate 8 24 None a [] in
  (4112 = m_cursor a /\ m_buf a <= 4112 <= m_buf a + m_size a /\
   4112 + aligned_size 8 24 = m_cursor (state r) /\
   deallocate 8 4112 24 (state r) (log r) = Run (Ok tt) a [] /\
   exists u, result (used a []) = Ok u /\
             result (used (state r) (log r)) = Ok (u + aligned_size 8 24))
  /\
  deallocate 8 4096 10 (state r) (log r) = Run (Ok tt) (state r) (log r)
  /\
  (forall s p' n,
     arena_ok s -> m_buf s <= p' <= m_buf s + m_size s ->
     aligned_size 8 n + m_size s < size_modulus ->
     (p' + aligned_size 8 n = m_cursor s ->
        deallocate 8 p' n s [] = Run (Ok tt) (with_cursor s p') [] /\
        p' <= m_cursor s /\
        result (used (with_cursor s p') [])
          = Ok (m_cursor s - m_buf s - aligned_size 8 n)) /\
     (p' + aligned_size 8 n <> m_cursor s ->
        deallocate 8 p' n s [] = Run (Ok tt) s [])).
Proof.
  apply (deallocate_is_lifo_without_wrap 8
           {| m_buf := 4096; m_size := 64; m_cursor := 4112 |} [] 24 None 4112 4096 10).
  - split; [lp64_lia | reflexivity].
  - lp64_lia.
  - lia.
  - reflexivity.
  - reflexivity.
  - lp64_lia.
  - vm_compute. reflexivity.
  - vm_compute. discriminate.
Defined.

(** C4 (as stated, refuted): [deallocate] on an arena that has no buffer
    attached, such as a [dynamic_arena] constructed with no size: the
    check of [detect_outlive] throws and, [deallocate] being [noexcept],
    the program is terminated. *)
Lemma deallocate_fails_without_buffer :
  let r0 := dynamic_arena 16 0 None arena_default [] in
  result r0 = Ok tt /\
  deallocate 16 4096 10 (state r0) (log r0)
    = Run (Terminated no_valid_buffer) arena_default [] /\
  ~ (forall (a : arena_interf) (p byte_count : Z),
       result (deallocate 16 p byte_count a []) = Ok tt).
Proof.
  cbv zeta. split; [reflexivity |]. split; [reflexivity |].
  intros Hall. specialize (Hall arena_default 4096 10). vm_compute in Hall. discriminate.
Qed.

(** [deallocate] on any arena, test by test. *)
Lemma deallocate_run `{Platform} (Alignment : Z) a l p byte_count :
  deallocate Alignment p byte_count a l =
    if negb (m_buf a =? nullptr) && negb (m_size a =? 0)
    then
      if (m_buf a <=? m_cursor a) && (m_cursor a <=? ptr_add (m_buf a) (m_size a))
      then
        if (m_buf a <=? p) && (p <=? ptr_add (m_buf a) (m_size a))
        then
          if ptr_add p (aligned_size Alignment byte_count) =? m_cursor a
          then Run (Ok tt) (with_cursor a p) l
          else Run (Ok tt) a l
        else if p =? nullptr then Run (Ok tt) a l
        else Run (Ok tt) a (l ++ [free p])
      else Run (Terminated allocator_outlived) a l
    else Run (Terminated no_valid_buffer) a l.
Proof.
  pose proof (detect_outlive_run a l) as Hd.
  pose proof (get_buf_ex_run a l) as Hg.
  unfold deallocate, noexcept.
  destruct (negb (m_buf a =? nullptr) && negb (m_size a =? 0));
    [| rewrite (bind_Throw _ _ _ _ _ _ _ Hd); reflexivity].
  destruct ((m_buf a <=? m_cursor a)
            && (m_cursor a <=? ptr_add (m_buf a) (m_size a)));
    [| rewrite (bind_Throw _ _ _ _ _ _ _ Hd); reflexivity].
  rewrite (bind_Ok _ _ _ _ _ _ _ Hd). unfold in_buf.
  rewrite (bind_Ok _ _ _ _ _ _ _ (bind_Ok _ _ _ _ _ _ _ Hg)).
  unfold mret, M_ret, ret. cbn [aligned_buf.buf aligned_buf.size].
  destruct ((m_buf a <=? p) && (p <=? ptr_add (m_buf a) (m_size a))).
  - rewrite (bind_Ok _ _ a l a a l) by reflexivity.
    destruct (ptr_add p (aligned_size Alignment byte_count) =? m_cursor a);
      reflexivity.
  - unfold free_aligned, overalign_free.
    destruct (p =? nullptr); reflexivity.
Qed.

(** A call of [free] appended to a log is defined when the calls before
    it are and its argument is a block still outstanding. *)
Lemma frees_defined_from_snoc l : forall live p,
  frees_defined_from live (l ++ [free p]) <->
  frees_defined_from live l /\ In p (fold_left after_event l live).
Proof.
  induction l as [| ev l IH]; intros live p; cbn [app frees_defined_from fold_left].
  - cbn [after_event]. tauto.
  - rewrite IH. tauto.
Qed.

(** C4 (amended): no exception leaves [deallocate], and what it does is
    told by the arena alone.  With no buffer attached (the pointer to the
    buffer null or its size 0) the check of [detect_outlive] throws
    "no valid buffer" and the program is terminated; with a buffer
    attached and the cursor outside of it the check throws
    "allocator has outlived arena" and the program is terminated; in both
    cases the arena and the log are untouched.  With a buffer attached and
    the cursor inside of it, [deallocate] returns normally for a pointer
    of the buffer and for the null pointer, and calls no library function;
    any other pointer is given to [free], the arena unchanged: that call
    is defined, and [deallocate] returns normally, when the pointer is a
    block of [posix_memalign] that has not been freed yet. *)
Theorem deallocate_returns_or_terminates `{Platform}
    (Alignment : Z) (a : arena_interf) (l : list event) (p byte_count : Z) :
  let r := deallocate Alignment p byte_count a l in
  let buf_end := ptr_add (m_buf a) (m_size a) in
  (forall e, result r <> Throw e) /\
  (m_buf a = nullptr \/ m_size a = 0 ->
     r = Run (Terminated no_valid_buffer) a l) /\
  (m_buf a <> nullptr -> m_size a <> 0 ->
     ~ (m_buf a <= m_cursor a <= buf_end) ->
     r = Run (Terminated allocator_outlived) a l) /\
  (m_buf a <> nullptr -> m_size a <> 0 ->
     m_buf a <= m_cursor a <= buf_end ->
     (m_buf a <= p <= buf_end ->
        result r = Ok tt /\ log r = l /\
        m_buf (state r) = m_buf a /\ m_size (state r) = m_size a /\
        (m_cursor (state r) = m_cursor a \/ m_cursor (state r) = p)) /\
     (~ (m_buf a <= p <= buf_end) -> p = nullptr -> r = Run (Ok tt) a l) /\
     (~ (m_buf a <= p <= buf_end) -> p <> nullptr ->
        state r = a /\ log r = l ++ [free p] /\
        (frees_defined (log r) <-> frees_defined l /\ In p (outstanding l)) /\
        (In p (outstanding l) -> result r = Ok tt))).
Proof.
  cbv zeta. split; [intros e; apply noexcept_never_throws |].
  rewrite deallocate_run.
  destruct (Z.eqb_spec (m_buf a) nullptr) as [Hb | Hb]; cbn [negb andb].
  { split; [reflexivity |]. split; [contradiction | intros; contradiction]. }
  destruct (Z.eqb_spec (m_size a) 0) as [Hs | Hs]; cbn [negb andb].
  { split; [reflexivity |]. split; [contradiction | intros; contradiction]. }
  split; [intros [? | ?]; contradiction |].
  destruct (Z.leb_spec (m_buf a) (m_cursor a)) as [Hc1 | Hc1]; cbn [andb];
    [| split; [reflexivity | intros _ _ ?; lia]].
  destruct (Z.leb_spec (m_cursor a) (ptr_add (m_buf a) (m_size a))) as [Hc2 | Hc2];
    [| split; [reflexivity | intros _ _ ?; lia]].
  split; [intros _ _ ?; lia |]. intros _ _ _.
  destruct (Z.leb_spec (m_buf a) p) as [Hp1 | Hp1]; cbn [andb];
    [destruct (Z.leb_spec p (ptr_add (m_buf a) (m_size a))) as [Hp2 | Hp2] |].
  - split; [| split; intros ?; lia]. intros _.
    destruct (ptr_add p (aligned_size Alignment byte_count) =? m_cursor a);
      cbn [result state log with_cursor m_buf m_size m_cursor]; auto 6.
  - split; [intros ?; lia |].
    split; [intros _ ->; rewrite Z.eqb_refl; reflexivity |].
    intros _ Hn. destruct (Z.eqb_spec p nullptr); [contradiction |].
    cbn [result state log]. split; [reflexivity |]. split; [reflexivity |].
    split; [apply frees_defined_from_snoc | reflexivity].
  - split; [intros ?; lia |].
    split; [intros _ ->; rewrite Z.eqb_refl; reflexivity |].
    intros _ Hn. destruct (Z.eqb_spec p nullptr); [contradiction |].
    cbn [result state log]. split; [reflexivity |]. split; [reflexivity |].
    split; [apply frees_defined_from_snoc | reflexivity].
Qed.

Lemma deallocate_returns_or_terminates_witness :
  deallocate 16 4096 10 arena_default [] = Run (Terminated no_valid_buffer) arena_default []
  /\
  deallocate 8 4112 24 {| m_buf := 4096; m_size := 64; m_cursor := 8192 |} []
    = Run (Terminated allocator_outlived)
          {| m_buf := 4096; m_size := 64; m_cursor := 8192 |} []
  /\
  (let a := {| m_buf := 4096; m_size := 64; m_cursor := 4136 |} in
   let l := [posix_memalign 8 60 (Some 8192)] in
   let r := deallocate 8 8192 60 a l in
   state r = a /\ log r = l ++ [free 8192] /\
   (frees_defined (log r) <-> frees_defined l /\ In 8192 (outstanding l)) /\
   (In 8192 (outstanding l) -> result r = Ok tt)).
Proof.
  split; [| split].
  - apply (deallocate_returns_or_terminates 16 arena_default [] 4096 10).
    left. reflexivity.
  - apply (deallocate_returns_or_terminates 8
             {| m_buf := 4096; m_size := 64; m_cursor := 8192 |} [] 4112 24).
    + unfold nullptr. cbn. lia.
    + cbn. lia.
    + vm_compute. intros [_ Hle]. apply Hle. reflexivity.
  - cbv zeta.
    apply (deallocate_returns_or_terminates 8
             {| m_buf := 4096; m_size := 64; m_cursor := 4136 |}
             [posix_memalign 8 60 (Some 8192)] 8192 60).
    + unfold nullptr. cbn. lia.
    + cbn. lia.
    + vm_compute. split; discriminate.
    + vm_compute. intros [_ Hle]. apply Hle. reflexivity.
    + unfold nullptr. lia.
Defined.

(** C5: on an arena with a valid alignment whose buffer starts at a
    multiple of it, whatever calls of [allocate], [deallocate] and
    [reset] are made: the offset of the cursor from the start of the
    buffer stays a multiple of the alignment; every call of
    [posix_memalign] that the run makes asks for the alignment of the
    arena; and, when the calls of [posix_memalign] in the log were
    answered as POSIX requires for the arguments they were made with,
    every pointer that [allocate] returned, from the buffer or from the
    fallback, is a multiple of the alignment. *)
Theorem allocate_returns_aligned_pointers `{Platform}
    (Alignment : Z) (a : arena_interf) (l : list event) (ops : list op) :
  valid_alignment Alignment ->
  arena_ok a ->
  m_buf a mod Alignment = 0 ->
  cursor_aligned Alignment a ->
  let r := run_ops Alignment ops a l in
  cursor_aligned Alignment (state r) /\
  (exists evs, log r = l ++ evs /\ asks_alignment Alignment evs) /\
  (answers_conform [(m_buf a, m_size a)] (log r) ->
   forall rs, result r = Ok rs ->
     Forall (fun x => forall p, x = Some p -> p mod Alignment = 0) rs).
Proof.
  intros HA Ha Hb Hc. cbv zeta.
  destruct (run_ops_logged Alignment HA [(m_buf a, m_size a)] ops a l Ha Hb Hc)
    as (evs & Hlog & Hasks & Hcur & Hptrs).
  split; [assumption |]. split; [exists evs; split; assumption |].
  intros Hconf. apply Hptrs. unfold answers_conform in *.
  rewrite Hlog in Hconf. apply Forall_app in Hconf. apply Hconf.
Qed.

Lemma allocate_returns_aligned_pointers_witness :
  let a := {| m_buf := 4096; m_size := 64; m_cursor := 4096 |} in
  let ops := [op_allocate 10 None; op_allocate 60 (Some 8192);
              op_deallocate 4096 10; op_allocate 24 None; op_reset] in
  let r := run_ops 8 ops a [] in
  log r = [posix_memalign 8 60 (Some 8192)] /\
  answers_conform [(4096, 64)] (log r) /\
  cursor_aligned 8 (state r) /\
  (exists evs, log r = [] ++ evs /\ asks_alignment 8 evs) /\
  (answers_conform [(4096, 64)] (log r) ->
   forall rs, result r = Ok rs ->
     Forall (fun x => forall p, x = Some p -> p mod 8 = 0) rs).
Proof.
  cbv zeta.
  assert (Hlog : log (run_ops 8 [op_allocate 10 None; op_allocate 60 (Some 8192);
                                 op_deallocate 4096 10; op_allocate 24 None; op_reset]
                        {| m_buf := 4096; m_size := 64; m_cursor := 4096 |} [])
                 = [posix_memalign 8 60 (Some 8192)])
    by (vm_compute; reflexivity).
  split; [exact Hlog |].
  split; [rewrite Hlog; constructor; [vm_compute; reflexivity | constructor] |].
  clear Hlog.
  apply (allocate_returns_aligned_pointers 8
           {| m_buf := 4096; m_size := 64; m_cursor := 4096 |} []).
  - split; [lp64_lia | reflexivity].
  - lp64_lia.
  - reflexivity.
  - reflexivity.
Defined.

(** C9 (as stated, refuted): with [Alignment = 1], which
    [check_alignment] accepts, [aligned_size(SIZE_MAX)] is [SIZE_MAX] and
    not 0, and [allocate(SIZE_MAX)] on a [fixed_arena<64, 1>] takes the
    fallback path, where [posix_memalign] fails. *)
Lemma aligned_size_max_with_alignment_1 :
  let r0 := fixed_arena 64 4096 arena_default [] in
  valid_alignment 1 /\
  aligned_size 1 SIZE_MAX = SIZE_MAX /\ aligned_size 1 SIZE_MAX <> 0 /\
  posix_memalign_conforms [(4096, 64)] 1 SIZE_MAX None = true /\
  allocate 1 SIZE_MAX None (state r0) (log r0)
    = Run (Throw (posix_memalign_failed 1 SIZE_MAX)) (state r0)
          [posix_memalign 1 SIZE_MAX None].
Proof.
  cbv zeta. split; [split; [lp64_lia | reflexivity] |].
  split; [reflexivity |]. split; [vm_compute; discriminate |].
  split; reflexivity.
Qed.

(** C9 (amended): [aligned_size] rounds modulo [2^size_bits]: it is
    [(byte_count + Alignment - 1) mod 2^size_bits] with its low
    [log2 Alignment] bits cleared; this is the least multiple of
    [Alignment] that is at least [byte_count] exactly when
    [byte_count <= SIZE_MAX - (Alignment - 1)], and it is 0, below
    [byte_count], for the larger requests.  When [Alignment >= 2],
    [aligned_size(SIZE_MAX) = 0] and [allocate(SIZE_MAX)] on an arena with
    an attached buffer returns the cursor, which is not null, without
    calling [posix_memalign] and without moving the cursor. *)
Theorem aligned_size_wraps `{Platform} (Alignment byte_count : Z) :
  valid_alignment Alignment ->
  is_size_t byte_count ->
  let x := to_size_t (byte_count + (Alignment - 1)) in
  aligned_size Alignment byte_count = Z.ldiff x (Z.ones (Z.log2 Alignment)) /\
  aligned_size Alignment byte_count = x - x mod Alignment /\
  (least_multiple_ge Alignment byte_count (aligned_size Alignment byte_count)
     <-> byte_count <= SIZE_MAX - (Alignment - 1)) /\
  (SIZE_MAX - (Alignment - 1) < byte_count ->
     aligned_size Alignment byte_count = 0 /\
     aligned_size Alignment byte_count < byte_count) /\
  (2 <= Alignment ->
     aligned_size Alignment SIZE_MAX = 0 /\
     forall a l answer, arena_ok a ->
       allocate Alignment SIZE_MAX answer a l = Run (Ok (m_cursor a)) a l /\
       m_cursor a <> nullptr /\
       result (used (state (allocate Alignment SIZE_MAX answer a l)) l)
         = result (used a l)).
Proof.
  intros HA Hbc x.
  pose proof (valid_alignment_pos _ HA) as Hpos.
  destruct (valid_alignment_pow2 _ HA) as (k & Hk & HAk).
  assert (Hfloor : aligned_size Alignment byte_count = x / Alignment * Alignment)
    by (apply aligned_size_floor; assumption).
  assert (HsA : is_size_t Alignment) by apply HA.
  assert (Hwrap : SIZE_MAX - (Alignment - 1) < byte_count ->
                  aligned_size Alignment byte_count = 0 /\
                  aligned_size Alignment byte_count < byte_count).
  { intros Hgt. rewrite aligned_size_wrap by assumption.
    unfold SIZE_MAX, is_size_t in *. split; lia. }
  split; [| split; [| split; [| split]]].
  - rewrite Hfloor, HAk, Z.log2_pow2 by lia.
    rewrite Z.ldiff_ones_r, Z.shiftr_div_pow2, Z.shiftl_mul_pow2 by lia. reflexivity.
  - rewrite Hfloor. pose proof (Z.div_mod x Alignment ltac:(lia)). lia.
  - split.
    + intros (_ & Hge & _).
      destruct (Z_le_gt_dec byte_count (SIZE_MAX - (Alignment - 1))); [assumption |].
      destruct Hwrap as [_ Hlt]; lia.
    + intros Hle.
      rewrite aligned_size_no_wrap; [| assumption | unfold is_size_t in *; lia].
      apply round_up_least. assumption.
  - exact Hwrap.
  - intros H2.
    assert (Hmax : aligned_size Alignment SIZE_MAX = 0).
    { pose proof size_modulus_pos.
      apply aligned_size_wrap; unfold SIZE_MAX, is_size_t; try assumption; lia. }
    split; [assumption |]. intros a l answer Ha.
    assert (Hrun : allocate Alignment SIZE_MAX answer a l = Run (Ok (m_cursor a)) a l).
    { rewrite (allocate_ok Alignment HA) by assumption. rewrite Hmax.
      pose proof size_modulus_ge_2.
      destruct (Z.eqb_spec SIZE_MAX 0) as [Hz |]; [unfold SIZE_MAX in Hz; lia |].
      unfold arena_ok, remaining in *.
      destruct (Z.leb_spec 0 (m_buf a + m_size a - m_cursor a)); [| lia].
      unfold with_cursor. rewrite Z.add_0_r. destruct a; reflexivity. }
    rewrite Hrun. cbn. split; [reflexivity |]. split; [| reflexivity].
    unfold arena_ok, nullptr in *. lia.
Qed.

Lemma aligned_size_wraps_witness :
  let x := to_size_t (SIZE_MAX + (8 - 1)) in
  aligned_size 8 SIZE_MAX = Z.ldiff x (Z.ones (Z.log2 8)) /\
  aligned_size 8 SIZE_MAX = x - x mod 8 /\
  (least_multiple_ge 8 SIZE_MAX (aligned_size 8 SIZE_MAX)
     <-> SIZE_MAX <= SIZE_MAX - (8 - 1)) /\
  (SIZE_MAX - (8 - 1) < SIZE_MAX ->
     aligned_size 8 SIZE_MAX = 0 /\ aligned_size 8 SIZE_MAX < SIZE_MAX) /\
  (2 <= 8 ->
     aligned_size 8 SIZE_MAX = 0 /\
     forall a l answer, arena_ok a ->
       allocate 8 SIZE_MAX answer a l = Run (Ok (m_cursor a)) a l /\
       m_cursor a <> nullptr /\
       result (used (state (allocate 8 SIZE_MAX answer a l)) l) = result (used a l)).
Proof.
  apply (aligned_size_wraps 8 SIZE_MAX).
  - split; [lp64_lia | reflexivity].
  - lp64_lia.
Defined.

(* ================================================================= *)
(** * [dynamic_arena] *)

Section dynamic_arena_facts.
Context `{Platform}.
Variable Alignment : Z.

Lemma set_buf_run b a l :
  set_buf b a l =
    if (aligned_buf.buf b =? nullptr) || (aligned_buf.size b =? 0)
    then Run (Throw empty_aligned_buf) a l
    else Run (Ok tt) {| m_buf := aligned_buf.buf b; m_size := aligned_buf.size b;
                        m_cursor := aligned_buf.buf b |} l.
Proof.
  unfold set_buf.
  destruct (aligned_buf.buf b =? nullptr), (aligned_buf.size b =? 0); reflexivity.
Qed.

Lemma has_buf_attached a l :
  m_buf a <> nullptr -> m_size a <> 0 -> has_buf a l = Run (Ok true) a l.
Proof.
  intros Hb Hs. unfold has_buf. rewrite (bind_Ok _ _ a l a a l) by reflexivity.
  destruct (Z.eqb_spec (m_buf a) nullptr); [contradiction |].
  destruct (Z.eqb_spec (m_size a) 0); [contradiction |]. reflexivity.
Qed.

Lemma alloc_aligned_run byte_count answer a l :
  alloc_aligned Alignment byte_count answer a l =
    match answer with
    | Some p => Run (Ok p) a (l ++ [posix_memalign Alignment byte_count answer])
    | None => Run (Throw (posix_memalign_failed Alignment byte_count)) a
                  (l ++ [posix_memalign Alignment byte_count answer])
    end.
Proof. unfold alloc_aligned, overalign_alloc. destruct answer; reflexivity. Qed.

(** [alloc] on an arena that has a buffer: the buffer is freed, then
    [posix_memalign] is called, then its block is attached. *)
Lemma alloc_attached a l byte_count answer :
  byte_count <> 0 -> m_buf a <> nullptr -> m_size a <> 0 ->
  alloc Alignment byte_count answer a l =
    let l' := l ++ [free (m_buf a); posix_memalign Alignment byte_count answer] in
    match answer with
    | None => Run (Throw (posix_memalign_failed Alignment byte_count)) a l'
    | Some p =>
        if p =? nullptr then Run (Throw empty_aligned_buf) a l'
        else Run (Ok tt) {| m_buf := p; m_size := byte_count; m_cursor := p |} l'
    end.
Proof.
  intros Hbc Hb Hs. unfold alloc.
  destruct (Z.eqb_spec byte_count 0) as [| _]; [contradiction |].
  rewrite (bind_Ok _ _ _ _ _ _ _ (has_buf_attached a l Hb Hs)).
  assert (Hfree : (get_buf ≫= λ b, free_aligned (aligned_buf.buf b)) a l
                  = Run (Ok tt) a (l ++ [free (m_buf a)])).
  { rewrite (bind_Ok _ _ a l (aligned_buf.mk (m_buf a) (m_size a)) a l) by reflexivity.
    unfold free_aligned, overalign_free. cbn [aligned_buf.buf].
    destruct (Z.eqb_spec (m_buf a) nullptr); [contradiction | reflexivity]. }
  cbv beta iota. rewrite (bind_Ok _ _ _ _ _ _ _ Hfree).
  pose proof (alloc_aligned_run byte_count answer a (l ++ [free (m_buf a)])) as Hal.
  cbv zeta. rewrite <- app_assoc in Hal. cbn [app] in Hal.
  destruct answer as [p |].
  - rewrite (bind_Ok _ _ _ _ _ _ _ Hal). rewrite set_buf_run.
    cbn [aligned_buf.buf aligned_buf.size].
    destruct (Z.eqb_spec byte_count 0) as [| _]; [contradiction |].
    rewrite orb_false_r. reflexivity.
  - rewrite (bind_Throw _ _ _ _ _ _ _ Hal). reflexivity.
Qed.


Lemma freed_app l l' : freed (l ++ l') = freed l ++ freed l'.
Proof. unfold freed. apply flat_map_app. Qed.
End dynamic_arena_facts.



(** C10: [dynamic_arena::alloc] with a non-zero byte count on an arena
    with a buffer, when [posix_memalign] fails: the buffer has been passed
    to [free] before the call of [posix_memalign], the exception of
    [overalign_alloc] leaves [alloc], and the arena is as before: [has_buf]
    is true and [get_buf] gives the address and the size of the freed
    buffer. *)
Theorem alloc_failure_keeps_the_freed_buffer `{Platform}
    (Alignment : Z) (a : arena_interf) (l : list event) (byte_count : Z) :
  byte_count <> 0 ->
  m_buf a <> nullptr -> m_size a <> 0 ->
  let r := alloc Alignment byte_count None a l in
  result r = Throw (posix_memalign_failed Alignment byte_count) /\
  log r = l ++ [free (m_buf a); posix_memalign Alignment byte_count None] /\
  state r = a /\
  result (has_buf (state r) (log r)) = Ok true /\
  result (get_buf (state r) (log r)) = Ok (aligned_buf.mk (m_buf a) (m_size a)) /\
  In (m_buf a) (freed (log r)).
Proof.
  intros Hbc Hb Hs. cbv zeta. rewrite alloc_attached by assumption.
  cbv zeta. cbn [result state log].
  split; [reflexivity |]. split; [reflexivity |]. split; [reflexivity |].
  split; [rewrite has_buf_attached by assumption; reflexivity |].
  split; [reflexivity |].
  rewrite freed_app. apply in_or_app. right. left. reflexivity.
Qed.

Lemma alloc_failure_keeps_the_freed_buffer_witness :
  let a := {| m_buf := 4096; m_size := 32; m_cursor := 4112 |} in
  let r := alloc 16 64 None a [] in
  result r = Throw (posix_memalign_failed 16 64) /\
  log r = [] ++ [free (m_buf a); posix_memalign 16 64 None] /\
  state r = a /\
  result (has_buf (state r) (log r)) = Ok true /\
  result (get_buf (state r) (log r)) = Ok (aligned_buf.mk (m_buf a) (m_size a)) /\
  In (m_buf a) (freed (log r)).
Proof.
  apply (alloc_failure_keeps_the_freed_buffer 16
           {| m_buf := 4096; m_size := 32; m_cursor := 4112 |} [] 64);
    unfold nullptr; cbn; lia.
Defined.

(* ================================================================= *)
(** * The allocator handle *)

(** C7: two handles compare equal exactly when they refer to the same
    arena object and have the same alignment parameter; [operator !=] is
    the negation.  Handles made from the same arena are equal whatever
    their element types, also after [rebind]; handles on two arena objects
    are unequal even when the two arenas have the same buffer, size, cursor
    and alignment. *)
Theorem allocator_equality_is_identity
    (h1 h2 : allocator.t) (T U : ctype) (A : Z) (ref ref' : Z)
    (σ : arenas) (a : arena_interf) :
  (allocator.eqb h1 h2 = true <->
     allocator.m_arena h1 = allocator.m_arena h2 /\
     allocator.Alignment h1 = allocator.Alignment h2) /\
  allocator.neqb h1 h2 = negb (allocator.eqb h1 h2) /\
  allocator.eqb (allocator.of_arena T A ref) (allocator.of_arena U A ref) = true /\
  allocator.eqb (allocator.of_allocator U h1) h1 = true /\
  (ref <> ref' -> σ !! ref = Some a -> σ !! ref' = Some a ->
     allocator.eqb (allocator.of_arena T A ref) (allocator.of_arena U A ref') = false /\
     allocator.neqb (allocator.of_arena T A ref) (allocator.of_arena U A ref') = true).
Proof.
  unfold allocator.neqb, allocator.eqb, allocator.of_arena, allocator.of_allocator.
  cbn [allocator.m_arena allocator.Alignment].
  split; [| split; [reflexivity | split; [| split]]].
  - rewrite andb_true_iff, !Z.eqb_eq. tauto.
  - rewrite !Z.eqb_refl. reflexivity.
  - rewrite !Z.eqb_refl. reflexivity.
  - intros Hne _ _. apply Z.eqb_neq in Hne. rewrite Hne, andb_false_r.
    split; reflexivity.
Qed.

Lemma allocator_equality_is_identity_witness :
  let a := {| m_buf := 4096; m_size := 64; m_cursor := 4096 |} in
  let T := {| sizeof := 4; alignof := 4 |} in
  let U := {| sizeof := 8; alignof := 8 |} in
  allocator.eqb (allocator.of_arena T 8 1000) (allocator.of_arena U 8 2000) = false /\
  allocator.neqb (allocator.of_arena T 8 1000) (allocator.of_arena U 8 2000) = true.
Proof.
  cbv zeta.
  apply (allocator_equality_is_identity
           (allocator.of_arena {| sizeof := 4; alignof := 4 |} 8 1000)
           (allocator.of_arena {| sizeof := 8; alignof := 8 |} 8 2000)
           {| sizeof := 4; alignof := 4 |} {| sizeof := 8; alignof := 8 |} 8 1000 2000
           (<[1000 := {| m_buf := 4096; m_size := 64; m_cursor := 4096 |}]>
              (<[2000 := {| m_buf := 4096; m_size := 64; m_cursor := 4096 |}]> ∅))
           {| m_buf := 4096; m_size := 64; m_cursor := 4096 |}).
  - lia.
  - reflexivity.
  - reflexivity.
Defined.

(* ================================================================= *)
(** * [svobuf] *)

Section svobuf_facts.
Context `{Platform}.

Lemma size_modulus_double : size_modulus = 2 * (std_vector.PTRDIFF_MAX + 1).
Proof.
  unfold size_modulus, std_vector.PTRDIFF_MAX. pose proof size_bits_pos.
  replace size_bits with (Z.succ (size_bits - 1)) at 1 by lia.
  rewrite Z.pow_succ_r by lia. lia.
Qed.

(** A multiple of the alignment is its own [aligned_size]. *)
Lemma aligned_size_multiple A n :
  valid_alignment A -> (A | n) -> 0 <= n <= SIZE_MAX - (A - 1) ->
  aligned_size A n = n.
Proof.
  intros HA [q ->] Hn. rewrite aligned_size_no_wrap by assumption.
  pose proof (valid_alignment_pos _ HA). unfold round_up.
  replace (q * A + A - 1) with (q * A + (A - 1)) by lia.
  rewrite Z.div_add_l by lia. rewrite (Z.div_small (A - 1) A) by lia. lia.
Qed.

Lemma fixed_arena_run ByteCount m_storage a l :
  0 < m_storage -> 0 < ByteCount -> m_storage + ByteCount < size_modulus ->
  fixed_arena ByteCount m_storage a l =
    Run (Ok tt) {| m_buf := m_storage; m_size := ByteCount; m_cursor := m_storage |} l.
Proof.
  intros Hs Hb He. unfold fixed_arena.
  rewrite (bind_Ok _ _ a l tt arena_default l) by reflexivity.
  apply set_buf_ok; cbn; lia.
Qed.

Lemma at_arena_run {A} ref (m : M arena_interf A) (σ : arenas) l a :
  σ !! ref = Some a ->
  at_arena ref m σ l = Run (result (m a l)) (<[ref := state (m a l)]> σ) (log (m a l)).
Proof. intros Hl. unfold at_arena. rewrite Hl. reflexivity. Qed.

Lemma unwind_Ok {S A} (m : M S A) cleanup s l x s' l' :
  m s l = Run (Ok x) s' l' -> unwind m cleanup s l = Run (Ok x) s' l'.
Proof. intros Hm. unfold unwind. rewrite Hm. reflexivity. Qed.

(** While the size is below the capacity, insertions neither touch the
    arenas nor call the C library. *)
Lemma push_back_all_within_capacity answers : forall (v : std_vector.t) (σ : arenas) l,
  std_vector.size v + Z.of_nat (length answers) <= std_vector.capacity v ->
  std_vector.push_back_all answers v σ l =
    Run (Ok (std_vector.mk (std_vector.get_allocator v) (std_vector.data v)
               (std_vector.size v + Z.of_nat (length answers))
               (std_vector.capacity v))) σ l.
Proof.
  induction answers as [| answer rest IH]; intros v σ l Hcap.
  - cbn. rewrite Z.add_0_r. destruct v; reflexivity.
  - cbn [std_vector.push_back_all length] in *.
    assert (Hpush : std_vector.push_back answer v σ l =
              Run (Ok (std_vector.mk (std_vector.get_allocator v) (std_vector.data v)
                         (std_vector.size v + 1) (std_vector.capacity v))) σ l).
    { unfold std_vector.push_back.
      destruct (Z.ltb_spec (std_vector.size v) (std_vector.capacity v)); [reflexivity | lia]. }
    rewrite (bind_Ok _ _ _ _ _ _ _ Hpush).
    rewrite IH by (cbn [std_vector.size std_vector.capacity]; lia).
    cbn [std_vector.get_allocator std_vector.data std_vector.size std_vector.capacity].
    do 3 f_equal. lia.
Qed.

Variables (T : ctype) (N this_arena m_storage : Z).
Hypothesis alignof_ok : valid_alignment (alignof T).
Hypothesis sizeof_pos : 0 < sizeof T.
Hypothesis sizeof_aligned : (alignof T | sizeof T).
Hypothesis N_pos : 0 < N.
Hypothesis storage_size : N * sizeof T <= std_vector.PTRDIFF_MAX.
Hypothesis storage_pos : 0 < m_storage.
Hypothesis storage_end : m_storage + N * sizeof T < size_modulus.

Lemma storage_bytes : size_mul N (sizeof T) = N * sizeof T.
Proof.
  apply to_size_t_small. unfold is_size_t. pose proof size_modulus_double. nia.
Qed.

Lemma reserve_from_inline_storage (σ : arenas) l answer :
  let a0 := {| m_buf := m_storage; m_size := N * sizeof T; m_cursor := m_storage |} in
  std_vector.reserve N answer
      (std_vector.empty (allocator.of_arena T (alignof T) this_arena))
      (<[this_arena := a0]> σ) l
  = Run (Ok (svobuf_vector T N this_arena m_storage))
        (<[this_arena := svobuf_arena T N m_storage]> σ) l.
Proof.
  intros a0. pose proof size_modulus_double as Hdouble.
  pose proof (valid_alignment_pos _ alignof_ok) as Hapos.
  assert (Hle : alignof T <= sizeof T) by (apply Z.divide_pos_le; assumption).
  assert (Hbytes : 0 < N * sizeof T) by nia.
  assert (Ha0 : arena_ok a0) by (unfold arena_ok; cbn; lia).
  unfold std_vector.reserve, std_vector.max_size, std_vector.empty.
  cbn [std_vector.get_allocator std_vector.capacity std_vector.size std_vector.data
       allocator.of_arena allocator.value_type].
  assert (Hmax : N <= Z.min (std_vector.PTRDIFF_MAX / sizeof T) (SIZE_MAX / sizeof T)).
  { apply Z.min_glb; apply Z.div_le_lower_bound; unfold SIZE_MAX; nia. }
  rewrite Z.gtb_ltb.
  destruct (Z.ltb_spec (Z.min (std_vector.PTRDIFF_MAX / sizeof T) (SIZE_MAX / sizeof T)) N);
    [lia |].
  destruct (Z.ltb_spec 0 N); [| lia].
  assert (Halloc :
    allocator.allocate (allocator.mk T (alignof T) this_arena) N answer
      (<[this_arena := a0]> σ) l
    = Run (Ok m_storage) (<[this_arena := svobuf_arena T N m_storage]> σ) l).
  { unfold allocator.allocate. cbn [allocator.m_arena allocator.Alignment allocator.value_type].
    rewrite (at_arena_run _ _ _ _ a0) by apply lookup_insert_eq.
    rewrite storage_bytes, (allocate_ok (alignof T) alignof_ok) by assumption.
    rewrite aligned_size_multiple;
      [| assumption | apply Z.divide_mul_r; assumption | unfold SIZE_MAX; nia].
    destruct (Z.eqb_spec (N * sizeof T) 0); [lia |].
    unfold remaining. cbn [m_buf m_size m_cursor a0].
    destruct (Z.leb_spec (N * sizeof T) (m_storage + N * sizeof T - m_storage)); [| lia].
    cbn [result state log]. rewrite insert_insert_eq. reflexivity. }
  rewrite (bind_Ok _ _ _ _ _ _ _ Halloc).
  rewrite (bind_Ok _ _ _ l tt (<[this_arena := svobuf_arena T N m_storage]> σ) l)
    by reflexivity.
  reflexivity.
Qed.

Lemma svobuf_ctor_run (σ : arenas) l answer :
  svobuf.ctor T N this_arena m_storage answer σ l
  = Run (Ok (svobuf.mk this_arena (svobuf_vector T N this_arena m_storage)))
        (<[this_arena := svobuf_arena T N m_storage]> σ) l.
Proof.
  unfold svobuf.ctor.
  assert (Hbytes : 0 < N * sizeof T) by nia.
  assert (Hctor :
    construct_at this_arena (fixed_arena (size_mul N (sizeof T)) m_storage) σ l
    = Run (Ok tt)
        (<[this_arena := {| m_buf := m_storage; m_size := N * sizeof T;
                            m_cursor := m_storage |}]> σ) l).
  { unfold construct_at. rewrite storage_bytes, fixed_arena_run by assumption.
    reflexivity. }
  rewrite (bind_Ok _ _ _ _ _ _ _ Hctor). cbv zeta.
  rewrite (bind_Ok _ _ _ _ _ _ _
             (unwind_Ok _ _ _ _ _ _ _ (reserve_from_inline_storage σ l answer))).
  unfold svobuf_vector. cbn [std_vector.capacity].
  rewrite Z.gtb_ltb, Z.ltb_irrefl. reflexivity.
Qed.
End svobuf_facts.

(** C8: the constructor of [svobuf<T, N>] returns with a vector of
    capacity [N] whose storage is the inline array of the [fixed_arena],
    obtained without any call of [posix_memalign]; the arena has then
    handed out all of its [N * sizeof(T)] bytes; and up to [N] insertions
    one after the other leave the arena and the log of library calls as
    they are, so the fallback path is not taken.  ([std::vector] is the
    model [std_vector]; [N] is positive and the array of [N * sizeof(T)]
    bytes is an object of the address space.) *)
Theorem svobuf_first_insertions_stay_inline `{Platform}
    (T : ctype) (N this_arena m_storage : Z) (answer : option Z)
    (answers : list (option Z)) (σ : arenas) (l : list event) :
  valid_alignment (alignof T) ->
  0 < sizeof T -> (alignof T | sizeof T) ->
  0 < N -> N * sizeof T <= std_vector.PTRDIFF_MAX ->
  0 < m_storage -> m_storage + N * sizeof T < size_modulus ->
  Z.of_nat (length answers) <= N ->
  let r := svobuf.ctor T N this_arena m_storage answer σ l in
  exists sv,
    result r = Ok sv /\
    log r = l /\
    N <= std_vector.capacity (svobuf.c sv) /\
    std_vector.size (svobuf.c sv) = 0 /\
    std_vector.data (svobuf.c sv) = m_storage /\
    state r !! this_arena = Some (svobuf_arena T N m_storage) /\
    result (used (svobuf_arena T N m_storage) l) = Ok (N * sizeof T) /\
    let r' := std_vector.push_back_all answers (svobuf.c sv) (state r) (log r) in
    exists v,
      result r' = Ok v /\
      log r' = l /\
      state r' = state r /\
      std_vector.size v = Z.of_nat (length answers) /\
      std_vector.data v = m_storage /\
      std_vector.capacity v = N.
Proof.
  intros HA Hsz Hdiv HN Hbytes Hs He Hlen. cbv zeta.
  rewrite svobuf_ctor_run by assumption. cbn [result state log svobuf.c].
  exists (svobuf.mk this_arena (svobuf_vector T N this_arena m_storage)).
  cbn [svobuf.c]. unfold svobuf_vector at 2 3 4.
  cbn [std_vector.capacity std_vector.size std_vector.data].
  split; [reflexivity |]. split; [reflexivity |]. split; [lia |].
  split; [reflexivity |]. split; [reflexivity |].
  split; [apply lookup_insert_eq |]. split.
  - rewrite used_ok; [cbn; f_equal; lia |].
    unfold arena_ok, svobuf_arena. cbn. nia.
  - rewrite push_back_all_within_capacity
      by (unfold svobuf_vector; cbn [std_vector.capacity std_vector.size]; lia).
    eexists. split; [reflexivity |]. cbn [log state result].
    unfold svobuf_vector. cbn [std_vector.capacity std_vector.size std_vector.data].
    repeat split; reflexivity.
Qed.

Lemma svobuf_first_insertions_stay_inline_witness :
  let T := {| sizeof := 4; alignof := 4 |} in
  let answers := [@None Z; None; None; None] in
  let r := svobuf.ctor T 4 1000 1008 None (∅ : arenas) [] in
  exists sv,
    result r = Ok sv /\
    log r = [] /\
    4 <= std_vector.capacity (svobuf.c sv) /\
    std_vector.size (svobuf.c sv) = 0 /\
    std_vector.data (svobuf.c sv) = 1008 /\
    state r !! 1000 = Some (svobuf_arena T 4 1008) /\
    result (used (svobuf_arena T 4 1008) []) = Ok (4 * sizeof T) /\
    let r' := std_vector.push_back_all answers (svobuf.c sv) (state r) (log r) in
    exists v,
      result r' = Ok v /\
      log r' = [] /\
      state r' = state r /\
      std_vector.size v = Z.of_nat (length answers) /\
      std_vector.data v = 1008 /\
      std_vector.capacity v = 4.
Proof.
  apply (svobuf_first_insertions_stay_inline {| sizeof := 4; alignof := 4 |}
           4 1000 1008 None [None; None; None; None] ∅ []).
  - split; [lp64_lia | reflexivity].
  - cbn; lia.
  - exists 1. reflexivity.
  - lia.
  - unfold std_vector.PTRDIFF_MAX. cbn. lia.
  - lia.
  - lp64_lia.
  - cbn. lia.
Defined.

(* ================================================================= *)
(** * Further properties of the code *)

(** ** Alignments and rounding *)

(** X1: [is_power2], line 37: on [size_t] the test [n > 0 && (n & (n - 1)) == 0]
    holds exactly for the powers of two. *)
Theorem is_power2_iff `{Platform} (n : Z) :
  is_size_t n ->
  (is_power2 n = true <-> exists k, 0 <= k < size_bits /\ n = 2 ^ k).
Proof.
  intros Hn. split.
  - apply is_power2_pow2. assumption.
  - intros (k & Hk & ->). apply pow2_is_power2. assumption.
Qed.

Lemma is_power2_iff_witness :
  is_power2 64 = true <-> exists k, 0 <= k < size_bits /\ 64 = 2 ^ k.
Proof. apply (is_power2_iff 64). lp64_lia. Defined.

(** X2: [check_alignment], line 42: an alignment is accepted exactly when
    it is a power of two and either at most [alignof(std::max_align_t)]
    or a multiple of [sizeof(void * )]; 0 and every value that is not a
    power of two are refused. *)
Theorem check_alignment_iff `{Platform} (alignment : Z) :
  is_size_t alignment ->
  (check_alignment alignment = true <->
     (exists k, 0 <= k < size_bits /\ alignment = 2 ^ k) /\
     (alignment <= alignof_max_align_t \/ alignment mod sizeof_void_p = 0)).
Proof.
  intros Hn. unfold check_alignment.
  destruct (is_power2 alignment) eqn:Hp; cbn [negb].
  - apply is_power2_pow2 in Hp as Hk; [| assumption].
    destruct (Z.leb_spec alignment alignof_max_align_t) as [Hle | Hgt].
    + split; [intros _; split; [assumption | left; assumption] | reflexivity].
    + rewrite Z.eqb_eq. split.
      * intros Hm. split; [assumption | right; assumption].
      * intros [_ [Hle | Hm]]; [lia | assumption].
  - split; [discriminate |]. intros [(k & Hk & ->) _].
    rewrite pow2_is_power2 in Hp by assumption. discriminate.
Qed.

Lemma check_alignment_iff_witness :
  check_alignment 64 = true <->
    (exists k, 0 <= k < size_bits /\ 64 = 2 ^ k) /\
    (64 <= alignof_max_align_t \/ 64 mod sizeof_void_p = 0).
Proof. apply (check_alignment_iff 64). lp64_lia. Defined.

(** X3: [aligned_size], line 155, below the wrap-around threshold: the
    padding it adds is less than the alignment, a multiple of the
    alignment is left as it is and nothing else is, and rounding twice
    is rounding once. *)
Theorem aligned_size_padding `{Platform} (Alignment byte_count : Z) :
  valid_alignment Alignment ->
  0 <= byte_count <= SIZE_MAX - (Alignment - 1) ->
  byte_count <= aligned_size Alignment byte_count < byte_count + Alignment /\
  (aligned_size Alignment byte_count = byte_count <-> byte_count mod Alignment = 0) /\
  aligned_size Alignment (aligned_size Alignment byte_count)
    = aligned_size Alignment byte_count.
Proof.
  intros HA Hbc. pose proof (valid_alignment_pos _ HA) as Hpos.
  pose proof (aligned_size_divide Alignment byte_count HA) as Hdiv.
  assert (Hrange : byte_count <= aligned_size Alignment byte_count < byte_count + Alignment).
  { rewrite aligned_size_no_wrap by assumption. unfold round_up.
    pose proof (Z.div_mod (byte_count + Alignment - 1) Alignment ltac:(lia)) as Hdm.
    pose proof (Z.mod_pos_bound (byte_count + Alignment - 1) Alignment Hpos).
    lia. }
  assert (Hmult : forall n, (Alignment | n) -> 0 <= n <= SIZE_MAX ->
                            n <= SIZE_MAX - (Alignment - 1)).
  { intros n [q ->] Hn. destruct (alignment_divides_modulus _ HA) as [m Hm].
    unfold SIZE_MAX in *. rewrite Hm in Hn |- *.
    assert (q < m) by nia. assert (q * Alignment + Alignment <= m * Alignment) by nia.
    lia. }
  split; [assumption |]. split.
  - split.
    + intros Heq. apply Z.mod_divide; [lia |]. rewrite <- Heq. assumption.
    + intros Hmod. apply aligned_size_multiple; [assumption | | assumption].
      apply Z.mod_divide; [lia | assumption].
  - apply aligned_size_multiple; [assumption | assumption |].
    split; [lia |]. apply Hmult; [assumption |]. unfold SIZE_MAX in *. lia.
Qed.

Lemma aligned_size_padding_witness :
  10 <= aligned_size 8 10 < 10 + 8 /\
  (aligned_size 8 10 = 10 <-> 10 mod 8 = 0) /\
  aligned_size 8 (aligned_size 8 10) = aligned_size 8 10.
Proof.
  apply (aligned_size_padding 8 10).
  - split; [lp64_lia | reflexivity].
  - lp64_lia.
Defined.

(** ** Attaching a buffer, and arenas without one *)

(** X4: [set_buf], line 81: a descriptor with a null pointer or a zero
    size is refused with an exception and the arena keeps its fields;
    any other descriptor is attached whatever was attached before: then
    [has_buf()] holds, [get_buf()] gives the descriptor back and
    [used()] is 0. *)
Theorem set_buf_attaches_or_throws `{Platform}
    (b : aligned_buf.t) (a : arena_interf) (l : list event) :
  (aligned_buf.buf b = nullptr \/ aligned_buf.size b = 0 ->
     set_buf b a l = Run (Throw empty_aligned_buf) a l) /\
  (aligned_buf.buf b <> nullptr -> aligned_buf.size b <> 0 ->
     let r := set_buf b a l in
     result r = Ok tt /\ log r = l /\
     result (has_buf (state r) l) = Ok true /\
     result (get_buf (state r) l) = Ok b /\
     result (used (state r) l) = Ok 0).
Proof.
  rewrite set_buf_run. split.
  - intros [Hb | Hs].
    + rewrite Hb, Z.eqb_refl. reflexivity.
    + rewrite Hs, Z.eqb_refl, orb_true_r. reflexivity.
  - intros Hb Hs. cbv zeta.
    destruct (Z.eqb_spec (aligned_buf.buf b) nullptr); [contradiction |].
    destruct (Z.eqb_spec (aligned_buf.size b) 0); [contradiction |].
    cbn [orb result state log].
    set (a' := {| m_buf := aligned_buf.buf b; m_size := aligned_buf.size b;
                  m_cursor := aligned_buf.buf b |}).
    assert (Hg : get_buf_ex a' l = Run (Ok b) a' l).
    { rewrite get_buf_ex_run. subst a'. cbn [m_buf m_size].
      destruct (Z.eqb_spec (aligned_buf.buf b) nullptr); [contradiction |].
      destruct (Z.eqb_spec (aligned_buf.size b) 0); [contradiction |].
      destruct b; reflexivity. }
    split; [reflexivity |]. split; [reflexivity |].
    split; [rewrite has_buf_attached by assumption; reflexivity |].
    split; [destruct b; reflexivity |].
    unfold used. rewrite (bind_Ok _ _ _ _ _ _ _ Hg).
    rewrite (bind_Ok _ _ a' l a' a' l) by reflexivity.
    subst a'. cbn [m_cursor result]. unfold mret, M_ret, ret, ptr_diff, to_size_t.
    cbn [result]. rewrite Z.sub_diag, Z.mod_0_l; [reflexivity |].
    pose proof size_modulus_pos. lia.
Qed.

Lemma set_buf_attaches_or_throws_witness :
  let r := set_buf (aligned_buf.mk 4096 64)
             {| m_buf := 8192; m_size := 32; m_cursor := 8200 |} [] in
  result r = Ok tt /\ log r = [] /\
  result (has_buf (state r) []) = Ok true /\
  result (get_buf (state r) []) = Ok (aligned_buf.mk 4096 64) /\
  result (used (state r) []) = Ok 0.
Proof.
  apply (set_buf_attaches_or_throws (aligned_buf.mk 4096 64)
           {| m_buf := 8192; m_size := 32; m_cursor := 8200 |} []);
    unfold nullptr; cbn; lia.
Defined.

(** X5: an arena without a buffer (a null pointer or a zero size, as
    after the default constructor or [dynamic_arena(0)]) rejects every
    operation: [get_buf_ex], [used], [reset], [in_buf] and [allocate],
    even of zero bytes, throw the exception of line 109, and the
    [noexcept] [deallocate] terminates the program; neither the arena nor
    the log of library calls changes. *)
Theorem arena_without_buffer_rejects `{Platform}
    (Alignment : Z) (a : arena_interf) (l : list event)
    (p byte_count : Z) (answer : option Z) :
  m_buf a = nullptr \/ m_size a = 0 ->
  has_buf a l = Run (Ok false) a l /\
  get_buf_ex a l = Run (Throw no_valid_buffer) a l /\
  used a l = Run (Throw no_valid_buffer) a l /\
  reset a l = Run (Throw no_valid_buffer) a l /\
  in_buf p a l = Run (Throw no_valid_buffer) a l /\
  allocate Alignment byte_count answer a l = Run (Throw no_valid_buffer) a l /\
  deallocate Alignment p byte_count a l = Run (Terminated no_valid_buffer) a l.
Proof.
  intros Hno.
  assert (Hb : negb (m_buf a =? nullptr) && negb (m_size a =? 0) = false).
  { destruct Hno as [-> | ->]; rewrite Z.eqb_refl; [reflexivity | apply andb_false_r]. }
  assert (Hg : get_buf_ex a l = Run (Throw no_valid_buffer) a l)
    by (rewrite get_buf_ex_run, Hb; reflexivity).
  assert (Hd : detect_outlive a l = Run (Throw no_valid_buffer) a l)
    by (rewrite detect_outlive_run, Hb; reflexivity).
  split.
  { unfold has_buf. rewrite (bind_Ok _ _ a l a a l) by reflexivity.
    unfold mret, M_ret, ret. rewrite Hb. reflexivity. }
  split; [assumption |].
  split; [unfold used; apply bind_Throw; assumption |].
  split; [unfold reset; apply bind_Throw; assumption |].
  split; [unfold in_buf; apply bind_Throw; assumption |].
  split; [unfold allocate; apply bind_Throw; assumption |].
  unfold deallocate, noexcept. rewrite (bind_Throw _ _ _ _ _ _ _ Hd). reflexivity.
Qed.

Lemma arena_without_buffer_rejects_witness :
  has_buf arena_default [] = Run (Ok false) arena_default [] /\
  get_buf_ex arena_default [] = Run (Throw no_valid_buffer) arena_default [] /\
  used arena_default [] = Run (Throw no_valid_buffer) arena_default [] /\
  reset arena_default [] = Run (Throw no_valid_buffer) arena_default [] /\
  in_buf 4096 arena_default [] = Run (Throw no_valid_buffer) arena_default [] /\
  allocate 8 0 None arena_default [] = Run (Throw no_valid_buffer) arena_default [] /\
  deallocate 8 4096 16 arena_default []
    = Run (Terminated no_valid_buffer) arena_default [].
Proof.
  apply (arena_without_buffer_rejects 8 arena_default [] 4096 16 None).
  left. reflexivity.
Defined.

(** ** Allocation, release and reset on an attached arena *)

Section arena_runs.
Context `{Platform}.
Variable Alignment : Z.
Hypothesis Alignment_ok : valid_alignment Alignment.

Lemma run_ops_keeps_ok ops : forall a l,
  arena_ok a ->
  let r := run_ops Alignment ops a l in
  arena_ok (state r) /\ m_buf (state r) = m_buf a /\ m_size (state r) = m_size a.
Proof.
  induction ops as [| o rest IH]; intros a l Ha; cbv zeta.
  - cbn. auto.
  - pose proof (run_op_keeps_ok Alignment Alignment_ok a l o Ha) as (Hok & Hbuf & Hsize).
    cbv zeta in *.
    cbn [run_ops]. unfold mbind, M_bind, bind.
    destruct (result (run_op Alignment o a l)) as [x | e | e |]; cbn [state];
      try (split; [| split]; assumption).
    specialize (IH (state (run_op Alignment o a l)) (log (run_op Alignment o a l)) Hok).
    cbv zeta in IH. destruct IH as (Hok' & Hbuf' & Hsize').
    destruct (result (run_ops Alignment rest _ _)); unfold mret, M_ret, ret;
      cbn [state]; (split; [| split]); first [assumption | congruence].
Qed.

Lemma consecutive_blocks_lower lo lo' calls ps hi :
  lo' <= lo -> consecutive_blocks lo calls ps hi -> consecutive_blocks lo' calls ps hi.
Proof.
  destruct calls as [| c calls], ps as [| p ps]; cbn; try tauto; [lia |].
  intros Hle [Hlo Hrest]. split; [lia | assumption].
Qed.

Lemma allocate_all_no_overlap calls : forall a l ps a',
  arena_ok a ->
  Forall (fun c => 0 < fst c <= SIZE_MAX - (Alignment - 1)) calls ->
  allocate_all Alignment calls a l = Run (Ok ps) a' l ->
  consecutive_blocks (m_cursor a) calls ps (m_cursor a').
Proof.
  induction calls as [| [byte_count answer] rest IH]; intros a l ps a' Ha Hcalls Hrun.
  - cbn in Hrun. injection Hrun as <- <-. cbn. lia.
  - inversion Hcalls as [| ? ? Hc Hrest]; subst. cbn [fst] in Hc.
    cbn [allocate_all fst snd] in Hrun. unfold mbind, M_bind, bind in Hrun.
    pose proof (allocate_preserves Alignment Alignment_ok a l byte_count answer Ha)
      as (Hok & _).
    revert Hrun Hok. rewrite (allocate_ok Alignment Alignment_ok) by assumption.
    destruct (Z.eqb_spec byte_count 0); [lia |].
    assert (Hge : byte_count <= aligned_size Alignment byte_count).
    { rewrite aligned_size_no_wrap by (try assumption; lia).
      apply (round_up_least Alignment byte_count).
      apply valid_alignment_pos, Alignment_ok. }
    destruct (Z.leb_spec (aligned_size Alignment byte_count) (remaining a)).
    + cbn [result state log]. intros Hrun Hok.
      destruct (allocate_all Alignment rest _ _) as [res2 a2 l2] eqn:Hrest2.
      cbn [result state log] in Hrun. destruct res2 as [ps2 | | |]; try discriminate.
      cbn in Hrun. injection Hrun as <- <- ->.
      cbn [consecutive_blocks fst]. split; [lia |].
      eapply consecutive_blocks_lower; [| eapply IH; eassumption].
      cbn [with_cursor m_cursor]. lia.
    + intros Hrun Hok. exfalso.
      assert (Hlog : exists a1 p, arena_ok a1 /\
                allocate_all Alignment rest a1
                  (l ++ [posix_memalign Alignment byte_count answer])
                = Run (Ok p) a' l).
      { destruct answer; cbn [result state log] in Hrun; [| discriminate].
        destruct (allocate_all Alignment rest _ _) as [res2 a2 l2] eqn:Hrest2.
        cbn [result state log] in Hrun. destruct res2 as [ps2 | | |]; try discriminate.
        cbn in Hrun. injection Hrun as <- <- ->. eauto. }
      destruct Hlog as (a1 & p & Ha1 & Hrun1).
      destruct (allocate_all_run Alignment Alignment_ok rest _ _ _ _ _ Ha1 Hrun1)
        as (_ & _ & _ & [evs Hevs] & _).
      apply (f_equal (@length event)) in Hevs.
      rewrite !length_app in Hevs. cbn in Hevs. lia.
Qed.
End arena_runs.

(** X6: [allocate], line 169, and [free_aligned], line 258: on an arena
    with a buffer [allocate(0)] returns the null pointer and changes
    nothing, and the null pointer can be given to [deallocate] with any
    byte count: nothing changes and [free] is not called. *)
Theorem allocate_zero_and_free_null `{Platform}
    (Alignment : Z) (a : arena_interf) (l : list event)
    (byte_count : Z) (answer : option Z) :
  valid_alignment Alignment ->
  arena_ok a ->
  allocate Alignment 0 answer a l = Run (Ok nullptr) a l /\
  deallocate Alignment nullptr byte_count a l = Run (Ok tt) a l.
Proof.
  intros HA Ha. split.
  - rewrite (allocate_ok Alignment HA) by assumption. reflexivity.
  - rewrite deallocate_ok by assumption. unfold nullptr, arena_ok in *.
    destruct (Z.leb_spec (m_buf a) 0); [lia | reflexivity].
Qed.

Lemma allocate_zero_and_free_null_witness :
  let a := {| m_buf := 4096; m_size := 64; m_cursor := 4112 |} in
  allocate 8 0 (Some 8192) a [] = Run (Ok nullptr) a [] /\
  deallocate 8 nullptr 24 a [] = Run (Ok tt) a [].
Proof.
  apply (allocate_zero_and_free_null 8
           {| m_buf := 4096; m_size := 64; m_cursor := 4112 |} [] 24 (Some 8192)).
  - split; [lp64_lia | reflexivity].
  - lp64_lia.
Defined.

(** X7: [reset], line 142: whatever calls of [allocate], [deallocate] and
    [reset] came before, after [reset()] [used()] is 0 and an allocation
    that fits the buffer is served from its start. *)
Theorem reset_forgets_history `{Platform}
    (Alignment : Z) (a : arena_interf) (l : list event) (ops : list op)
    (byte_count : Z) (answer : option Z) :
  valid_alignment Alignment ->
  arena_ok a ->
  byte_count <> 0 -> aligned_size Alignment byte_count <= m_size a ->
  let r0 := run_ops Alignment ops a l in
  let r := reset (state r0) (log r0) in
  result r = Ok tt /\ log r = log r0 /\
  result (used (state r) (log r)) = Ok 0 /\
  allocate Alignment byte_count answer (state r) (log r)
    = Run (Ok (m_buf a))
          (with_cursor a (m_buf a + aligned_size Alignment byte_count)) (log r0).
Proof.
  intros HA Ha Hbc Hfit. cbv zeta.
  pose proof (run_ops_keeps_ok Alignment HA ops a l Ha) as (Hok & Hbuf & Hsize).
  cbv zeta in *. set (a0 := state (run_ops Alignment ops a l)) in *.
  set (l0 := log (run_ops Alignment ops a l)).
  rewrite reset_ok by assumption. cbn [result state log].
  assert (Hok' : arena_ok (with_cursor a0 (m_buf a0)))
    by (unfold arena_ok in *; cbn; lia).
  split; [reflexivity |]. split; [reflexivity |].
  split; [rewrite used_ok by assumption; cbn; f_equal; lia |].
  rewrite (allocate_ok Alignment HA) by assumption.
  destruct (Z.eqb_spec byte_count 0); [contradiction |].
  unfold remaining. cbn [with_cursor m_buf m_size m_cursor].
  destruct (Z.leb_spec (aligned_size Alignment byte_count)
              (m_buf a0 + m_size a0 - m_buf a0)); [| lia].
  unfold with_cursor. cbn [m_buf m_size m_cursor]. rewrite Hbuf, Hsize. reflexivity.
Qed.

Lemma reset_forgets_history_witness :
  let a := {| m_buf := 4096; m_size := 64; m_cursor := 4096 |} in
  let ops := [op_allocate 10 None; op_allocate 24 None; op_deallocate 4096 10] in
  let r0 := run_ops 8 ops a [] in
  let r := reset (state r0) (log r0) in
  result r = Ok tt /\ log r = log r0 /\
  result (used (state r) (log r)) = Ok 0 /\
  allocate 8 60 None (state r) (log r)
    = Run (Ok (m_buf a)) (with_cursor a (m_buf a + aligned_size 8 60)) (log r0).
Proof.
  apply (reset_forgets_history 8
           {| m_buf := 4096; m_size := 64; m_cursor := 4096 |} []
           [op_allocate 10 None; op_allocate 24 None; op_deallocate 4096 10] 60 None).
  - split; [lp64_lia | reflexivity].
  - lp64_lia.
  - lia.
  - vm_compute. discriminate.
Defined.



(** X9: [allocate], lines 176-180: the blocks of a run of allocations
    of non-zero byte counts, each at most [SIZE_MAX - (Alignment - 1)],
    that were all served from the buffer lie one after the other, each of
    at least the bytes asked for, between the cursor before the run and
    the cursor after it, inside the buffer: no two of them overlap.
    (The rounding of a larger byte count wraps, and the block it is given
    is shorter than asked.) *)
Theorem bump_allocations_do_not_overlap `{Platform}
    (Alignment : Z) (a : arena_interf) (l : list event)
    (calls : list (Z * option Z)) (ps : list Z) (a' : arena_interf) :
  valid_alignment Alignment ->
  arena_ok a ->
  Forall (fun c => 0 < fst c <= SIZE_MAX - (Alignment - 1)) calls ->
  allocate_all Alignment calls a l = Run (Ok ps) a' l ->
  consecutive_blocks (m_cursor a) calls ps (m_cursor a') /\
  m_buf a <= m_cursor a /\ m_cursor a' <= m_buf a + m_size a.
Proof.
  intros HA Ha Hcalls Hrun.
  destruct (allocate_all_run Alignment HA calls a l ps a' l Ha Hrun)
    as (Ha' & Hbuf & Hsize & _).
  split; [eapply allocate_all_no_overlap; eassumption |].
  unfold arena_ok in *. lia.
Qed.

Lemma bump_allocations_do_not_overlap_witness :
  let a := {| m_buf := 4096; m_size := 64; m_cursor := 4096 |} in
  let a' := {| m_buf := 4096; m_size := 64; m_cursor := 4144 |} in
  let calls := [(10, @None Z); (24, @None Z); (3, @None Z)] in
  consecutive_blocks (m_cursor a) calls [4096; 4112; 4136] (m_cursor a') /\
  m_buf a <= m_cursor a /\ m_cursor a' <= m_buf a + m_size a.
Proof.
  apply (bump_allocations_do_not_overlap 8
           {| m_buf := 4096; m_size := 64; m_cursor := 4096 |} []
           [(10, @None Z); (24, @None Z); (3, @None Z)] [4096; 4112; 4136]
           {| m_buf := 4096; m_size := 64; m_cursor := 4144 |}).
  - split; [lp64_lia | reflexivity].
  - lp64_lia.
  - repeat constructor; lp64_lia.
  - reflexivity.
Defined.

(** X10: [allocate], line 189, then [deallocate], lines 208-210: a block
    that came from the fallback and does not start at the very end of the
    buffer is given to [free], once, when it is deallocated; the arena is
    the same before and after. *)
Theorem fallback_block_is_freed_once `{Platform}
    (Alignment : Z) (a : arena_interf) (l : list event) (byte_count q : Z) :
  valid_alignment Alignment ->
  arena_ok a ->
  0 < byte_count -> remaining a < aligned_size Alignment byte_count ->
  posix_memalign_conforms [(m_buf a, m_size a)] Alignment byte_count (Some q) = true ->
  q <> m_buf a + m_size a ->
  let r := allocate Alignment byte_count (Some q) a l in
  result r = Ok q /\
  deallocate Alignment q byte_count (state r) (log r)
    = Run (Ok tt) a (l ++ [posix_memalign Alignment byte_count (Some q); free q]).
Proof.
  intros HA Ha Hbc Hno Hq Hend. cbv zeta.
  rewrite (allocate_ok Alignment HA) by assumption.
  destruct (Z.eqb_spec byte_count 0); [lia |].
  destruct (Z.leb_spec (aligned_size Alignment byte_count) (remaining a)); [lia |].
  cbv zeta. cbn [result state log]. split; [reflexivity |].
  rewrite deallocate_ok by assumption.
  unfold posix_memalign_conforms in Hq. cbn [forallb fst snd] in Hq.
  rewrite andb_true_r in Hq. bool_facts.
  match goal with Hd : (_ || _) = true |- _ => apply orb_true_iff in Hd; destruct Hd as [Hd | Hd] end;
    [bool_facts; lia |].
  bool_facts.
  assert (Hout : (m_buf a <=? q) && (q <=? m_buf a + m_size a) = false).
  { apply andb_false_iff.
    match goal with Hd : (_ || _) = true |- _ => apply orb_true_iff in Hd; destruct Hd end;
      bool_facts; [left; apply Z.leb_gt; lia | right; apply Z.leb_gt; lia]. }
  rewrite Hout. unfold nullptr.
  destruct (Z.eqb_spec q 0); [lia |].
  rewrite <- app_assoc. reflexivity.
Qed.

Lemma fallback_block_is_freed_once_witness :
  let a := {| m_buf := 4096; m_size := 64; m_cursor := 4112 |} in
  let r := allocate 8 60 (Some 8192) a [] in
  result r = Ok 8192 /\
  deallocate 8 8192 60 (state r) (log r)
    = Run (Ok tt) a ([] ++ [posix_memalign 8 60 (Some 8192); free 8192]).
Proof.
  apply (fallback_block_is_freed_once 8
           {| m_buf := 4096; m_size := 64; m_cursor := 4112 |} [] 60 8192).
  - split; [lp64_lia | reflexivity].
  - lp64_lia.
  - lia.
  - vm_compute. reflexivity.
  - reflexivity.
  - cbn. lia.
Defined.

(** X11: [in_buf], line 151, counts the address one past the end of the
    buffer as part of the buffer.  A block of the fallback that starts
    there, which [posix_memalign] may well return, is therefore never
    given to [free]: [deallocate] takes the branch of line 197 and, the
    cursor being elsewhere, does nothing. *)
Theorem block_at_buffer_end_is_never_freed `{Platform}
    (Alignment : Z) (a : arena_interf) (l : list event) (byte_count : Z) :
  valid_alignment Alignment ->
  arena_ok a ->
  0 < byte_count <= SIZE_MAX - (Alignment - 1) ->
  remaining a < aligned_size Alignment byte_count ->
  aligned_size Alignment byte_count + m_buf a + m_size a < size_modulus ->
  let q := m_buf a + m_size a in
  let r := allocate Alignment byte_count (Some q) a l in
  let r' := deallocate Alignment q byte_count (state r) (log r) in
  (Alignment mod sizeof_void_p = 0 -> q mod Alignment = 0 ->
     posix_memalign_conforms [(m_buf a, m_size a)] Alignment byte_count (Some q) = true) /\
  result r = Ok q /\
  r' = Run (Ok tt) a (l ++ [posix_memalign Alignment byte_count (Some q)]) /\
  freed (log r') = freed l.
Proof.
  intros HA Ha Hbc Hno Hend. cbv zeta.
  assert (Hge : byte_count <= aligned_size Alignment byte_count).
  { rewrite aligned_size_no_wrap by (try assumption; lia).
    apply (round_up_least Alignment byte_count), valid_alignment_pos, HA. }
  split.
  { intros Hptr Hal. unfold posix_memalign_conforms. cbn [forallb fst snd].
    destruct HA as [_ Hc]. unfold check_alignment in Hc.
    destruct (is_power2 Alignment); [| discriminate].
    unfold arena_ok in Ha.
    repeat (apply andb_true_iff; split); try (apply Z.eqb_eq; assumption);
      try reflexivity.
    apply orb_true_iff. right.
    repeat (apply andb_true_iff; split); try reflexivity.
    - apply Z.ltb_lt. lia.
    - apply Z.ltb_lt. lia.
    - apply orb_true_iff. right. apply Z.leb_le. lia. }
  rewrite (allocate_ok Alignment HA) by assumption.
  destruct (Z.eqb_spec byte_count 0); [lia |].
  destruct (Z.leb_spec (aligned_size Alignment byte_count) (remaining a)); [lia |].
  cbv zeta. cbn [result state log]. split; [reflexivity |].
  rewrite deallocate_ok by assumption.
  unfold arena_ok in Ha.
  destruct (Z.leb_spec (m_buf a) (m_buf a + m_size a)); [| lia].
  destruct (Z.leb_spec (m_buf a + m_size a) (m_buf a + m_size a)); [| lia].
  cbn [andb]. unfold ptr_add.
  rewrite to_size_t_small by (unfold is_size_t; lia).
  destruct (Z.eqb_spec (m_buf a + m_size a + aligned_size Alignment byte_count)
              (m_cursor a)); [lia |].
  cbn [log]. split; [reflexivity |].
  rewrite freed_app. cbn. apply app_nil_r.
Qed.

Lemma block_at_buffer_end_is_never_freed_witness :
  let a := {| m_buf := 4096; m_size := 64; m_cursor := 4112 |} in
  let q := m_buf a + m_size a in
  let r := allocate 8 60 (Some q) a [] in
  let r' := deallocate 8 q 60 (state r) (log r) in
  (8 mod sizeof_void_p = 0 -> q mod 8 = 0 ->
     posix_memalign_conforms [(m_buf a, m_size a)] 8 60 (Some q) = true) /\
  result r = Ok q /\
  r' = Run (Ok tt) a ([] ++ [posix_memalign 8 60 (Some q)]) /\
  freed (log r') = freed [].
Proof.
  apply (block_at_buffer_end_is_never_freed 8
           {| m_buf := 4096; m_size := 64; m_cursor := 4112 |} [] 60).
  - split; [lp64_lia | reflexivity].
  - lp64_lia.
  - lp64_lia.
  - vm_compute. reflexivity.
  - vm_compute. reflexivity.
Defined.

(** X12: [deallocate], lines 197-200: as long as the rounded byte count
    and the size of the buffer together stay below [2^size_bits], so that
    the sum of line 198 cannot wrap onto the cursor, [deallocate] never
    moves the cursor forward: [used()] does not grow. *)
Theorem deallocate_never_grows_used `{Platform}
    (Alignment : Z) (a : arena_interf) (l : list event) (p byte_count : Z) :
  valid_alignment Alignment ->
  arena_ok a ->
  aligned_size Alignment byte_count + m_size a < size_modulus ->
  let r := deallocate Alignment p byte_count a l in
  m_cursor (state r) <= m_cursor a /\
  exists u u', result (used a l) = Ok u /\ result (used (state r) (log r)) = Ok u' /\
               u' <= u.
Proof.
  intros HA Ha Hsmall. cbv zeta.
  pose proof (deallocate_preserves Alignment a l p byte_count Ha) as (Hok & Hbuf & _).
  cbv zeta in Hok, Hbuf.
  assert (Hle : m_cursor (state (deallocate Alignment p byte_count a l)) <= m_cursor a).
  { rewrite deallocate_ok by assumption.
    pose proof (aligned_size_nonneg Alignment HA byte_count) as Hal.
    pose proof size_modulus_pos as Hmod.
    destruct ((m_buf a <=? p) && (p <=? m_buf a + m_size a)) eqn:Hin.
    - destruct (Z.eqb_spec (ptr_add p (aligned_size Alignment byte_count)) (m_cursor a))
        as [Htop |]; cbn [state with_cursor m_cursor]; [| lia].
      bool_facts. unfold arena_ok in Ha. unfold ptr_add, to_size_t in Htop.
      destruct (Z_lt_le_dec (p + aligned_size Alignment byte_count) size_modulus).
      + rewrite Z.mod_small in Htop by lia. lia.
      + replace (p + aligned_size Alignment byte_count)
          with (p + aligned_size Alignment byte_count - size_modulus + 1 * size_modulus)
          in Htop by lia.
        rewrite Z.mod_add, Z.mod_small in Htop by lia. lia.
    - destruct (p =? nullptr); cbn [state]; lia. }
  split; [assumption |].
  exists (m_cursor a - m_buf a),
         (m_cursor (state (deallocate Alignment p byte_count a l))
          - m_buf (state (deallocate Alignment p byte_count a l))).
  rewrite !used_ok by assumption. cbn [result].
  split; [reflexivity |]. split; [reflexivity |]. lia.
Qed.

Lemma deallocate_never_grows_used_witness :
  let a := {| m_buf := 4096; m_size := 64; m_cursor := 4136 |} in
  let r := deallocate 8 4112 24 a [] in
  m_cursor (state r) <= m_cursor a /\
  exists u u', result (used a []) = Ok u /\ result (used (state r) (log r)) = Ok u' /\
               u' <= u.
Proof.
  apply (deallocate_never_grows_used 8
           {| m_buf := 4096; m_size := 64; m_cursor := 4136 |} [] 4112 24).
  - split; [lp64_lia | reflexivity].
  - lp64_lia.
  - vm_compute. reflexivity.
Defined.

(** X13: [deallocate], line 198: the sum [p + aligned_size(byte_count)]
    wraps.  For every address [p] of the buffer that is above the cursor
    by a multiple [d] of the alignment, [deallocate(p, 2^size_bits - d)]
    passes the test of line 198 and moves the cursor forward to [p]:
    [used()] grows without any allocation. *)
Theorem deallocate_can_advance_cursor `{Platform}
    (Alignment : Z) (a : arena_interf) (l : list event) (p : Z) :
  valid_alignment Alignment ->
  arena_ok a ->
  m_cursor a < p <= m_buf a + m_size a ->
  (Alignment | p - m_cursor a) ->
  let byte_count := size_modulus - (p - m_cursor a) in
  is_size_t byte_count /\
  deallocate Alignment p byte_count a l = Run (Ok tt) (with_cursor a p) l /\
  result (used a l) = Ok (m_cursor a - m_buf a) /\
  result (used (with_cursor a p) l) = Ok (p - m_buf a) /\
  m_cursor a - m_buf a < p - m_buf a.
Proof.
  intros HA Ha Hp Hd. cbv zeta.
  pose proof (valid_alignment_pos _ HA) as Hpos.
  pose proof size_modulus_pos as Hmod.
  assert (HdA : Alignment <= p - m_cursor a) by (apply Z.divide_pos_le; [lia | assumption]).
  assert (Hbuf : 0 < m_buf a /\ m_buf a + m_size a < size_modulus /\
                 m_buf a <= m_cursor a) by (unfold arena_ok in Ha; lia).
  assert (Hbc : is_size_t (size_modulus - (p - m_cursor a))) by (unfold is_size_t; lia).
  assert (Hal : aligned_size Alignment (size_modulus - (p - m_cursor a))
                = size_modulus - (p - m_cursor a)).
  { apply aligned_size_multiple; [assumption | | unfold SIZE_MAX, is_size_t in *; lia].
    apply Z.divide_sub_r; [apply alignment_divides_modulus |]; assumption. }
  split; [assumption |].
  rewrite deallocate_ok by assumption. rewrite Hal.
  destruct (Z.leb_spec (m_buf a) p); [| lia].
  destruct (Z.leb_spec p (m_buf a + m_size a)); [| lia]. cbn [andb].
  assert (Htop : ptr_add p (size_modulus - (p - m_cursor a)) = m_cursor a).
  { unfold ptr_add, to_size_t.
    replace (p + (size_modulus - (p - m_cursor a)))
      with (m_cursor a + 1 * size_modulus) by lia.
    rewrite Z.mod_add, Z.mod_small by lia. reflexivity. }
  rewrite Htop, Z.eqb_refl. split; [reflexivity |].
  rewrite !used_ok; [| unfold arena_ok in *; cbn; lia | assumption].
  cbn [with_cursor m_cursor m_buf]. split; [reflexivity |]. split; [reflexivity |]. lia.
Qed.

Lemma deallocate_can_advance_cursor_witness :
  let a := {| m_buf := 4096; m_size := 64; m_cursor := 4096 |} in
  let byte_count := size_modulus - (4144 - m_cursor a) in
  is_size_t byte_count /\
  deallocate 8 4144 byte_count a [] = Run (Ok tt) (with_cursor a 4144) [] /\
  result (used a []) = Ok (m_cursor a - m_buf a) /\
  result (used (with_cursor a 4144) []) = Ok (4144 - m_buf a) /\
  m_cursor a - m_buf a < 4144 - m_buf a.
Proof.
  apply (deallocate_can_advance_cursor 8
           {| m_buf := 4096; m_size := 64; m_cursor := 4096 |} [] 4144).
  - split; [lp64_lia | reflexivity].
  - lp64_lia.
  - lp64_lia.
  - exists 6. reflexivity.
Defined.

(** X14: [overalign_alloc], line 225, calls [posix_memalign] with the
    alignment of the arena, whatever it is.  [check_alignment] accepts
    alignments that are not multiples of [sizeof(void * )] (1, 2 and 4 on
    a 64-bit platform), which [posix_memalign] rejects: on such an arena
    every request that does not fit the buffer ends in the exception of
    line 228. *)
Theorem small_alignment_has_no_fallback `{Platform}
    (Alignment : Z) (a : arena_interf) (l : list event)
    (byte_count : Z) (answer : option Z) :
  valid_alignment Alignment ->
  Alignment mod sizeof_void_p <> 0 ->
  arena_ok a ->
  byte_count <> 0 -> remaining a < aligned_size Alignment byte_count ->
  posix_memalign_conforms [(m_buf a, m_size a)] Alignment byte_count answer = true ->
  answer = None /\
  allocate Alignment byte_count answer a l
    = Run (Throw (posix_memalign_failed Alignment byte_count)) a
          (l ++ [posix_memalign Alignment byte_count None]).
Proof.
  intros HA Hptr Ha Hbc Hno Hans.
  assert (Hnone : answer = None).
  { destruct answer as [q |]; [| reflexivity].
    unfold posix_memalign_conforms in Hans. bool_facts. contradiction. }
  split; [assumption |]. subst answer.
  rewrite (allocate_ok Alignment HA) by assumption.
  destruct (Z.eqb_spec byte_count 0); [contradiction |].
  destruct (Z.leb_spec (aligned_size Alignment byte_count) (remaining a)); [lia |].
  reflexivity.
Qed.

Lemma small_alignment_has_no_fallback_witness :
  let a := {| m_buf := 4096; m_size := 16; m_cursor := 4112 |} in
  @None Z = None /\
  allocate 4 32 None a []
    = Run (Throw (posix_memalign_failed 4 32)) a ([] ++ [posix_memalign 4 32 None]).
Proof.
  apply (small_alignment_has_no_fallback 4
           {| m_buf := 4096; m_size := 16; m_cursor := 4112 |} [] 32 None).
  - split; [lp64_lia | reflexivity].
  - vm_compute. discriminate.
  - lp64_lia.
  - lia.
  - vm_compute. reflexivity.
  - reflexivity.
Defined.

Section arena_outcomes.
Context `{Platform}.
Variable Alignment : Z.
Hypothesis Alignment_ok : valid_alignment Alignment.

Lemma run_op_outcome a l o :
  arena_ok a -> returns_or_lacks_memory Alignment (result (run_op Alignment o a l)).
Proof.
  intros Ha. destruct o as [byte_count answer | p byte_count |];
    unfold run_op, mbind, M_bind, bind.
  - rewrite (allocate_ok Alignment Alignment_ok) by assumption.
    repeat case_if; try destruct answer; cbn [result]; unfold mret, M_ret, ret;
      cbn [result]; first [left; eexists; reflexivity | right; eexists; reflexivity].
  - pose proof (deallocate_preserves Alignment a l p byte_count Ha) as (_ & _ & _ & Hres).
    cbv zeta in Hres. rewrite Hres. left. eexists. reflexivity.
  - rewrite reset_ok by assumption. left. eexists. reflexivity.
Qed.

Lemma run_ops_outcome ops : forall a l,
  arena_ok a -> returns_or_lacks_memory Alignment (result (run_ops Alignment ops a l)).
Proof.
  induction ops as [| o rest IH]; intros a l Ha.
  - left. eexists. reflexivity.
  - pose proof (run_op_outcome a l o Ha) as Ho.
    pose proof (run_op_keeps_ok Alignment Alignment_ok a l o Ha) as (Hok & _).
    cbv zeta in Hok. cbn [run_ops]. unfold mbind, M_bind, bind.
    destruct Ho as [[x Hx] | [n Hn]].
    + rewrite Hx.
      specialize (IH (state (run_op Alignment o a l)) (log (run_op Alignment o a l)) Hok).
      destruct IH as [[xs Hxs] | [n Hn]].
      * rewrite Hxs. left. eexists. reflexivity.
      * rewrite Hn. right. eexists. reflexivity.
    + rewrite Hn. right. eexists. reflexivity.
Qed.
End arena_outcomes.

(** X15: [allocate], [deallocate] and [reset] never touch the buffer
    descriptor.  Whatever calls a client makes on an attached arena, with
    whatever byte counts and answers of [posix_memalign], and with
    pointers such that every call of [free] that the run makes is given a
    block of [posix_memalign] not freed since, the arena keeps its
    buffer, [used()] stays between 0 and the size of the buffer, and the
    run ends either normally or in the exception of a failed
    [posix_memalign]: the lifetime check never trips. *)
Theorem calls_keep_the_arena_sound `{Platform}
    (Alignment : Z) (a : arena_interf) (l : list event) (ops : list op) :
  valid_alignment Alignment ->
  arena_ok a ->
  let r := run_ops Alignment ops a l in
  frees_defined (log r) ->
  m_buf (state r) = m_buf a /\ m_size (state r) = m_size a /\
  result (has_buf (state r) (log r)) = Ok true /\
  (exists u, result (used (state r) (log r)) = Ok u /\ 0 <= u <= m_size a) /\
  ((exists rs, result r = Ok rs) \/
   (exists n, result r = Throw (posix_memalign_failed Alignment n))).
Proof.
  intros HA Ha. cbv zeta. intros _.
  pose proof (run_ops_keeps_ok Alignment HA ops a l Ha) as (Hok & Hbuf & Hsize).
  cbv zeta in *.
  split; [assumption |]. split; [assumption |].
  split; [rewrite has_buf_ok by assumption; reflexivity |].
  split.
  - eexists. rewrite used_ok by assumption. split; [reflexivity |].
    unfold arena_ok in Hok. lia.
  - apply run_ops_outcome; assumption.
Qed.

Lemma calls_keep_the_arena_sound_witness :
  let a := {| m_buf := 4096; m_size := 64; m_cursor := 4096 |} in
  let ops := [op_allocate 10 None; op_deallocate 4100 7; op_allocate 100 (Some 8192);
              op_deallocate 8192 100; op_reset; op_allocate 64 None] in
  let r := run_ops 8 ops a [] in
  log r = [posix_memalign 8 100 (Some 8192); free 8192] /\
  m_buf (state r) = m_buf a /\ m_size (state r) = m_size a /\
  result (has_buf (state r) (log r)) = Ok true /\
  (exists u, result (used (state r) (log r)) = Ok u /\ 0 <= u <= m_size a) /\
  ((exists rs, result r = Ok rs) \/
   (exists n, result r = Throw (posix_memalign_failed 8 n))).
Proof.
  cbv zeta.
  assert (Hlog : log (run_ops 8 [op_allocate 10 None; op_deallocate 4100 7;
                                 op_allocate 100 (Some 8192); op_deallocate 8192 100;
                                 op_reset; op_allocate 64 None]
                        {| m_buf := 4096; m_size := 64; m_cursor := 4096 |} [])
                 = [posix_memalign 8 100 (Some 8192); free 8192])
    by (vm_compute; reflexivity).
  split; [exact Hlog |].
  apply (calls_keep_the_arena_sound 8
           {| m_buf := 4096; m_size := 64; m_cursor := 4096 |} []).
  - split; [lp64_lia | reflexivity].
  - lp64_lia.
  - rewrite Hlog. cbn. tauto.
Defined.

(** X16: which calls into the C library each operation can make, on an
    attached arena: [allocate] makes at most one call of [posix_memalign]
    and never calls [free]; [deallocate] never calls [posix_memalign] and
    makes at most one call of [free], on the pointer it was given, and
    only when that pointer is neither null nor in the buffer; [reset]
    makes none. *)
Theorem library_calls_of_each_operation `{Platform}
    (Alignment : Z) (a : arena_interf) (l : list event)
    (p byte_count : Z) (answer : option Z) :
  valid_alignment Alignment ->
  arena_ok a ->
  (log (allocate Alignment byte_count answer a l) = l \/
   log (allocate Alignment byte_count answer a l)
     = l ++ [posix_memalign Alignment byte_count answer]) /\
  freed (log (allocate Alignment byte_count answer a l)) = freed l /\
  (log (deallocate Alignment p byte_count a l) = l \/
   log (deallocate Alignment p byte_count a l) = l ++ [free p] /\
   p <> nullptr /\ ~ (m_buf a <= p <= m_buf a + m_size a)) /\
  allocated (log (deallocate Alignment p byte_count a l)) = allocated l /\
  log (reset a l) = l.
Proof.
  intros HA Ha.
  rewrite (allocate_ok Alignment HA), deallocate_ok, reset_ok by assumption.
  assert (Hf : freed (l ++ [posix_memalign Alignment byte_count answer]) = freed l)
    by (rewrite freed_app; cbn; apply app_nil_r).
  assert (Hp : allocated (l ++ [free p]) = allocated l).
  { unfold allocated. rewrite flat_map_app. cbn. apply app_nil_r. }
  split; [| split; [| split; [| split]]].
  - repeat case_if; try destruct answer; cbn [log]; auto.
  - repeat case_if; try destruct answer; cbn [log]; auto.
  - destruct ((m_buf a <=? p) && (p <=? m_buf a + m_size a)) eqn:Hin.
    + case_if; cbn [log]; auto.
    + destruct (Z.eqb_spec p nullptr); cbn [log]; [auto |].
      right. split; [reflexivity |]. split; [assumption |].
      apply andb_false_iff in Hin. destruct Hin; bool_facts; lia.
  - repeat case_if; cbn [log]; auto.
  - reflexivity.
Qed.

Lemma library_calls_of_each_operation_witness :
  let a := {| m_buf := 4096; m_size := 64; m_cursor := 4112 |} in
  (log (allocate 8 60 (Some 8192) a []) = [] \/
   log (allocate 8 60 (Some 8192) a []) = [] ++ [posix_memalign 8 60 (Some 8192)]) /\
  freed (log (allocate 8 60 (Some 8192) a [])) = freed [] /\
  (log (deallocate 8 8192 60 a []) = [] \/
   log (deallocate 8 8192 60 a []) = [] ++ [free 8192] /\
   8192 <> nullptr /\ ~ (m_buf a <= 8192 <= m_buf a + m_size a)) /\
  allocated (log (deallocate 8 8192 60 a [])) = allocated [] /\
  log (reset a []) = [].
Proof.
  apply (library_calls_of_each_operation 8
           {| m_buf := 4096; m_size := 64; m_cursor := 4112 |} [] 8192 60 (Some 8192)).
  - split; [lp64_lia | reflexivity].
  - lp64_lia.
Defined.

(** ** The life of a [dynamic_arena] *)

Section dynamic_arena_runs.
Context `{Platform}.
Variable Alignment : Z.

Lemma has_buf_run a l :
  has_buf a l = Run (Ok (negb (m_buf a =? nullptr) && negb (m_size a =? 0))) a l.
Proof. unfold has_buf. rewrite (bind_Ok _ _ a l a a l) by reflexivity. reflexivity. Qed.

Lemma held_attached a :
  negb (m_buf a =? nullptr) && negb (m_size a =? 0) = true ->
  held a = [m_buf a] /\ m_buf a <> nullptr /\ m_size a <> 0.
Proof.
  intros Hb. unfold held. rewrite Hb. bool_facts. auto.
Qed.

(** The buffer that is held is released and the fields are cleared. *)
Lemma dynamic_arena_dtor_run a l :
  dynamic_arena_dtor a l = Run (Ok tt) arena_default (l ++ map free (held a)).
Proof.
  unfold dynamic_arena_dtor. rewrite (bind_Ok _ _ _ _ _ _ _ (has_buf_run a l)).
  destruct (negb (m_buf a =? nullptr) && negb (m_size a =? 0)) eqn:Hb; cbv beta iota.
  - destruct (held_attached a Hb) as (-> & Hbuf & _).
    assert (Hfree : (get_buf ≫= λ b, free_aligned (aligned_buf.buf b)) a l
                    = Run (Ok tt) a (l ++ [free (m_buf a)])).
    { rewrite (bind_Ok _ _ a l (aligned_buf.mk (m_buf a) (m_size a)) a l) by reflexivity.
      unfold free_aligned, overalign_free. cbn [aligned_buf.buf].
      destruct (Z.eqb_spec (m_buf a) nullptr); [contradiction | reflexivity]. }
    rewrite (bind_Ok _ _ _ _ _ _ _ Hfree). reflexivity.
  - unfold held. rewrite Hb. cbn [map]. rewrite app_nil_r.
    rewrite (bind_Ok _ _ a l tt a l) by reflexivity. reflexivity.
Qed.

(** [alloc] with a non-zero byte count on any arena. *)
Lemma alloc_run a l byte_count answer :
  byte_count <> 0 ->
  alloc Alignment byte_count answer a l =
    let l' := l ++ map free (held a) ++ [posix_memalign Alignment byte_count answer] in
    match answer with
    | None => Run (Throw (posix_memalign_failed Alignment byte_count)) a l'
    | Some p =>
        if p =? nullptr then Run (Throw empty_aligned_buf) a l'
        else Run (Ok tt) {| m_buf := p; m_size := byte_count; m_cursor := p |} l'
    end.
Proof.
  intros Hbc.
  destruct (negb (m_buf a =? nullptr) && negb (m_size a =? 0)) eqn:Hb.
  - destruct (held_attached a Hb) as (-> & Hbuf & Hsize).
    rewrite alloc_attached by assumption. reflexivity.
  - unfold held. rewrite Hb. cbn [map app]. unfold alloc.
    destruct (Z.eqb_spec byte_count 0) as [| _]; [contradiction |].
    rewrite (bind_Ok _ _ _ _ _ _ _ (has_buf_run a l)). rewrite Hb. cbv beta iota.
    rewrite (bind_Ok _ _ a l tt a l) by reflexivity.
    pose proof (alloc_aligned_run Alignment byte_count answer a l) as Hal.
    cbv zeta. destruct answer as [p |].
    + rewrite (bind_Ok _ _ _ _ _ _ _ Hal). rewrite set_buf_run.
      cbn [aligned_buf.buf aligned_buf.size].
      destruct (Z.eqb_spec byte_count 0) as [| _]; [contradiction |].
      rewrite orb_false_r. reflexivity.
    + rewrite (bind_Throw _ _ _ _ _ _ _ Hal). reflexivity.
Qed.

Lemma freed_map_free ps : freed (map free ps) = ps.
Proof. induction ps as [| p ps IH]; [reflexivity |]. cbn. f_equal. exact IH. Qed.

Lemma allocated_app l l' : allocated (l ++ l') = allocated l ++ allocated l'.
Proof. unfold allocated. apply flat_map_app. Qed.

Lemma allocated_map_free ps : allocated (map free ps) = [].
Proof. induction ps as [| p ps IH]; [reflexivity |]. exact IH. Qed.

(** Reallocations that are all answered: the blocks obtained are those
    of the answers, and each buffer is freed when the next one is asked
    for, so that what has been freed and what is held make up what the
    arena held and obtained. *)
Lemma alloc_all_run calls : forall a l,
  answered calls ->
  let r := alloc_all Alignment calls a l in
  result r = Ok tt /\
  allocated (log r) = allocated l ++ blocks_of calls /\
  freed (log r) ++ held (state r) = freed l ++ held a ++ blocks_of calls.
Proof.
  induction calls as [| [byte_count answer] rest IH]; intros a l Hans; cbv zeta.
  - cbn. rewrite !app_nil_r. auto.
  - inversion Hans as [| ? ? [Hbc (p & Hp & Hnull)] Hrest]; subst.
    cbn [fst snd] in *. subst answer.
    cbn [alloc_all fst snd].
    assert (Hstep : alloc Alignment byte_count (Some p) a l
              = Run (Ok tt) {| m_buf := p; m_size := byte_count; m_cursor := p |}
                    (l ++ map free (held a)
                       ++ [posix_memalign Alignment byte_count (Some p)])).
    { rewrite alloc_run by assumption. cbv zeta.
      destruct (Z.eqb_spec p nullptr); [contradiction | reflexivity]. }
    rewrite (bind_Ok _ _ _ _ _ _ _ Hstep).
    specialize (IH {| m_buf := p; m_size := byte_count; m_cursor := p |}
                  (l ++ map free (held a)
                     ++ [posix_memalign Alignment byte_count (Some p)]) Hrest).
    cbv zeta in IH. destruct IH as (Hres & Hall & Hfr).
    split; [assumption |]. split.
    + rewrite Hall, !allocated_app, allocated_map_free. cbn.
      rewrite <- app_assoc. reflexivity.
    + rewrite Hfr, !freed_app, freed_map_free.
      assert (Hheld : held {| m_buf := p; m_size := byte_count; m_cursor := p |} = [p]).
      { unfold held. cbn [m_buf m_size].
        destruct (Z.eqb_spec p nullptr); [contradiction |].
        destruct (Z.eqb_spec byte_count 0); [contradiction | reflexivity]. }
      rewrite Hheld. cbn. rewrite app_nil_r, <- !app_assoc. reflexivity.
Qed.
End dynamic_arena_runs.

(** X17: the life of a [dynamic_arena], lines 297-330: constructed with
    any size (0 means no buffer), reallocated any number of times and
    destroyed, with [posix_memalign] answering each request: every block
    obtained is given to [free] exactly once, in the order obtained, and
    nothing else is; the destructor leaves the fields cleared. *)
Theorem dynamic_arena_frees_what_it_allocates `{Platform}
    (Alignment : Z) (a : arena_interf) (l : list event)
    (byte_count : Z) (answer : option Z) (calls : list (Z * option Z)) :
  byte_count = 0 \/ (exists p, answer = Some p /\ p <> nullptr) ->
  answered calls ->
  let r := dynamic_arena_life Alignment byte_count answer calls a l in
  let blocks :=
    (if byte_count =? 0 then [] else blocks_of [(byte_count, answer)]) ++ blocks_of calls in
  result r = Ok tt /\
  state r = arena_default /\
  allocated (log r) = allocated l ++ blocks /\
  freed (log r) = freed l ++ blocks.
Proof.
  intros Hfirst Hcalls. cbv zeta. unfold dynamic_arena_life.
  assert (Hctor : exists a1 l1,
            dynamic_arena Alignment byte_count answer a l = Run (Ok tt) a1 l1 /\
            allocated l1 = allocated l
              ++ (if byte_count =? 0 then [] else blocks_of [(byte_count, answer)]) /\
            freed l1 ++ held a1 = freed l
              ++ (if byte_count =? 0 then [] else blocks_of [(byte_count, answer)])).
  { unfold dynamic_arena.
    rewrite (bind_Ok _ _ a l tt arena_default l) by reflexivity.
    destruct (Z.eqb_spec byte_count 0) as [Hz | Hnz].
    - exists arena_default, l. rewrite !app_nil_r. auto.
    - destruct Hfirst as [| (p & -> & Hp)]; [contradiction |].
      rewrite alloc_run by assumption. cbv zeta.
      destruct (Z.eqb_spec p nullptr); [contradiction |].
      eexists _, _. split; [reflexivity |]. cbn [held m_buf m_size map app].
      rewrite allocated_app, freed_app. cbn.
      unfold held. cbn [m_buf m_size].
      destruct (Z.eqb_spec p nullptr); [contradiction |].
      destruct (Z.eqb_spec byte_count 0); [contradiction |].
      cbn. rewrite app_nil_r. auto. }
  destruct Hctor as (a1 & l1 & Hctor & Hall1 & Hfr1).
  rewrite (bind_Ok _ _ _ _ _ _ _ Hctor).
  pose proof (alloc_all_run Alignment calls a1 l1 Hcalls) as (Hres & Hall & Hfr).
  cbv zeta in *.
  destruct (alloc_all Alignment calls a1 l1) as [res2 a2 l2] eqn:Hrun.
  cbn [result state log] in *. subst res2.
  rewrite (bind_Ok _ _ _ _ _ _ _ Hrun).
  rewrite dynamic_arena_dtor_run. cbn [result state log].
  split; [reflexivity |]. split; [reflexivity |]. split.
  - rewrite allocated_app, allocated_map_free, app_nil_r, Hall, Hall1.
    rewrite <- app_assoc. reflexivity.
  - rewrite freed_app, freed_map_free, Hfr.
    rewrite app_assoc, Hfr1, <- app_assoc. reflexivity.
Qed.

Lemma dynamic_arena_frees_what_it_allocates_witness :
  let calls := [(64, Some 8192); (16, Some 4096); (128, Some 12288)] in
  let r := dynamic_arena_life 16 32 (Some 4096) calls arena_default [] in
  let blocks := (if 32 =? 0 then [] else blocks_of [(32, Some 4096)]) ++ blocks_of calls in
  result r = Ok tt /\
  state r = arena_default /\
  allocated (log r) = allocated [] ++ blocks /\
  freed (log r) = freed [] ++ blocks.
Proof.
  apply (dynamic_arena_frees_what_it_allocates 16 arena_default [] 32 (Some 4096)
           [(64, Some 8192); (16, Some 4096); (128, Some 12288)]).
  - right. exists 4096. split; [reflexivity | unfold nullptr; lia].
  - repeat constructor; cbn; try lia; eexists; (split; [reflexivity | unfold nullptr; lia]).
Defined.

(** X18: [dynamic_arena::alloc], lines 326-329, after a failure: the
    arena still holds the descriptor of the buffer it has freed, so the
    destructor, line 315, gives that buffer to [free] a second time, and
    so does a later call of [alloc], line 327. *)
Theorem failed_alloc_leads_to_double_free `{Platform}
    (Alignment : Z) (a : arena_interf) (l : list event)
    (byte_count byte_count' : Z) (answer : option Z) :
  byte_count <> 0 -> byte_count' <> 0 ->
  m_buf a <> nullptr -> m_size a <> 0 ->
  let r := alloc Alignment byte_count None a l in
  result r = Throw (posix_memalign_failed Alignment byte_count) /\
  freed (log r) = freed l ++ [m_buf a] /\
  freed (log (dynamic_arena_dtor (state r) (log r))) = freed l ++ [m_buf a; m_buf a] /\
  freed (log (alloc Alignment byte_count' answer (state r) (log r)))
    = freed l ++ [m_buf a; m_buf a].
Proof.
  intros Hbc Hbc' Hb Hs. cbv zeta.
  assert (Hheld : held a = [m_buf a]).
  { unfold held. destruct (Z.eqb_spec (m_buf a) nullptr); [contradiction |].
    destruct (Z.eqb_spec (m_size a) 0); [contradiction | reflexivity]. }
  rewrite (alloc_run Alignment a l byte_count None Hbc). cbv zeta.
  cbn [result state log]. rewrite Hheld. cbn [map app].
  split; [reflexivity |]. split; [rewrite freed_app; reflexivity |]. split.
  - rewrite dynamic_arena_dtor_run. cbn [log]. rewrite Hheld.
    rewrite !freed_app. cbn. rewrite <- app_assoc. reflexivity.
  - rewrite (alloc_run Alignment a _ byte_count' answer Hbc'). cbv zeta.
    rewrite Hheld.
    assert (Hlog : freed ((l ++ [free (m_buf a); posix_memalign Alignment byte_count None])
                          ++ map free [m_buf a]
                          ++ [posix_memalign Alignment byte_count' answer])
                   = freed l ++ [m_buf a; m_buf a]).
    { rewrite !freed_app. cbn. rewrite <- app_assoc. reflexivity. }
    destruct answer as [q |]; [destruct (q =? nullptr) |]; cbn [log]; exact Hlog.
Qed.

Lemma failed_alloc_leads_to_double_free_witness :
  let a := {| m_buf := 4096; m_size := 32; m_cursor := 4112 |} in
  let r := alloc 16 64 None a [] in
  result r = Throw (posix_memalign_failed 16 64) /\
  freed (log r) = freed [] ++ [m_buf a] /\
  freed (log (dynamic_arena_dtor (state r) (log r))) = freed [] ++ [m_buf a; m_buf a] /\
  freed (log (alloc 16 48 (Some 8192) (state r) (log r))) = freed [] ++ [m_buf a; m_buf a].
Proof.
  apply (failed_alloc_leads_to_double_free 16
           {| m_buf := 4096; m_size := 32; m_cursor := 4112 |} [] 64 48 (Some 8192));
    unfold nullptr; cbn; lia.
Defined.

(** ** Handles on arenas *)

Section handle_facts.
Context `{Platform}.

Lemma noexcept_Ok {S A} (m : M S A) s l x s' l' :
  m s l = Run (Ok x) s' l' -> noexcept m s l = Run (Ok x) s' l'.
Proof. intros Hm. unfold noexcept. rewrite Hm. reflexivity. Qed.

(** What the last allocation took from the buffer, [deallocate] gives
    back. *)
Lemma allocate_deallocate_roundtrip Alignment a l byte_count answer p :
  valid_alignment Alignment -> arena_ok a ->
  result (allocate Alignment byte_count answer a l) = Ok p ->
  log (allocate Alignment byte_count answer a l) = l ->
  deallocate Alignment p byte_count
    (state (allocate Alignment byte_count answer a l)) l = Run (Ok tt) a l.
Proof.
  intros HA Ha.
  pose proof (allocate_preserves Alignment HA a l byte_count answer Ha) as (Ha' & _).
  revert Ha'. cbv zeta. rewrite (allocate_ok Alignment HA) by assumption.
  pose proof (aligned_size_nonneg Alignment HA byte_count) as Hal.
  destruct (Z.eqb_spec byte_count 0) as [-> | Hbc].
  - cbn [result state log]. intros _ [= <-] _.
    rewrite deallocate_ok by assumption.
    unfold arena_ok, nullptr in *. destruct (Z.leb_spec (m_buf a) 0); [lia | reflexivity].
  - destruct (Z.leb_spec (aligned_size Alignment byte_count) (remaining a)) as [Hfit | Hno].
    + cbn [result state log]. intros Ha' [= <-] _. unfold remaining in Hfit.
      rewrite deallocate_ok by assumption. cbn [with_cursor m_buf m_size m_cursor].
      unfold arena_ok in Ha.
      assert (Htop : ptr_add (m_cursor a) (aligned_size Alignment byte_count)
                     = m_cursor a + aligned_size Alignment byte_count)
        by (apply to_size_t_small; unfold is_size_t; lia).
      rewrite Htop, Z.eqb_refl.
      destruct (Z.leb_spec (m_buf a) (m_cursor a)); [| lia].
      destruct (Z.leb_spec (m_cursor a) (m_buf a + m_size a)); [| lia].
      cbn [andb]. destruct a; reflexivity.
    + destruct answer; cbn [result state log]; intros _ _ Hlog; exfalso;
        apply (f_equal (@length event)) in Hlog;
        rewrite length_app in Hlog; cbn in Hlog; lia.
Qed.
End handle_facts.

(** X21: a handle and the handles made from it by copy or [rebind],
    line 358, share one cursor: two allocations that fit, the second made
    through a handle rebound to another element type, return two blocks
    one after the other in the one arena. *)
Theorem rebound_handle_shares_the_cursor `{Platform}
    (T U : ctype) (A ref n1 n2 : Z) (answer1 answer2 : option Z)
    (σ : arenas) (l : list event) (a : arena_interf) :
  valid_alignment A ->
  σ !! ref = Some a -> arena_ok a ->
  let bytes1 := size_mul n1 (sizeof T) in
  let bytes2 := size_mul n2 (sizeof U) in
  bytes1 <> 0 -> bytes2 <> 0 ->
  aligned_size A bytes1 + aligned_size A bytes2 <= remaining a ->
  let h1 := allocator.of_arena T A ref in
  let h2 := allocator.of_allocator U h1 in
  let r1 := allocator.allocate h1 n1 answer1 σ l in
  let r2 := allocator.allocate h2 n2 answer2 (state r1) (log r1) in
  result r1 = Ok (m_cursor a) /\
  result r2 = Ok (m_cursor a + aligned_size A bytes1) /\
  log r2 = l /\
  state r2 = <[ref := with_cursor a (m_cursor a + aligned_size A bytes1
                                     + aligned_size A bytes2)]> σ.
Proof.
  intros HA Hl Ha bytes1 bytes2 Hb1 Hb2 Hfit. cbv zeta.
  unfold allocator.allocate, allocator.of_allocator, allocator.of_arena.
  cbn [allocator.m_arena allocator.Alignment allocator.value_type].
  fold bytes1 bytes2.
  pose proof (aligned_size_nonneg A HA bytes1) as Hal1.
  pose proof (aligned_size_nonneg A HA bytes2) as Hal2.
  assert (Hr1 : allocate A bytes1 answer1 a l
                = Run (Ok (m_cursor a))
                      (with_cursor a (m_cursor a + aligned_size A bytes1)) l).
  { rewrite (allocate_ok A HA) by assumption.
    destruct (Z.eqb_spec bytes1 0); [contradiction |].
    destruct (Z.leb_spec (aligned_size A bytes1) (remaining a)); [reflexivity | lia]. }
  set (a1 := with_cursor a (m_cursor a + aligned_size A bytes1)) in *.
  assert (Ha1 : arena_ok a1) by (unfold arena_ok, remaining in *; cbn; lia).
  assert (Hr2 : allocate A bytes2 answer2 a1 l
                = Run (Ok (m_cursor a + aligned_size A bytes1))
                      (with_cursor a (m_cursor a + aligned_size A bytes1
                                      + aligned_size A bytes2)) l).
  { rewrite (allocate_ok A HA) by assumption.
    destruct (Z.eqb_spec bytes2 0); [contradiction |].
    unfold remaining in *. cbn [a1 with_cursor m_buf m_size m_cursor].
    destruct (Z.leb_spec (aligned_size A bytes2)
                (m_buf a + m_size a - (m_cursor a + aligned_size A bytes1)));
      [reflexivity | lia]. }
  rewrite (at_arena_run _ _ _ _ a Hl). rewrite Hr1. cbn [result state log].
  rewrite (at_arena_run _ _ _ _ a1) by apply lookup_insert_eq.
  rewrite Hr2. cbn [result state log]. rewrite insert_insert_eq. auto.
Qed.

Lemma rebound_handle_shares_the_cursor_witness :
  let T := {| sizeof := 4; alignof := 4 |} in
  let U := {| sizeof := 8; alignof := 8 |} in
  let a := {| m_buf := 4096; m_size := 64; m_cursor := 4096 |} in
  let σ : arenas := <[1000 := a]> ∅ in
  let bytes1 := size_mul 3 (sizeof T) in
  let bytes2 := size_mul 2 (sizeof U) in
  let h1 := allocator.of_arena T 8 1000 in
  let h2 := allocator.of_allocator U h1 in
  let r1 := allocator.allocate h1 3 None σ [] in
  let r2 := allocator.allocate h2 2 None (state r1) (log r1) in
  result r1 = Ok (m_cursor a) /\
  result r2 = Ok (m_cursor a + aligned_size 8 bytes1) /\
  log r2 = [] /\
  state r2 = <[1000 := with_cursor a (m_cursor a + aligned_size 8 bytes1
                                      + aligned_size 8 bytes2)]> σ.
Proof.
  apply (rebound_handle_shares_the_cursor
           {| sizeof := 4; alignof := 4 |} {| sizeof := 8; alignof := 8 |} 8 1000 3 2
           None None
           (<[1000 := {| m_buf := 4096; m_size := 64; m_cursor := 4096 |}]> ∅) []
           {| m_buf := 4096; m_size := 64; m_cursor := 4096 |}).
  - split; [lp64_lia | reflexivity].
  - apply lookup_insert_eq.
  - lp64_lia.
  - vm_compute. discriminate.
  - vm_compute. discriminate.
  - vm_compute. discriminate.
Defined.

(** X22: what [operator ==], line 374, promises a container: storage
    obtained from the buffer through one handle can be given back through
    any handle that compares equal to it and has an element type of the
    same size; the arena is then exactly as before the allocation. *)
Theorem equal_handles_are_interchangeable `{Platform}
    (h1 h2 : allocator.t) (n p : Z) (answer : option Z)
    (σ : arenas) (l : list event) (a : arena_interf) :
  valid_alignment (allocator.Alignment h1) ->
  allocator.eqb h1 h2 = true ->
  sizeof (allocator.value_type h1) = sizeof (allocator.value_type h2) ->
  σ !! allocator.m_arena h1 = Some a -> arena_ok a ->
  let r1 := allocator.allocate h1 n answer σ l in
  result r1 = Ok p -> log r1 = l ->
  allocator.deallocate h2 p n (state r1) (log r1) = Run (Ok tt) σ l.
Proof.
  intros HA Heq Hsz Hl Ha. cbv zeta.
  unfold allocator.eqb in Heq. bool_facts.
  unfold allocator.allocate, allocator.deallocate.
  match goal with Hal : allocator.Alignment h1 = _, Har : allocator.m_arena h1 = _ |- _ =>
    rewrite <- Hal, <- Har, <- Hsz end.
  set (bytes := size_mul n (sizeof (allocator.value_type h1))).
  rewrite (at_arena_run _ _ _ _ a Hl). cbn [result state log].
  intros Hres Hlog. rewrite Hlog.
  apply noexcept_Ok.
  rewrite (at_arena_run _ _ _ _
             (state (allocate (allocator.Alignment h1) bytes answer a l)))
    by apply lookup_insert_eq.
  rewrite (allocate_deallocate_roundtrip _ a l bytes answer p) by assumption.
  cbn [result state log]. rewrite insert_insert_eq, insert_id by assumption.
  reflexivity.
Qed.

Lemma equal_handles_are_interchangeable_witness :
  let a := {| m_buf := 4096; m_size := 64; m_cursor := 4112 |} in
  let σ : arenas := <[1000 := a]> ∅ in
  let h1 := allocator.of_arena {| sizeof := 4; alignof := 4 |} 8 1000 in
  let h2 := allocator.of_allocator {| sizeof := 4; alignof := 2 |} h1 in
  let r1 := allocator.allocate h1 5 None σ [] in
  allocator.deallocate h2 4112 5 (state r1) (log r1) = Run (Ok tt) σ [].
Proof.
  apply (equal_handles_are_interchangeable
           (allocator.of_arena {| sizeof := 4; alignof := 4 |} 8 1000)
           (allocator.of_allocator {| sizeof := 4; alignof := 2 |}
              (allocator.of_arena {| sizeof := 4; alignof := 4 |} 8 1000))
           5 4112 None
           (<[1000 := {| m_buf := 4096; m_size := 64; m_cursor := 4112 |}]> ∅) []
           {| m_buf := 4096; m_size := 64; m_cursor := 4112 |}).
  - cbn [allocator.Alignment allocator.of_arena]. split; [lp64_lia | reflexivity].
  - reflexivity.
  - reflexivity.
  - apply lookup_insert_eq.
  - lp64_lia.
  - vm_compute. reflexivity.
  - vm_compute. reflexivity.
Defined.

(** X23: [allocator::allocate], line 365, multiplies [n] by [sizeof(T)]
    in [size_t] and does not look for an overflow: when the product
    reaches [2^size_bits] the arena is asked for the product modulo
    [2^size_bits] only, and when that fits the buffer the call succeeds
    with a block that is shorter than [n] elements. *)
Theorem allocator_allocate_overflows `{Platform}
    (h : allocator.t) (n : Z) (answer : option Z)
    (σ : arenas) (l : list event) (a : arena_interf) :
  valid_alignment (allocator.Alignment h) ->
  σ !! allocator.m_arena h = Some a -> arena_ok a ->
  size_modulus <= n * sizeof (allocator.value_type h) ->
  let bytes := (n * sizeof (allocator.value_type h)) mod size_modulus in
  bytes <> 0 ->
  aligned_size (allocator.Alignment h) bytes <= remaining a ->
  allocator.allocate h n answer σ l
    = Run (Ok (m_cursor a))
          (<[allocator.m_arena h :=
               with_cursor a (m_cursor a + aligned_size (allocator.Alignment h) bytes)]> σ)
          l /\
  aligned_size (allocator.Alignment h) bytes < n * sizeof (allocator.value_type h).
Proof.
  intros HA Hl Ha Hover bytes Hnz Hfit. split.
  - unfold allocator.allocate. rewrite (at_arena_run _ _ _ _ a Hl).
    unfold size_mul, to_size_t. fold bytes.
    rewrite (allocate_ok _ HA) by assumption.
    destruct (Z.eqb_spec bytes 0); [contradiction |].
    destruct (Z.leb_spec (aligned_size (allocator.Alignment h) bytes) (remaining a));
      [reflexivity | lia].
  - unfold arena_ok, remaining in *. lia.
Qed.

Lemma allocator_allocate_overflows_witness :
  let h := allocator.of_arena {| sizeof := 4; alignof := 4 |} 8 1000 in
  let a := {| m_buf := 4096; m_size := 64; m_cursor := 4096 |} in
  let σ : arenas := <[1000 := a]> ∅ in
  let n := 4611686018427387906 in
  let bytes := (n * 4) mod size_modulus in
  allocator.allocate h n None σ []
    = Run (Ok (m_cursor a))
          (<[1000 := with_cursor a (m_cursor a + aligned_size 8 bytes)]> σ) [] /\
  aligned_size 8 bytes < n * 4.
Proof.
  apply (allocator_allocate_overflows
           (allocator.of_arena {| sizeof := 4; alignof := 4 |} 8 1000)
           4611686018427387906 None
           (<[1000 := {| m_buf := 4096; m_size := 64; m_cursor := 4096 |}]> ∅) []
           {| m_buf := 4096; m_size := 64; m_cursor := 4096 |}).
  - cbn [allocator.Alignment allocator.of_arena]. split; [lp64_lia | reflexivity].
  - apply lookup_insert_eq.
  - lp64_lia.
  - vm_compute. discriminate.
  - vm_compute. discriminate.
  - vm_compute. discriminate.
Defined.

(** X24: [operator ==], line 374, is an equivalence on handles, as a
    container expects of its allocator, and it does not depend on the
    element type: rebinding a handle leaves the comparison with any other
    handle unchanged. *)
Theorem allocator_equality_is_an_equivalence
    (h1 h2 h3 : allocator.t) (U : ctype) :
  allocator.eqb h1 h1 = true /\
  allocator.eqb h1 h2 = allocator.eqb h2 h1 /\
  (allocator.eqb h1 h2 = true -> allocator.eqb h2 h3 = true ->
     allocator.eqb h1 h3 = true) /\
  allocator.eqb (allocator.of_allocator U h1) h2 = allocator.eqb h1 h2.
Proof.
  unfold allocator.eqb, allocator.of_allocator.
  cbn [allocator.m_arena allocator.Alignment].
  split; [rewrite !Z.eqb_refl; reflexivity |].
  split; [rewrite (Z.eqb_sym (allocator.Alignment h1)),
            (Z.eqb_sym (allocator.m_arena h1)); reflexivity |].
  split; [| reflexivity].
  intros H12 H23. bool_facts. apply andb_true_iff. split; apply Z.eqb_eq; congruence.
Qed.

Lemma allocator_equality_is_an_equivalence_witness :
  let h1 := allocator.of_arena {| sizeof := 4; alignof := 4 |} 8 1000 in
  let h2 := allocator.of_arena {| sizeof := 8; alignof := 8 |} 8 1000 in
  let h3 := allocator.of_arena {| sizeof := 1; alignof := 1 |} 8 1000 in
  allocator.eqb h1 h3 = true.
Proof.
  cbv zeta.
  apply (allocator_equality_is_an_equivalence
           (allocator.of_arena {| sizeof := 4; alignof := 4 |} 8 1000)
           (allocator.of_arena {| sizeof := 8; alignof := 8 |} 8 1000)
           (allocator.of_arena {| sizeof := 1; alignof := 1 |} 8 1000)
           {| sizeof := 2; alignof := 2 |}); reflexivity.
Defined.

(** ** [svobuf], beyond its first [N] elements *)

(** X25: [svobuf::svobuf], line 395, with [N * sizeof(T)] equal to 0 in
    [size_t], which is so for [N = 0] and for every [N] whose product
    with [sizeof(T)] is a multiple of [2^size_bits]: the [fixed_arena]
    member has no storage, [set_buf] throws, and no [svobuf] comes to
    exist. *)
Theorem svobuf_without_storage_cannot_be_built `{Platform}
    (T : ctype) (N this_arena m_storage : Z) (answer : option Z)
    (σ : arenas) (l : list event) :
  size_mul N (sizeof T) = 0 ->
  svobuf.ctor T N this_arena m_storage answer σ l = Run (Throw empty_aligned_buf) σ l.
Proof.
  intros Hz. unfold svobuf.ctor. apply bind_Throw.
  unfold construct_at, fixed_arena. rewrite Hz.
  rewrite (bind_Ok _ _ arena_default l tt arena_default l) by reflexivity.
  rewrite set_buf_run. cbn [aligned_buf.buf aligned_buf.size].
  rewrite Z.eqb_refl, orb_true_r. reflexivity.
Qed.

Lemma svobuf_without_storage_cannot_be_built_witness :
  svobuf.ctor {| sizeof := 4; alignof := 4 |} 4611686018427387904 1000 1008 None
    (∅ : arenas) []
  = Run (Throw empty_aligned_buf) ∅ [].
Proof.
  apply (svobuf_without_storage_cannot_be_built {| sizeof := 4; alignof := 4 |}
           4611686018427387904 1000 1008 None ∅ []).
  vm_compute. reflexivity.
Defined.

(** X26: the constructor of [svobuf] hands all of the inline storage to
    the vector (the comment of lines 398-409): afterwards every
    allocation through a handle on its arena, such as the one a copy of
    the vector makes, of a size in bytes that is not zero and at most
    [SIZE_MAX - (alignof(T) - 1)], goes to [posix_memalign].  When
    [alignof(T)] is not a multiple of [sizeof(void * )], as for [int] on a
    64-bit platform, [posix_memalign] rejects the alignment and the
    allocation throws. *)
Theorem svobuf_storage_is_exhausted `{Platform}
    (T : ctype) (N this_arena m_storage : Z) (answer0 : option Z)
    (σ : arenas) (l : list event)
    (h : allocator.t) (n : Z) (answer : option Z) :
  valid_alignment (alignof T) ->
  0 < sizeof T -> (alignof T | sizeof T) ->
  0 < N -> N * sizeof T <= std_vector.PTRDIFF_MAX ->
  0 < m_storage -> m_storage + N * sizeof T < size_modulus ->
  allocator.m_arena h = this_arena -> allocator.Alignment h = alignof T ->
  let bytes := size_mul n (sizeof (allocator.value_type h)) in
  0 < bytes <= SIZE_MAX - (alignof T - 1) ->
  let r := svobuf.ctor T N this_arena m_storage answer0 σ l in
  let r' := allocator.allocate h n answer (state r) (log r) in
  log r' = l ++ [posix_memalign (alignof T) bytes answer] /\
  result r' = match answer with
              | Some q => Ok q
              | None => Throw (posix_memalign_failed (alignof T) bytes)
              end /\
  state r' = state r /\
  (alignof T mod sizeof_void_p <> 0 ->
   posix_memalign_conforms [(m_storage, N * sizeof T)] (alignof T) bytes answer = true ->
   result r' = Throw (posix_memalign_failed (alignof T) bytes)).
Proof.
  intros HA Hsz Hdiv HN Hbytes Hs He Href Hal bytes Hb. cbv zeta.
  rewrite svobuf_ctor_run by assumption. cbn [result state log].
  unfold allocator.allocate. rewrite Href, Hal. fold bytes.
  rewrite (at_arena_run _ _ _ _ (svobuf_arena T N m_storage)) by apply lookup_insert_eq.
  assert (Hok : arena_ok (svobuf_arena T N m_storage))
    by (unfold arena_ok, svobuf_arena; cbn; nia).
  assert (Hge : bytes <= aligned_size (alignof T) bytes).
  { rewrite aligned_size_no_wrap by (try assumption; lia).
    apply (round_up_least (alignof T) bytes), valid_alignment_pos, HA. }
  assert (Hrun : allocate (alignof T) bytes answer (svobuf_arena T N m_storage) l
            = match answer with
              | Some q => Run (Ok q) (svobuf_arena T N m_storage)
                            (l ++ [posix_memalign (alignof T) bytes answer])
              | None => Run (Throw (posix_memalign_failed (alignof T) bytes))
                            (svobuf_arena T N m_storage)
                            (l ++ [posix_memalign (alignof T) bytes answer])
              end).
  { rewrite (allocate_ok (alignof T) HA) by assumption.
    destruct (Z.eqb_spec bytes 0); [lia |].
    unfold remaining, svobuf_arena at 1 2 3. cbn [m_buf m_size m_cursor].
    destruct (Z.leb_spec (aligned_size (alignof T) bytes)
                (m_storage + N * sizeof T - (m_storage + N * sizeof T))); [lia |].
    destruct answer; reflexivity. }
  rewrite Hrun.
  split; [destruct answer; reflexivity |].
  split; [destruct answer; reflexivity |].
  split; [destruct answer; cbn [state]; apply insert_insert_eq |].
  intros Hptr Hconf. destruct answer as [q |]; [| reflexivity].
  unfold posix_memalign_conforms in Hconf. bool_facts. contradiction.
Qed.

Lemma svobuf_storage_is_exhausted_witness :
  let T := {| sizeof := 4; alignof := 4 |} in
  let h := allocator.of_arena T 4 1000 in
  let bytes := size_mul 8 (sizeof T) in
  let r := svobuf.ctor T 4 1000 1008 None (∅ : arenas) [] in
  let r' := allocator.allocate h 8 None (state r) (log r) in
  log r' = [] ++ [posix_memalign 4 bytes None] /\
  result r' = Throw (posix_memalign_failed 4 bytes) /\
  state r' = state r /\
  (4 mod sizeof_void_p <> 0 ->
   posix_memalign_conforms [(1008, 4 * 4)] 4 bytes None = true ->
   result r' = Throw (posix_memalign_failed 4 bytes)).
Proof.
  apply (svobuf_storage_is_exhausted {| sizeof := 4; alignof := 4 |} 4 1000 1008 None
           ∅ [] (allocator.of_arena {| sizeof := 4; alignof := 4 |} 4 1000) 8 None).
  - split; [lp64_lia | reflexivity].
  - cbn; lia.
  - exists 1. reflexivity.
  - lia.
  - unfold std_vector.PTRDIFF_MAX. cbn. lia.
  - lia.
  - lp64_lia.
  - reflexivity.
  - reflexivity.
  - vm_compute. split; [reflexivity | discriminate].
Defined.

(** ** Fresh arenas *)

(** X27: [fixed_arena::fixed_arena], line 288: the arena starts with its
    whole array free and its cursor at the start of it; when the size of
    the array is a multiple of the alignment a single request for all of
    it is served from the buffer, at the start of the array, and fills
    the arena. *)
Theorem fixed_arena_starts_empty `{Platform}
    (Alignment ByteCount m_storage : Z) (a : arena_interf) (l : list event)
    (answer : option Z) :
  valid_alignment Alignment ->
  0 < m_storage -> 0 < ByteCount -> m_storage + ByteCount < size_modulus ->
  (Alignment | ByteCount) ->
  let r0 := fixed_arena ByteCount m_storage a l in
  result r0 = Ok tt /\ log r0 = l /\
  arena_ok (state r0) /\
  result (used (state r0) l) = Ok 0 /\
  remaining (state r0) = ByteCount /\
  let r := allocate Alignment ByteCount answer (state r0) l in
  result r = Ok m_storage /\ log r = l /\
  result (used (state r) l) = Ok ByteCount /\
  remaining (state r) = 0.
Proof.
  intros HA Hs Hb He Hdiv. cbv zeta.
  rewrite fixed_arena_run by assumption. cbn [result state log].
  set (a0 := {| m_buf := m_storage; m_size := ByteCount; m_cursor := m_storage |}).
  assert (Ha0 : arena_ok a0) by (unfold arena_ok; cbn; lia).
  pose proof (valid_alignment_pos _ HA) as Hpos.
  assert (Hal : aligned_size Alignment ByteCount = ByteCount).
  { apply aligned_size_multiple; [assumption | assumption |].
    destruct Hdiv as [q ->]. destruct (alignment_divides_modulus _ HA) as [m Hm].
    unfold SIZE_MAX. rewrite Hm in *.
    assert (q < m) by nia. assert (q * Alignment + Alignment <= m * Alignment) by nia.
    lia. }
  split; [reflexivity |]. split; [reflexivity |]. split; [assumption |].
  split; [rewrite used_ok by assumption; cbn; f_equal; lia |].
  split; [unfold remaining; cbn; lia |].
  assert (Hrun : allocate Alignment ByteCount answer a0 l
                 = Run (Ok m_storage) (with_cursor a0 (m_storage + ByteCount)) l).
  { rewrite (allocate_ok Alignment HA) by assumption. rewrite Hal.
    destruct (Z.eqb_spec ByteCount 0); [lia |].
    unfold remaining. cbn [a0 m_buf m_size m_cursor].
    destruct (Z.leb_spec ByteCount (m_storage + ByteCount - m_storage)); [| lia].
    reflexivity. }
  rewrite Hrun.
  cbn [result state log]. split; [reflexivity |]. split; [reflexivity |].
  split.
  - rewrite used_ok by (unfold arena_ok; cbn; lia). cbn. f_equal. lia.
  - unfold remaining. cbn. lia.
Qed.

Lemma fixed_arena_starts_empty_witness :
  let r0 := fixed_arena 64 4096 arena_default [] in
  result r0 = Ok tt /\ log r0 = [] /\
  arena_ok (state r0) /\
  result (used (state r0) []) = Ok 0 /\
  remaining (state r0) = 64 /\
  let r := allocate 8 64 None (state r0) [] in
  result r = Ok 4096 /\ log r = [] /\
  result (used (state r) []) = Ok 64 /\
  remaining (state r) = 0.
Proof.
  apply (fixed_arena_starts_empty 8 64 4096 arena_default [] None).
  - split; [lp64_lia | reflexivity].
  - lia.
  - lia.
  - lp64_lia.
  - exists 8. reflexivity.
Defined.

(** X28: [dynamic_arena::alloc], lines 320-329: on a non-zero byte count
    [alloc] frees the buffer the arena held, if any, and then calls
    [posix_memalign] once, with the alignment of the arena and the byte
    count as asked.  When the calls of [posix_memalign] in the log were
    answered as POSIX requires for the arguments they were made with, the
    arena that [alloc] leaves is an attached arena in a good state, with
    its buffer at a multiple of the alignment, its cursor at the start
    and [used()] equal to 0, whatever the arena held before. *)
Theorem alloc_attaches_an_aligned_empty_buffer `{Platform}
    (Alignment : Z) (a : arena_interf) (l : list event) (byte_count p : Z)
    (live : list (Z * Z)) :
  0 < byte_count ->
  let r := alloc Alignment byte_count (Some p) a l in
  log r = l ++ map free (held a) ++ [posix_memalign Alignment byte_count (Some p)] /\
  (answers_conform live (log r) ->
   result r = Ok tt /\
   state r = {| m_buf := p; m_size := byte_count; m_cursor := p |} /\
   arena_ok (state r) /\
   m_buf (state r) mod Alignment = 0 /\
   cursor_aligned Alignment (state r) /\
   result (used (state r) (log r)) = Ok 0).
Proof.
  intros Hbc. cbv zeta.
  pose proof (alloc_run Alignment a l byte_count (Some p) ltac:(lia)) as Hrun.
  cbv zeta in Hrun.
  assert (Hlog : log (alloc Alignment byte_count (Some p) a l)
            = l ++ map free (held a) ++ [posix_memalign Alignment byte_count (Some p)])
    by (rewrite Hrun; destruct (p =? nullptr); reflexivity).
  split; [exact Hlog |].
  rewrite Hlog. intros Hall. unfold answers_conform in Hall.
  apply Forall_app in Hall. destruct Hall as [_ Hall].
  apply Forall_app in Hall. destruct Hall as [_ Hall].
  inversion Hall as [| ev evs Hconf _]; subst. clear Hall.
  unfold posix_memalign_conforms in Hconf. bool_facts.
  match goal with Hd : (_ || _) = true |- _ => apply orb_true_iff in Hd; destruct Hd as [Hd | Hd] end;
    [bool_facts; lia |].
  bool_facts.
  revert Hrun. unfold nullptr. destruct (Z.eqb_spec p 0); [lia |]. intros Hrun.
  rewrite Hrun. cbn [result state log].
  assert (Hok : arena_ok {| m_buf := p; m_size := byte_count; m_cursor := p |})
    by (unfold arena_ok; cbn; lia).
  split; [reflexivity |]. split; [reflexivity |]. split; [assumption |].
  split; [assumption |]. split.
  - unfold cursor_aligned. cbn. rewrite Z.sub_diag. apply Z.mod_0_l.
    intros ->. rewrite Z.mod_0_r in *. lia.
  - rewrite used_ok by assumption. cbn. f_equal. lia.
Qed.

Lemma alloc_attaches_an_aligned_empty_buffer_witness :
  let a := {| m_buf := 4096; m_size := 32; m_cursor := 4112 |} in
  let r := alloc 16 64 (Some 8192) a [] in
  answers_conform [(4096, 32)] [free 4096; posix_memalign 16 64 (Some 8192)] /\
  log r = [] ++ map free (held a) ++ [posix_memalign 16 64 (Some 8192)] /\
  (answers_conform [(4096, 32)] (log r) ->
   result r = Ok tt /\
   state r = {| m_buf := 8192; m_size := 64; m_cursor := 8192 |} /\
   arena_ok (state r) /\
   m_buf (state r) mod 16 = 0 /\
   cursor_aligned 16 (state r) /\
   result (used (state r) (log r)) = Ok 0).
Proof.
  cbv zeta. split.
  - constructor; [exact I |]. constructor; [vm_compute; reflexivity | constructor].
  - apply (alloc_attaches_an_aligned_empty_buffer 16
             {| m_buf := 4096; m_size := 32; m_cursor := 4112 |} [] 64 8192 [(4096, 32)]).
    lia.
Defined.
